(** * Multi-LLM group chat: the discussion engine, embedded and verified

    A shallow embedding of [config.py], [personas.py], [llm_clients.py],
    [discussion.py] and [main.py] (options, input stage, display loop and
    error handler), followed by the properties of the orchestration engine.

    Conventions.
    - A Python [str] is a list of Unicode code points ([pystr]); [lit]
      injects an ASCII literal.
    - A Python [dict] is an association list in insertion order, with
      unique keys ([dict_get], [dict_set]).
    - A raised exception is the [Raise] branch of [result].
    - A text-generation backend is an opaque function of the request and
      of the requests made before it; every request is logged.
    - The generator [run_discussion] is modelled driven to its end: the
      messages it yields are collected in order, up to the exception that
      stops it, if any. [drive_discussion] is the same generator with the
      body of the caller's [for] loop run at each yield.
    - The terminal is an opaque function too: printing a text that is not
      a fixed literal of the program either succeeds or raises, as rich does
      on ill-formed markup. Fixed literals print.
    - A sampling temperature is a rational; it is only passed on. *)

From Stdlib Require Import String Ascii List ZArith NArith QArith Lia Bool.
Import ListNotations.
Local Open Scope list_scope.


(* ================================================================= *)
(** ** Python values *)

Module Py.

Definition char := N.
Definition pystr := list char.

Definition lit (s : string) : pystr :=
  map N_of_ascii (list_ascii_of_string s).

Definition dq : pystr := [34%N].
Definition nl : char := 10%N.

Fixpoint pystr_eqb (a b : pystr) : bool :=
  match a, b with
  | [], [] => true
  | x :: a', y :: b' => N.eqb x y && pystr_eqb a' b'
  | _, _ => false
  end.

(** Truthiness of a string: [bool(s)]. *)
Definition truthy (s : pystr) : bool :=
  match s with [] => false | _ => true end.

(** [a or b] on strings. *)
Definition str_or (a b : pystr) : pystr := if truthy a then a else b.

(** The characters [str.strip()] removes: those with [str.isspace]. *)
Definition is_space (c : char) : bool :=
  ((9 <=? c) && (c <=? 13) || (28 <=? c) && (c <=? 32)
   || (c =? 133) || (c =? 160) || (c =? 5760)
   || (8192 <=? c) && (c <=? 8202)
   || (c =? 8232) || (c =? 8233) || (c =? 8239) || (c =? 8287)
   || (c =? 12288))%N.

Fixpoint lstrip (s : pystr) : pystr :=
  match s with
  | c :: s' => if is_space c then lstrip s' else s
  | [] => []
  end.

Definition rstrip (s : pystr) : pystr := rev (lstrip (rev s)).

Definition strip (s : pystr) : pystr := rstrip (lstrip s).

(** [sep.join(parts)]. *)
Fixpoint join (sep : pystr) (parts : list pystr) : pystr :=
  match parts with
  | [] => []
  | [p] => p
  | p :: rest => p ++ sep ++ join sep rest
  end.

(** Exceptions the modelled code raises or lets through. *)
Inductive exn :=
| ValueError (msg : pystr)
| KeyError (key : pystr)
| IndexError (msg : pystr)
| ConnectionError (msg : pystr)
| TimeoutError (msg : pystr)
| OSError (msg : pystr)
| MarkupError (msg : pystr)
| RuntimeError (msg : pystr).

Inductive result (A : Type) :=
| Ok (a : A)
| Raise (e : exn).
Arguments Ok {A} a.
Arguments Raise {A} e.

Definition bind {A B} (r : result A) (k : A -> result B) : result B :=
  match r with
  | Ok a => k a
  | Raise e => Raise e
  end.

(** Dictionaries, in insertion order. *)
Definition dict (V : Type) := list (pystr * V).

Fixpoint dict_get {V} (d : dict V) (k : pystr) : option V :=
  match d with
  | [] => None
  | (k', v) :: d' => if pystr_eqb k' k then Some v else dict_get d' k
  end.

(** [d[k] = v]: an existing key keeps its position. *)
Fixpoint dict_set {V} (d : dict V) (k : pystr) (v : V) : dict V :=
  match d with
  | [] => [(k, v)]
  | (k', v') :: d' =>
      if pystr_eqb k' k then (k', v) :: d' else (k', v') :: dict_set d' k v
  end.

(** [d.get(k, default)]. *)
Definition dict_get_default {V} (d : dict V) (k : pystr) (default : V) : V :=
  match dict_get d k with
  | Some v => v
  | None => default
  end.

(** [d[k]], raising [KeyError]. *)
Definition dict_item {V} (d : dict V) (k : pystr) : result V :=
  match dict_get d k with
  | Some v => Ok v
  | None => Raise (KeyError k)
  end.

Definition dict_values {V} (d : dict V) : list V := map snd d.

(** [range(1, n + 1)]. *)
Definition range_from_1 (n : Z) : list Z :=
  map Z.of_nat (seq 1 (Z.to_nat n)).

End Py.
Export Py.

Notation "'do' x <- r ; k" := (bind r (fun x => k))
  (at level 10, x name, r at level 100, k at level 200).

(* ================================================================= *)
(** ** config.py *)

Module config.

(** An entry of [MIXED_ASSIGNMENTS]: a dict (new format) or a bare
    provider string (old format). *)
Inductive assignment :=
| AssignDict (d : dict pystr)
| AssignStr (provider : pystr).

Record Config := {
  GROQ_API_KEY : pystr;
  GOOGLE_API_KEY : pystr;
  HUGGINGFACE_API_KEY : pystr;
  LLM_PROVIDER : pystr;
  MIXED_ASSIGNMENTS : dict assignment;
  MODELS : dict pystr;
  OLLAMA_BASE_URL : pystr;
  OLLAMA_TIMEOUT : Z;
  MAX_ROUNDS : Z;
  ENABLE_SYNTHESIZER : bool;
  PERSONA_TEMPERATURES : dict Q
}.

Definition new_format (provider model : string) : assignment :=
  AssignDict [(lit "provider", lit provider); (lit "model", lit model)].

(** The module as loaded, given the three keys read from the environment. *)
Definition module (groq_key google_key huggingface_key : pystr) : Config := {|
  GROQ_API_KEY := groq_key;
  GOOGLE_API_KEY := google_key;
  HUGGINGFACE_API_KEY := huggingface_key;
  LLM_PROVIDER := lit "mixed";
  MIXED_ASSIGNMENTS :=
    [ (lit "logical", new_format "ollama" "llama3.2");
      (lit "skeptical", new_format "ollama" "mistral");
      (lit "synthesizer", new_format "ollama" "phi3");
      (lit "creative", new_format "groq" "llama-3.3-70b-versatile");
      (lit "practical", new_format "groq" "qwen/qwen3-32b") ];
  MODELS :=
    [ (lit "ollama", lit "llama3.2");
      (lit "groq", lit "llama-3.1-8b-instant");
      (lit "google", lit "gemini-1.5-flash");
      (lit "huggingface", lit "mistralai/Mistral-7B-Instruct-v0.3") ];
  OLLAMA_BASE_URL := lit "http://localhost:11434";
  OLLAMA_TIMEOUT := 180;
  MAX_ROUNDS := 3;
  ENABLE_SYNTHESIZER := true;
  PERSONA_TEMPERATURES :=
    [ (lit "logical", 3 # 10);
      (lit "creative", 8 # 10);
      (lit "skeptical", 5 # 10);
      (lit "practical", 4 # 10);
      (lit "synthesizer", 3 # 10) ]
|}.

Definition set_MAX_ROUNDS (cfg : Config) (n : Z) : Config := {|
  GROQ_API_KEY := GROQ_API_KEY cfg;
  GOOGLE_API_KEY := GOOGLE_API_KEY cfg;
  HUGGINGFACE_API_KEY := HUGGINGFACE_API_KEY cfg;
  LLM_PROVIDER := LLM_PROVIDER cfg;
  MIXED_ASSIGNMENTS := MIXED_ASSIGNMENTS cfg;
  MODELS := MODELS cfg;
  OLLAMA_BASE_URL := OLLAMA_BASE_URL cfg;
  OLLAMA_TIMEOUT := OLLAMA_TIMEOUT cfg;
  MAX_ROUNDS := n;
  ENABLE_SYNTHESIZER := ENABLE_SYNTHESIZER cfg;
  PERSONA_TEMPERATURES := PERSONA_TEMPERATURES cfg
|}.

Definition set_ENABLE_SYNTHESIZER (cfg : Config) (b : bool) : Config := {|
  GROQ_API_KEY := GROQ_API_KEY cfg;
  GOOGLE_API_KEY := GOOGLE_API_KEY cfg;
  HUGGINGFACE_API_KEY := HUGGINGFACE_API_KEY cfg;
  LLM_PROVIDER := LLM_PROVIDER cfg;
  MIXED_ASSIGNMENTS := MIXED_ASSIGNMENTS cfg;
  MODELS := MODELS cfg;
  OLLAMA_BASE_URL := OLLAMA_BASE_URL cfg;
  OLLAMA_TIMEOUT := OLLAMA_TIMEOUT cfg;
  MAX_ROUNDS := MAX_ROUNDS cfg;
  ENABLE_SYNTHESIZER := b;
  PERSONA_TEMPERATURES := PERSONA_TEMPERATURES cfg
|}.

End config.

(* ================================================================= *)
(** ** personas.py *)

Module personas.

Record Persona := {
  name : pystr;
  emoji : pystr;
  system_prompt : pystr
}.

Definition logical_system_prompt : pystr :=
  lit "You are participating in a casual group chat discussion with friends. Your thinking style is LOGICAL and STRUCTURED.

Your personality:
- Calm, methodical, and fact-focused
- You break things down step by step
- You prefer evidence and clear reasoning
- You organize thoughts systematically
- You're friendly but analytical

Conversation rules:
- Write like you're texting friends - natural, not formal essays
- Keep messages short to medium length (2-5 sentences typically)
- Reference what others said when relevant (" ++ dq ++ lit "I see what you mean, but..." ++ dq ++ lit ")
- Stay consistent with your logical personality
- Don't be robotic - be warm but precise
- Never mention being an AI or LLM
- Just respond naturally as a person in the chat".

Definition creative_system_prompt : pystr :=
  lit "You are participating in a casual group chat discussion with friends. Your thinking style is CREATIVE and IMAGINATIVE.

Your personality:
- Open-ended and speculative
- You bring unusual or alternative viewpoints
- You think in metaphors and possibilities
- You ask " ++ dq ++ lit "what if" ++ dq ++ lit " questions
- You're enthusiastic and curious

Conversation rules:
- Write like you're texting friends - natural, not formal essays
- Keep messages short to medium length (2-5 sentences typically)
- Reference what others said when relevant (" ++ dq ++ lit "Oh that reminds me of..." ++ dq ++ lit ")
- Stay consistent with your creative personality
- Be expressive and use occasional enthusiasm
- Never mention being an AI or LLM
- Just respond naturally as a person in the chat".

Definition skeptical_system_prompt : pystr :=
  lit "You are participating in a casual group chat discussion with friends. Your thinking style is SKEPTICAL and QUESTIONING.

Your personality:
- You question assumptions politely
- You play devil's advocate constructively
- You look for gaps in reasoning
- You ask clarifying questions
- You're respectful but challenging

Conversation rules:
- Write like you're texting friends - natural, not formal essays
- Keep messages short to medium length (2-5 sentences typically)
- Reference what others said when relevant (" ++ dq ++ lit "Hmm, but have you considered..." ++ dq ++ lit ")
- Stay consistent with your skeptical personality
- Be polite when disagreeing - never aggressive
- Never mention being an AI or LLM
- Just respond naturally as a person in the chat".

Definition practical_system_prompt : pystr :=
  lit "You are participating in a casual group chat discussion with friends. Your thinking style is PRACTICAL and GROUNDED.

Your personality:
- You focus on real-world feasibility
- You think about cost, effort, and scalability
- You consider risks and implementation challenges
- You bring discussions back to actionable reality
- You're direct but friendly

Conversation rules:
- Write like you're texting friends - natural, not formal essays
- Keep messages short to medium length (2-5 sentences typically)
- Reference what others said when relevant (" ++ dq ++ lit "That's cool in theory, but..." ++ dq ++ lit ")
- Stay consistent with your practical personality
- Keep things grounded without being dismissive
- Never mention being an AI or LLM
- Just respond naturally as a person in the chat".

Definition synthesizer_system_prompt : pystr :=
  lit "You are participating in a casual group chat discussion with friends. Your role is to be a NEUTRAL OBSERVER and SYNTHESIZER.

Your personality:
- You observe more than you argue
- You occasionally summarize what's been said
- You highlight interesting tensions or agreements
- You're balanced and don't take strong sides
- You help bridge different viewpoints

Conversation rules:
- Write like you're texting friends - natural, not formal essays
- Keep messages short to medium length (2-5 sentences typically)
- Reference multiple people's points (" ++ dq ++ lit "So we have X saying... and Y saying..." ++ dq ++ lit ")
- Stay neutral - don't advocate for one position
- Speak less frequently than others
- Never mention being an AI or LLM
- Just respond naturally as a person in the chat".


Definition PERSONAS : dict Persona :=
  [ (lit "logical",
     {| name := lit "Logical Thinker"; emoji := [129504%N];
        system_prompt := logical_system_prompt |});
    (lit "creative",
     {| name := lit "Creative Thinker"; emoji := [127912%N];
        system_prompt := creative_system_prompt |});
    (lit "skeptical",
     {| name := lit "Skeptical Thinker"; emoji := [129300%N];
        system_prompt := skeptical_system_prompt |});
    (lit "practical",
     {| name := lit "Practical Thinker"; emoji := [128295%N];
        system_prompt := practical_system_prompt |});
    (lit "synthesizer",
     {| name := lit "Neutral Synthesizer"; emoji := [9878%N; 65039%N];
        system_prompt := synthesizer_system_prompt |}) ].

Definition RESPONSE_ORDER : list pystr :=
  [lit "logical"; lit "creative"; lit "skeptical"; lit "practical"].

Definition RESPONSE_ORDER_WITH_SYNTH : list pystr :=
  [lit "logical"; lit "creative"; lit "skeptical"; lit "practical";
   lit "synthesizer"].

End personas.

(* ================================================================= *)
(** ** llm_clients.py *)

Module llm_clients.

(** The four client classes, with the attributes their constructors set. *)
Inductive Client :=
| OllamaClient (model base_url : pystr) (timeout : Z)
| GroqClient (api_key model : pystr)
| GoogleClient (api_key model : pystr)
| HuggingFaceClient (api_key model api_url : pystr).

(** One chat entry: [{"role": ..., "content": ...}]. *)
Record Entry := {
  role : pystr;
  content : pystr
}.

(** One call of [client.generate(system_prompt, messages, temperature)]. *)
Record Call := {
  call_client : Client;
  call_system_prompt : pystr;
  call_messages : list Entry;
  call_temperature : Q
}.

(** What the world answers to a call, given the calls made before it:
    the generated text, or the exception the client raises. *)
Definition Backend := list Call -> Call -> result pystr.

(** [client.generate(...)]: ask the backend and log the call. *)
Definition generate (backend : Backend) (client : Client)
    (system_prompt : pystr) (messages : list Entry) (temperature : Q)
    (log : list Call) : result pystr * list Call :=
  let call := {| call_client := client;
                 call_system_prompt := system_prompt;
                 call_messages := messages;
                 call_temperature := temperature |} in
  (backend log call, log ++ [call]).

Definition unknown_provider_message (provider : pystr) : pystr :=
  lit "Unknown provider: " ++ provider
  ++ lit ". Use: ollama, groq, google, huggingface".

Definition create_client (ollama_timeout : Z)
    (provider api_key model : pystr) : result Client :=
  if pystr_eqb provider (lit "ollama") then
    Ok (OllamaClient (str_or model (lit "llama3.2"))
          (lit "http://localhost:11434") ollama_timeout)
  else if pystr_eqb provider (lit "groq") then
    Ok (GroqClient api_key (str_or model (lit "llama-3.1-8b-instant")))
  else if pystr_eqb provider (lit "google") then
    Ok (GoogleClient api_key (str_or model (lit "gemini-1.5-flash")))
  else if pystr_eqb provider (lit "huggingface") then
    let model := str_or model (lit "mistralai/Mistral-7B-Instruct-v0.3") in
    Ok (HuggingFaceClient api_key model
          (lit "https://api-inference.huggingface.co/models/" ++ model))
  else
    Raise (ValueError (unknown_provider_message provider)).

End llm_clients.

(* ================================================================= *)
(** ** discussion.py *)

Module discussion.

Import personas llm_clients.

(** A single message in the chat. *)
Record Message := {
  persona_key : pystr;
  persona_name : pystr;
  emoji : pystr;
  content : pystr;
  round_num : Z
}.

(** The session object: topic, transcript, and client of each persona. *)
Record Discussion := {
  user_input : pystr;
  messages : list Message;
  clients : dict Client
}.

Definition append_message (self : Discussion) (message : Message) : Discussion :=
  {| user_input := user_input self;
     messages := messages self ++ [message];
     clients := clients self |}.

Definition _get_api_key (cfg : config.Config) (provider : pystr) : pystr :=
  let keys := [ (lit "groq", config.GROQ_API_KEY cfg);
                (lit "google", config.GOOGLE_API_KEY cfg);
                (lit "huggingface", config.HUGGINGFACE_API_KEY cfg);
                (lit "ollama", []) ] in
  dict_get_default keys provider [].

(** Provider and model of one entry of [MIXED_ASSIGNMENTS]. *)
Definition provider_and_model (cfg : config.Config)
    (assignment : config.assignment) : result (pystr * pystr) :=
  match assignment with
  | config.AssignDict d =>
      do provider <- dict_item d (lit "provider");
      Ok (provider,
          dict_get_default d (lit "model")
            (dict_get_default (config.MODELS cfg) provider []))
  | config.AssignStr provider =>
      Ok (provider, dict_get_default (config.MODELS cfg) provider [])
  end.

(** The loop over [config.MIXED_ASSIGNMENTS.items()]. *)
Fixpoint setup_mixed (cfg : config.Config)
    (items : list (pystr * config.assignment)) (clients : dict Client)
    : result (dict Client) :=
  match items with
  | [] => Ok clients
  | (persona_key, assignment) :: rest =>
      do pm <- provider_and_model cfg assignment;
      let api_key := _get_api_key cfg (fst pm) in
      do client <- create_client (config.OLLAMA_TIMEOUT cfg) (fst pm) api_key (snd pm);
      setup_mixed cfg rest (dict_set clients persona_key client)
  end.

Definition active_order (cfg : config.Config) : list pystr :=
  if config.ENABLE_SYNTHESIZER cfg then RESPONSE_ORDER_WITH_SYNTH
  else RESPONSE_ORDER.

Definition _setup_clients (cfg : config.Config) (clients : dict Client)
    : result (dict Client) :=
  if pystr_eqb (config.LLM_PROVIDER cfg) (lit "mixed") then
    setup_mixed cfg (config.MIXED_ASSIGNMENTS cfg) clients
  else
    let provider := config.LLM_PROVIDER cfg in
    let api_key := _get_api_key cfg provider in
    let model := dict_get_default (config.MODELS cfg) provider [] in
    do client <- create_client (config.OLLAMA_TIMEOUT cfg) provider api_key model;
    Ok (fold_left (fun clients persona_key => dict_set clients persona_key client)
          (active_order cfg) clients).

(** [Discussion(user_input, messages, clients)]: the dataclass constructor
    followed by [__post_init__]. *)
Definition __init__ (cfg : config.Config) (user_input : pystr)
    (messages : list Message) (clients : dict Client) : result Discussion :=
  do clients' <- _setup_clients cfg clients;
  Ok {| user_input := user_input; messages := messages; clients := clients' |}.

(** [Discussion(user_input=...)], with the default empty fields. *)
Definition new (cfg : config.Config) (user_input : pystr) : result Discussion :=
  __init__ cfg user_input [] [].

Definition topic_entry (self : Discussion) : Entry :=
  {| role := lit "user"; llm_clients.content := lit "[User] " ++ user_input self |}.

Definition message_entry (for_persona : pystr) (msg : Message) : Entry :=
  {| role := if pystr_eqb (persona_key msg) for_persona
             then lit "assistant" else lit "user";
     llm_clients.content := lit "[" ++ persona_name msg ++ lit "] " ++ content msg |}.

Definition prompt_entry (persona : Persona) : Entry :=
  {| role := lit "user";
     llm_clients.content :=
       lit "Now respond naturally as yourself (" ++ name persona
       ++ lit ") to this ongoing discussion. Keep it conversational and chat-like." |}.

Definition _build_chat_history (self : Discussion) (for_persona : pystr)
    : result (list Entry) :=
  let history := [topic_entry self] in
  let history := history ++ map (message_entry for_persona) (messages self) in
  do persona <- dict_item PERSONAS for_persona;
  Ok (history ++ [prompt_entry persona]).

Section Engine.

Variable cfg : config.Config.
Variable backend : Backend.

Definition _generate_response (self : Discussion) (persona_key : pystr)
    (round_num : Z) (log : list Call) : result Message * list Call :=
  match dict_item PERSONAS persona_key with
  | Raise e => (Raise e, log)
  | Ok persona =>
      match dict_item (clients self) persona_key with
      | Raise e => (Raise e, log)
      | Ok client =>
          let temperature :=
            dict_get_default (config.PERSONA_TEMPERATURES cfg) persona_key (5 # 10) in
          match _build_chat_history self persona_key with
          | Raise e => (Raise e, log)
          | Ok history =>
              match generate backend client (system_prompt persona) history
                      temperature log with
              | (Raise e, log') => (Raise e, log')
              | (Ok content, log') =>
                  (Ok {| persona_key := persona_key;
                         persona_name := name persona;
                         emoji := personas.emoji persona;
                         content := strip content;
                         round_num := round_num |}, log')
              end
          end
      end
  end.

(** The state of a run of the generator: the session, the backend calls
    made so far, and the messages yielded so far. *)
Record Run := {
  self : Discussion;
  calls : list Call;
  yielded : list Message
}.

(** The guard at the head of the loop body: [true] when the body takes
    its [continue]. *)
Definition skips (rounds round_num : Z) (persona_key : pystr) : bool :=
  if pystr_eqb persona_key (lit "synthesizer") && (round_num <? rounds)%Z then
    if (round_num =? 1)%Z then true else false
  else false.

(** The inner loop, [for persona_key in order], of round [round_num].
    The second component is the exception that ended the run, if any. *)
Fixpoint run_order (rounds round_num : Z) (order : list pystr) (st : Run)
    : Run * option exn :=
  match order with
  | [] => (st, None)
  | persona_key :: rest =>
      if skips rounds round_num persona_key then
        run_order rounds round_num rest st
      else
        match _generate_response (self st) persona_key round_num (calls st) with
        | (Raise e, log) =>
            ({| self := self st; calls := log; yielded := yielded st |}, Some e)
        | (Ok message, log) =>
            run_order rounds round_num rest
              {| self := append_message (self st) message;
                 calls := log;
                 yielded := yielded st ++ [message] |}
        end
  end.

(** The outer loop, [for round_num in range(1, rounds + 1)]. *)
Fixpoint run_rounds (rounds : Z) (round_nums : list Z) (order : list pystr)
    (st : Run) : Run * option exn :=
  match round_nums with
  | [] => (st, None)
  | round_num :: later =>
      match run_order rounds round_num order st with
      | (st', Some e) => (st', Some e)
      | (st', None) => run_rounds rounds later order st'
      end
  end.

(** [rounds or config.MAX_ROUNDS], for [rounds] an [int] or [None]. *)
Definition rounds_or_default (rounds : option Z) : Z :=
  match rounds with
  | Some r => if (r =? 0)%Z then config.MAX_ROUNDS cfg else r
  | None => config.MAX_ROUNDS cfg
  end.

(** [self.run_discussion(rounds)], iterated until the generator is
    exhausted or raises. *)
Definition run_discussion (rounds : option Z) (self : Discussion)
    (log : list Call) : Run * option exn :=
  let rounds := rounds_or_default rounds in
  let order := active_order cfg in
  run_rounds rounds (range_from_1 rounds) order
    {| self := self; calls := log; yielded := [] |}.

(** The generator driven by its caller: [body] is what the caller's [for]
    loop does with each message as it is yielded, before the generator is
    resumed. An exception of [body] ends the loop; the message it was given
    is already in the transcript. *)
Section Caller.

Variable A : Type.
Variable body : Message -> A -> A * option exn.

Fixpoint drive_order (rounds round_num : Z) (order : list pystr) (st : Run)
    (acc : A) : Run * A * option exn :=
  match order with
  | [] => (st, acc, None)
  | persona_key :: rest =>
      if skips rounds round_num persona_key then
        drive_order rounds round_num rest st acc
      else
        match _generate_response (self st) persona_key round_num (calls st) with
        | (Raise e, log) =>
            ({| self := self st; calls := log; yielded := yielded st |}, acc,
             Some e)
        | (Ok message, log) =>
            let st' := {| self := append_message (self st) message;
                          calls := log;
                          yielded := yielded st ++ [message] |} in
            match body message acc with
            | (acc', Some e) => (st', acc', Some e)
            | (acc', None) => drive_order rounds round_num rest st' acc'
            end
        end
  end.

Fixpoint drive_rounds (rounds : Z) (round_nums : list Z) (order : list pystr)
    (st : Run) (acc : A) : Run * A * option exn :=
  match round_nums with
  | [] => (st, acc, None)
  | round_num :: later =>
      match drive_order rounds round_num order st acc with
      | (st', acc', Some e) => (st', acc', Some e)
      | (st', acc', None) => drive_rounds rounds later order st' acc'
      end
  end.

(** [for message in self.run_discussion(rounds): body]. *)
Definition drive_discussion (rounds : option Z) (self : Discussion)
    (log : list Call) (acc : A) : Run * A * option exn :=
  let rounds := rounds_or_default rounds in
  let order := active_order cfg in
  drive_rounds rounds (range_from_1 rounds) order
    {| self := self; calls := log; yielded := [] |} acc.

End Caller.

End Engine.

Definition block (msg : Message) : pystr :=
  lit "[" ++ emoji msg ++ lit " " ++ persona_name msg ++ lit "]" ++ [nl]
  ++ content msg ++ [nl].

Definition get_transcript (self : Discussion) : pystr :=
  let lines := [lit "[User]" ++ [nl] ++ user_input self ++ [nl]] in
  let lines := lines ++ map block (messages self) in
  join [nl] lines.

Definition summary_prompt : pystr :=
  lit "You are summarizing a group discussion. Based on the transcript, provide:

1. **Key Points by Participant** - What each person contributed
2. **Main Disagreements** - Where opinions differed
3. **Areas of Agreement** - Where opinions overlapped

Keep it concise and well-organized. Use bullet points.".

Definition takeaway_prompt : pystr :=
  lit "You are providing a final balanced takeaway from a group discussion. 

Write a calm, neutral conclusion that:
- Combines insights from all perspectives
- Does NOT claim there is one " ++ dq ++ lit "correct answer" ++ dq ++ lit "
- Clearly states uncertainties and trade-offs
- Is helpful and actionable where possible

Keep it to 2-3 short paragraphs.".

Definition summary_request (transcript : pystr) : list Entry :=
  [ {| role := lit "user";
       llm_clients.content :=
         lit "Discussion transcript:" ++ [nl; nl] ++ transcript ++ [nl; nl]
         ++ lit "Please summarize this discussion." |} ].

Definition takeaway_request (transcript : pystr) : list Entry :=
  [ {| role := lit "user";
       llm_clients.content :=
         lit "Discussion transcript:" ++ [nl; nl] ++ transcript ++ [nl; nl]
         ++ lit "Provide a final balanced takeaway." |} ].

(** [list(discussion.clients.values())[0]]. *)
Definition first_client (discussion : Discussion) : result Client :=
  match dict_values (clients discussion) with
  | client :: _ => Ok client
  | [] => Raise (IndexError (lit "list index out of range"))
  end.

Definition generate_summary (backend : Backend) (discussion : Discussion)
    (log : list Call) : result pystr * list Call :=
  let transcript := get_transcript discussion in
  match first_client discussion with
  | Raise e => (Raise e, log)
  | Ok client =>
      generate backend client summary_prompt (summary_request transcript)
        (3 # 10) log
  end.

Definition generate_takeaway (backend : Backend) (discussion : Discussion)
    (log : list Call) : result pystr * list Call :=
  let transcript := get_transcript discussion in
  match first_client discussion with
  | Raise e => (Raise e, log)
  | Ok client =>
      generate backend client takeaway_prompt (takeaway_request transcript)
        (3 # 10) log
  end.

End discussion.

(* ================================================================= *)
(** ** main.py: the style map *)

Module display.

(** [print_message]: the colour [style_map.get(name, "white")]. *)
Definition color (name : pystr) : pystr :=
  let style_map :=
    [ (lit "Logical Thinker", lit "blue");
      (lit "Creative Thinker", lit "magenta");
      (lit "Skeptical Thinker", lit "yellow");
      (lit "Practical Thinker", lit "green");
      (lit "Neutral Synthesizer", lit "cyan") ] in
  dict_get_default style_map name (lit "white").

End display.

(* ================================================================= *)
(** ** main.py: argument handling, input stage, display and the run *)

Module main.

Import llm_clients.

(** The namespace [parse_args()] returns. *)
Record Args := {
  topic : option pystr;
  file : option pystr;
  rounds : Z;
  no_synth : bool
}.

(** What the process reads: files by path, and the lines typed on
    standard input (the list ends at end of file). *)
Record Env := {
  open_read : pystr -> result pystr;
  stdin : list pystr
}.

(** What [console.print] is given, where it is not a fixed literal:
    [Panel(user_input, ...)], the two lines of [print_message],
    [Markdown(text)], and the error line of the handler of [main]. *)
Inductive Renderable :=
| TopicPanel (user_input : pystr)
| MessageTitle (color emoji name : pystr)
| MessageText (content : pystr)
| MarkdownText (text : pystr)
| ErrorText (e : exn).

(** The terminal: printing succeeds ([None]) or raises. *)
Definition Console := Renderable -> option exn.

(** What the terminal has shown of the discussion: the round rules, the
    messages printed in full, the summary and the takeaway. *)
Record Shown := {
  shown_rounds : list Z;
  shown_messages : list discussion.Message;
  shown_summary : option pystr;
  shown_takeaway : option pystr
}.

(** How [main] ends: by returning, by [sys.exit(code)] after printing
    [error], or with an exception that reaches the top level. For
    [run_discussion], [Uncaught e] is the exception it raises. *)
Inductive Ending :=
| Returned
| SysExit (code : Z) (error : pystr)
| Uncaught (e : exn).

Record Outcome := {
  ending : Ending;
  session : option discussion.Discussion;
  shown : Shown;
  backend_calls : list Call
}.

Definition nothing_shown : Shown :=
  {| shown_rounds := []; shown_messages := []; shown_summary := None;
     shown_takeaway := None |}.

(** The [while True] loop of [get_user_input], over the remaining input. *)
Fixpoint read_lines (input lines : list pystr) (empty_count : nat) : list pystr :=
  match input with
  | [] => lines
  | line :: input' =>
      if truthy line then read_lines input' (lines ++ [line]) 0
      else
        let empty_count := S empty_count in
        if (2 <=? empty_count)%nat then lines
        else read_lines input' (lines ++ [line]) empty_count
  end.

Definition get_user_input (env : Env) : pystr :=
  strip (join [nl] (read_lines (stdin env) [] 0)).

Definition option_truthy (s : option pystr) : bool :=
  match s with
  | Some s => truthy s
  | None => false
  end.

(** The state of the display loop: [current_round], and what the loop has
    printed so far. *)
Record Screen := {
  current_round : Z;
  rounds_printed : list Z;
  messages_printed : list discussion.Message
}.

Definition blank_screen : Screen :=
  {| current_round := 0; rounds_printed := []; messages_printed := [] |}.

Section Run.

Variable backend : Backend.
Variable console : Console.

(** [print_message(emoji, name, content, round_num)]. *)
Definition print_message (emoji name content : pystr) (round_num : Z)
    : option exn :=
  let color := display.color name in
  match console (MessageTitle color emoji name) with
  | Some e => Some e
  | None => console (MessageText content)
  end.

(** The body of [for message in discussion.run_discussion()]. *)
Definition show (message : discussion.Message) (scr : Screen)
    : Screen * option exn :=
  let scr :=
    if negb (discussion.round_num message =? current_round scr)%Z then
      {| current_round := discussion.round_num message;
         rounds_printed := rounds_printed scr ++ [discussion.round_num message];
         messages_printed := messages_printed scr |}
    else scr in
  match print_message (discussion.emoji message) (discussion.persona_name message)
          (discussion.content message) (discussion.round_num message) with
  | Some e => (scr, Some e)
  | None =>
      ({| current_round := current_round scr;
          rounds_printed := rounds_printed scr;
          messages_printed := messages_printed scr ++ [message] |}, None)
  end.

Definition on_screen (scr : Screen) (summary takeaway : option pystr) : Shown :=
  {| shown_rounds := rounds_printed scr;
     shown_messages := messages_printed scr;
     shown_summary := summary;
     shown_takeaway := takeaway |}.

(** [run_discussion(user_input)] of [main.py]. *)
Definition run_discussion (cfg : config.Config) (user_input : pystr)
    : Outcome :=
  match console (TopicPanel user_input) with
  | Some e =>
      {| ending := Uncaught e; session := None; shown := nothing_shown;
         backend_calls := [] |}
  | None =>
  match discussion.new cfg user_input with
  | Raise e =>
      {| ending := Uncaught e; session := None; shown := nothing_shown;
         backend_calls := [] |}
  | Ok d =>
      match discussion.drive_discussion cfg backend Screen show None d [] blank_screen with
      | (st, scr, Some e) =>
          {| ending := Uncaught e; session := Some (discussion.self st);
             shown := on_screen scr None None;
             backend_calls := discussion.calls st |}
      | (st, scr, None) =>
          let d := discussion.self st in
          match discussion.generate_summary backend d (discussion.calls st) with
          | (Raise e, log) =>
              {| ending := Uncaught e; session := Some d;
                 shown := on_screen scr None None; backend_calls := log |}
          | (Ok summary, log) =>
          match console (MarkdownText summary) with
          | Some e =>
              {| ending := Uncaught e; session := Some d;
                 shown := on_screen scr None None; backend_calls := log |}
          | None =>
              match discussion.generate_takeaway backend d log with
              | (Raise e, log') =>
                  {| ending := Uncaught e; session := Some d;
                     shown := on_screen scr (Some summary) None;
                     backend_calls := log' |}
              | (Ok takeaway, log') =>
              match console (MarkdownText takeaway) with
              | Some e =>
                  {| ending := Uncaught e; session := Some d;
                     shown := on_screen scr (Some summary) None;
                     backend_calls := log' |}
              | None =>
                  {| ending := Returned; session := Some d;
                     shown := on_screen scr (Some summary) (Some takeaway);
                     backend_calls := log' |}
              end
              end
          end
          end
      end
  end
  end.

Definition stop (e : Ending) : Outcome :=
  {| ending := e; session := None; shown := nothing_shown; backend_calls := [] |}.

Definition no_api_key_error (provider : pystr) : pystr :=
  lit "Error: No API key configured for " ++ provider.

Definition no_topic_error : pystr := lit "Error: No topic provided".

(** The API key check: [true] when [main] exits for a missing key. *)
Definition missing_api_key (cfg : config.Config) : bool :=
  let provider := config.LLM_PROVIDER cfg in
  if pystr_eqb provider (lit "ollama") then false
  else if pystr_eqb provider (lit "groq") || pystr_eqb provider (lit "google")
          || pystr_eqb provider (lit "huggingface") then
    let api_key :=
      dict_get_default
        [ (lit "groq", config.GROQ_API_KEY cfg);
          (lit "google", config.GOOGLE_API_KEY cfg);
          (lit "huggingface", config.HUGGINGFACE_API_KEY cfg) ] provider [] in
    negb (truthy api_key)
  else false.

(** The [# Get user input] stage. *)
Definition read_topic (env : Env) (args : Args) : result pystr :=
  if option_truthy (file args) then
    match file args with
    | Some path => do text <- open_read env path; Ok (strip text)
    | None => Ok []
    end
  else if option_truthy (topic args) then
    match topic args with
    | Some t => Ok t
    | None => Ok []
    end
  else Ok (get_user_input env).

(** The [try] block of [main]: the handler prints the error and raises it
    again; an exception of that print takes its place. *)
Definition guarded (out : Outcome) : Outcome :=
  match ending out with
  | Uncaught e =>
      match console (ErrorText e) with
      | Some e' =>
          {| ending := Uncaught e'; session := session out; shown := shown out;
             backend_calls := backend_calls out |}
      | None => out
      end
  | _ => out
  end.

Definition main (cfg : config.Config) (env : Env) (args : Args) : Outcome :=
  let cfg := if (rounds args =? 0)%Z then cfg
             else config.set_MAX_ROUNDS cfg (rounds args) in
  let cfg := if no_synth args then config.set_ENABLE_SYNTHESIZER cfg false
             else cfg in
  if missing_api_key cfg then
    stop (SysExit 1 (no_api_key_error (config.LLM_PROVIDER cfg)))
  else
    match read_topic env args with
    | Raise e => stop (Uncaught e)
    | Ok user_input =>
        if negb (truthy user_input) then stop (SysExit 1 no_topic_error)
        else guarded (run_discussion cfg user_input)
    end.

End Run.
End main.

(* ================================================================= *)
(** * Vocabulary of the properties *)

Import personas llm_clients discussion.

(** The turn a message was produced in. *)
Definition turn_of (m : Message) : Z * pystr := (round_num m, persona_key m).

(** The speakers of round [round_num], in order. *)
Definition speakers (rounds round_num : Z) (order : list pystr) : list pystr :=
  filter (fun persona_key => negb (skips rounds round_num persona_key)) order.

(** The turns of the rounds [round_nums], in order. *)
Definition schedule (rounds : Z) (round_nums : list Z) (order : list pystr)
    : list (Z * pystr) :=
  flat_map (fun round_num => map (pair round_num) (speakers rounds round_num order))
    round_nums.

(** The turns [run_discussion] takes for a given argument. *)
Definition turns (cfg : config.Config) (rounds : option Z) : list (Z * pystr) :=
  let rounds := rounds_or_default cfg rounds in
  schedule rounds (range_from_1 rounds) (active_order cfg).

(** The loop body after the guard, over a list of turns. *)
Fixpoint run_turns (cfg : config.Config) (backend : Backend)
    (ts : list (Z * pystr)) (st : Run) : Run * option exn :=
  match ts with
  | [] => (st, None)
  | (round_num, persona_key) :: ts' =>
      match _generate_response cfg backend (self st) persona_key round_num (calls st) with
      | (Raise e, log) =>
          ({| self := self st; calls := log; yielded := yielded st |}, Some e)
      | (Ok message, log) =>
          run_turns cfg backend ts'
            {| self := append_message (self st) message;
               calls := log;
               yielded := yielded st ++ [message] |}
      end
  end.

(** The state a run starts from. *)
Definition start (d : Discussion) (log : list Call) : Run :=
  {| self := d; calls := log; yielded := [] |}.

(** A backend that answers every call. *)
Definition always_answers (backend : Backend) : Prop :=
  forall log call, exists text, backend log call = Ok text.

(** Every persona of [order] is registered and has a client in [d]. *)
Definition all_bound (d : Discussion) (order : list pystr) : Prop :=
  forall k, In k order ->
    dict_get PERSONAS k <> None /\ dict_get (clients d) k <> None.

(** The request [_generate_response] sends for [persona_key]. *)
Definition request (cfg : config.Config) (d : Discussion) (persona_key : pystr)
    (persona : Persona) (client : Client) : Call :=
  {| call_client := client;
     call_system_prompt := system_prompt persona;
     call_messages :=
       topic_entry d :: map (message_entry persona_key) (messages d)
       ++ [prompt_entry persona];
     call_temperature :=
       dict_get_default (config.PERSONA_TEMPERATURES cfg) persona_key (5 # 10) |}.

(** The formula of the message count, for [rounds] effective rounds. *)
Definition expected_messages (cfg : config.Config) (rounds : Z) : Z :=
  let k := Z.of_nat (length RESPONSE_ORDER_WITH_SYNTH) in
  if config.ENABLE_SYNTHESIZER cfg then
    (rounds * k - (if skips rounds 1 (lit "synthesizer") then 1 else 0))%Z
  else (rounds * (k - 1))%Z.

(** ** Example sessions and backends *)

Definition example_topic : pystr :=
  lit "Should companies adopt a 4-day work week?".

(** The configuration as shipped, with no API key in the environment. *)
Definition example_config : config.Config := config.module [] [] [].

(** The session [Discussion(example_topic)] under [example_config]. *)
Definition example_session : Discussion :=
  {| user_input := example_topic;
     messages := [];
     clients :=
       [ (lit "logical",
          OllamaClient (lit "llama3.2") (lit "http://localhost:11434") 180);
         (lit "skeptical",
          OllamaClient (lit "mistral") (lit "http://localhost:11434") 180);
         (lit "synthesizer",
          OllamaClient (lit "phi3") (lit "http://localhost:11434") 180);
         (lit "creative", GroqClient [] (lit "llama-3.3-70b-versatile"));
         (lit "practical", GroqClient [] (lit "qwen/qwen3-32b")) ] |}.

(** A backend that always answers the same padded text. *)
Definition steady_backend : Backend := fun _ _ => Ok (lit " ok ").

(** A backend whose answer grows with the context it is given. *)
Definition context_size_backend : Backend :=
  fun _ call => Ok (repeat 120%N (length (call_messages call))).

(** A backend that answers [n] calls and then loses its connection. *)
Definition failing_backend (n : nat) : Backend :=
  fun log _ =>
    if (length log <? n)%nat then Ok (lit "ok")
    else Raise (ConnectionError (lit "Cannot connect to Ollama")).

(** ** Backend kinds *)

(** The kinds [create_client] knows. *)
Definition supported (provider : pystr) : bool :=
  pystr_eqb provider (lit "ollama") || pystr_eqb provider (lit "groq")
  || pystr_eqb provider (lit "google") || pystr_eqb provider (lit "huggingface").

(** The backend kind an entry of [MIXED_ASSIGNMENTS] declares. *)
Definition declared_kind (a : config.assignment) : result pystr :=
  match a with
  | config.AssignDict d => dict_item d (lit "provider")
  | config.AssignStr provider => Ok provider
  end.

(** Some persona declares the backend kind [kind]: through its entry of
    [MIXED_ASSIGNMENTS] in mixed mode, through [LLM_PROVIDER] otherwise. *)
Definition declares (cfg : config.Config) (kind : pystr) : Prop :=
  if pystr_eqb (config.LLM_PROVIDER cfg) (lit "mixed") then
    exists persona_key a,
      In (persona_key, a) (config.MIXED_ASSIGNMENTS cfg) /\
      declared_kind a = Ok kind
  else kind = config.LLM_PROVIDER cfg.

(** Every entry of [MIXED_ASSIGNMENTS] declares a kind. *)
Definition assignments_declare_kinds (cfg : config.Config) : Prop :=
  forall persona_key a,
    In (persona_key, a) (config.MIXED_ASSIGNMENTS cfg) ->
    exists kind, declared_kind a = Ok kind.

(** The text [msg] contains [part]. *)
Definition mentions (msg part : pystr) : Prop :=
  exists before after, msg = before ++ part ++ after.

(** [example_config] with the practical persona moved to an unknown kind. *)
Definition misconfigured : config.Config :=
  {| config.GROQ_API_KEY := [];
     config.GOOGLE_API_KEY := [];
     config.HUGGINGFACE_API_KEY := [];
     config.LLM_PROVIDER := lit "mixed";
     config.MIXED_ASSIGNMENTS :=
       [ (lit "logical", config.new_format "ollama" "llama3.2");
         (lit "skeptical", config.new_format "ollama" "mistral");
         (lit "synthesizer", config.new_format "ollama" "phi3");
         (lit "creative", config.new_format "groq" "llama-3.3-70b-versatile");
         (lit "practical", config.new_format "unknown-provider" "qwen/qwen3-32b") ];
     config.MODELS := config.MODELS example_config;
     config.OLLAMA_BASE_URL := config.OLLAMA_BASE_URL example_config;
     config.OLLAMA_TIMEOUT := 180;
     config.MAX_ROUNDS := 3;
     config.ENABLE_SYNTHESIZER := true;
     config.PERSONA_TEMPERATURES := config.PERSONA_TEMPERATURES example_config |}.

(** ** Topics *)

(** A string of whitespace only (possibly empty). *)
Definition blank (s : pystr) : bool := forallb is_space s.

(** [main] stopped for want of a topic, with no session and no backend call. *)
Definition rejected_for_no_topic (out : main.Outcome) : Prop :=
  main.ending out = main.SysExit 1 main.no_topic_error /\
  main.session out = None /\
  main.shown out = main.nothing_shown /\
  main.backend_calls out = [].

(** ** Reading a transcript back *)

(** [text.split("\n")]. *)
Fixpoint split_lines (text : pystr) : list pystr :=
  match text with
  | [] => [[]]
  | c :: text' =>
      match split_lines text' with
      | line :: lines =>
          if (c =? nl)%N then [] :: line :: lines else (c :: line) :: lines
      | [] => [[c]]
      end
  end.

(** The part of [s] before its first space, and the part after it. *)
Fixpoint split_at_space (s : pystr) : option (pystr * pystr) :=
  match s with
  | [] => None
  | c :: s' =>
      if (c =? 32)%N then Some ([], s')
      else match split_at_space s' with
           | Some (before, after) => Some (c :: before, after)
           | None => None
           end
  end.

(** A header line [[marker name]], read as marker and name. *)
Definition parse_header (line : pystr) : option (pystr * pystr) :=
  match line with
  | c :: body =>
      if (c =? 91)%N then
        match rev body with
        | c' :: inner => if (c' =? 93)%N then split_at_space (rev inner) else None
        | [] => None
        end
      else None
  | [] => None
  end.

Definition is_header (line : pystr) : bool :=
  match parse_header line with
  | Some _ => true
  | None => false
  end.

(** The lines of a transcript, cut into blocks: a block starts at an empty
    line directly followed by a header line. [head] is the header of the
    running block and [body] the lines read of it so far. *)
Fixpoint read_blocks (head : pystr) (body lines : list pystr)
    : list (pystr * pystr) :=
  match lines with
  | [] => [(head, join [nl] body)]
  | a :: rest =>
      match rest with
      | b :: rest' =>
          if negb (truthy a) && is_header b then
            (head, join [nl] body) :: read_blocks b [] rest'
          else read_blocks head (body ++ [a]) rest
      | [] => [(head, join [nl] (body ++ [a]))]
      end
  end.

(** The blocks with their headers read as marker and name. *)
Fixpoint parse_headers (blocks : list (pystr * pystr))
    : option (list (pystr * pystr * pystr)) :=
  match blocks with
  | [] => Some []
  | (head, body) :: later =>
      match parse_header head, parse_headers later with
      | Some (marker, name), Some parsed => Some ((marker, name, body) :: parsed)
      | _, _ => None
      end
  end.

(** The reader the round-trip property speaks of; the program has none.
    It reads the text of [get_transcript] into (marker, name, content)
    triples: the text starts with the [[User]] line and ends with a line
    break; the topic runs to the first block, and each block is a header
    line followed by the lines of the content. *)
Definition parse_transcript (text : pystr) : option (list (pystr * pystr * pystr)) :=
  match split_lines text with
  | first :: rest =>
      if pystr_eqb first (lit "[User]") then
        match rev rest with
        | last :: lines =>
            if truthy last then None
            else
              match read_blocks first [] (rev lines) with
              | _ :: blocks => parse_headers blocks
              | [] => None
              end
        | [] => None
        end
      else None
  | [] => None
  end.

Definition one_line (s : pystr) : bool := forallb (fun c => negb (c =? nl)%N) s.

Definition no_space (s : pystr) : bool := forallb (fun c => negb (c =? 32)%N) s.

(** Lines among which no empty line is directly followed by a header
    line. *)
Fixpoint quiet (lines : list pystr) : bool :=
  match lines with
  | a :: ((b :: _) as rest) =>
      negb (negb (truthy a) && is_header b) && quiet rest
  | _ => true
  end.

(** A text none of whose empty lines is directly followed by a line of the
    form [[marker name]]. *)
Definition quiet_text (s : pystr) : bool := quiet (split_lines s).

(** A message the reader can tell from its neighbours: marker and name on
    one line, the marker free of spaces, and a content that holds no empty
    line directly followed by a header line. *)
Definition readable_message (m : Message) : bool :=
  one_line (emoji m) && no_space (emoji m) && one_line (persona_name m)
  && quiet_text (content m).

(** The header line of the block of a message. *)
Definition header (m : Message) : pystr :=
  lit "[" ++ emoji m ++ lit " " ++ persona_name m ++ lit "]".

(** What the round trip is to recover of a message. *)
Definition shown_parts (m : Message) : pystr * pystr * pystr :=
  (emoji m, persona_name m, content m).

(** A backend that answers once, with a text that looks like two turns,
    and then fails. *)
Definition two_in_one_backend : Backend :=
  fun log _ =>
    match log with
    | [] => Ok (lit "a" ++ [nl; nl] ++ lit "[" ++ [127912%N]
                ++ lit " Creative Thinker]" ++ [nl] ++ lit "b")
    | _ => Raise (ConnectionError (lit "Cannot connect to Ollama"))
    end.

(** A backend that answers twice and then fails. *)
Definition two_turns_backend : Backend :=
  fun log _ =>
    match log with
    | [] => Ok (lit "a")
    | [_] => Ok (lit "b")
    | _ => Raise (ConnectionError (lit "Cannot connect to Ollama"))
    end.

(** A configuration whose first entry declares no provider, followed by an
    entry of an unknown kind. *)
Definition half_declared : config.Config :=
  {| config.GROQ_API_KEY := [];
     config.GOOGLE_API_KEY := [];
     config.HUGGINGFACE_API_KEY := [];
     config.LLM_PROVIDER := lit "mixed";
     config.MIXED_ASSIGNMENTS :=
       [ (lit "logical", config.AssignDict [(lit "model", lit "llama3.2")]);
         (lit "practical", config.new_format "unknown-provider" "qwen/qwen3-32b") ];
     config.MODELS := config.MODELS example_config;
     config.OLLAMA_BASE_URL := config.OLLAMA_BASE_URL example_config;
     config.OLLAMA_TIMEOUT := 180;
     config.MAX_ROUNDS := 3;
     config.ENABLE_SYNTHESIZER := true;
     config.PERSONA_TEMPERATURES := config.PERSONA_TEMPERATURES example_config |}.

(** Construction of the session for [topic] fails on the unsupported
    [kind]: [Discussion(topic)] raises the [ValueError] of [create_client]
    naming [kind], and [run_discussion] of [main.py] ends with no session,
    nothing shown and no backend call; it ends on that error unless the
    terminal fails on the topic panel first. *)
Definition construction_fails_naming (backend : Backend)
    (console : main.Console) (cfg : config.Config) (topic kind : pystr)
    : Prop :=
  new cfg topic = Raise (ValueError (unknown_provider_message kind)) /\
  mentions (unknown_provider_message kind) kind /\
  let out := main.run_discussion backend console cfg topic in
  main.session out = None /\
  main.shown out = main.nothing_shown /\
  main.backend_calls out = [] /\
  (console (main.TopicPanel topic) = None ->
   main.ending out
   = main.Uncaught (ValueError (unknown_provider_message kind))).

(** The session after one round with [steady_backend]. *)
Definition after_one_round : Discussion :=
  self (fst (run_discussion example_config steady_backend (Some 1%Z)
               example_session [])).

(** A terminal that prints everything. *)
Definition plain_console : main.Console := fun _ => None.

(** A terminal on which nothing prints. *)
Definition broken_console : main.Console :=
  fun _ => Some (MarkupError (lit "closing tag doesn't match any open tag")).

(** A backend that answers in two paragraphs. *)
Definition paragraphs_backend : Backend :=
  fun _ _ => Ok (lit "First, yes." ++ [nl; nl] ++ lit "[1] Second: it depends.").

(* ================================================================= *)
(** * Further code: client prompts and the display of [main.py] *)

(** ** llm_clients.py: what each client builds from a call *)

Module client_format.

Import llm_clients.

(** [GoogleClient.generate]: the text of [full_prompt]. *)
Definition full_prompt (system_prompt : pystr) (messages : list Entry) : pystr :=
  let full_prompt := system_prompt ++ [nl; nl] ++ lit "Conversation so far:" ++ [nl] in
  let full_prompt :=
    fold_left
      (fun full_prompt msg =>
         let role := if pystr_eqb (role msg) (lit "assistant")
                     then lit "You" else lit "Other" in
         full_prompt ++ (role ++ lit ": " ++ content msg ++ [nl]))
      messages full_prompt in
  full_prompt ++ ([nl] ++ lit "Your response:").

(** [HuggingFaceClient.generate]: the text of [prompt]. *)
Definition prompt (system_prompt : pystr) (messages : list Entry) : pystr :=
  let prompt := lit "<s>[INST] " ++ system_prompt ++ [nl; nl] in
  let prompt :=
    fold_left
      (fun prompt msg =>
         if pystr_eqb (role msg) (lit "user") then
           prompt ++ (content msg ++ [nl])
         else
           prompt ++ (lit "[/INST] " ++ content msg ++ lit " </s><s>[INST] "))
      messages prompt in
  prompt ++ lit "[/INST]".


End client_format.

(** ** More vocabulary *)

(** No whitespace at either end. *)
Definition trimmed (s : pystr) : Prop :=
  (forall c, hd_error s = Some c -> is_space c = false) /\
  (forall c, hd_error (rev s) = Some c -> is_space c = false).

(** No two empty lines in a row. *)
Fixpoint no_double_blank (lines : list pystr) : bool :=
  match lines with
  | a :: ((b :: _) as rest) =>
      (truthy a || truthy b) && no_double_blank rest
  | _ => true
  end.

(** The personas with an entry in [MIXED_ASSIGNMENTS]. *)
Definition assigned (cfg : config.Config) : list pystr :=
  map fst (config.MIXED_ASSIGNMENTS cfg).

(** Every declared kind of [MIXED_ASSIGNMENTS] is a supported one. *)
Definition kinds_supported (cfg : config.Config) : Prop :=
  forall persona_key a,
    In (persona_key, a) (config.MIXED_ASSIGNMENTS cfg) ->
    exists kind, declared_kind a = Ok kind /\ supported kind = true.

(** The arguments of [main] with another [--rounds]. *)
Definition with_rounds (args : main.Args) (n : Z) : main.Args :=
  {| main.topic := main.topic args; main.file := main.file args;
     main.rounds := n; main.no_synth := main.no_synth args |}.

(** The configuration after [main] has applied [--rounds] and [--no-synth]. *)
Definition overrides (cfg : config.Config) (args : main.Args) : config.Config :=
  let cfg := if (main.rounds args =? 0)%Z then cfg
             else config.set_MAX_ROUNDS cfg (main.rounds args) in
  if main.no_synth args then config.set_ENABLE_SYNTHESIZER cfg false else cfg.

(** The call a post-processor makes: [instruction] over the transcript,
    closed by [request]. *)
Definition post_call (client : Client) (instruction request : pystr)
    (d : Discussion) : Call :=
  {| call_client := client;
     call_system_prompt := instruction;
     call_messages :=
       [ {| role := lit "user";
            llm_clients.content :=
              lit "Discussion transcript:" ++ [nl; nl] ++ get_transcript d
              ++ [nl; nl] ++ request |} ];
     call_temperature := 3 # 10 |}.

(** ** The generator and its caller *)

(** What the caller's loop body makes of a list of messages, given one
    after the other: it stops at the first exception. *)
Fixpoint feed {A} (body : Message -> A -> A * option exn) (ys : list Message)
    (acc : A) : A * option exn :=
  match ys with
  | [] => (acc, None)
  | m :: later =>
      match body m acc with
      | (acc', Some e) => (acc', Some e)
      | (acc', None) => feed body later acc'
      end
  end.

(** The driven loop body, over a list of turns. *)
Fixpoint drive_turns {A} (cfg : config.Config) (backend : Backend)
    (body : Message -> A -> A * option exn) (ts : list (Z * pystr))
    (st : Run) (acc : A) : Run * A * option exn :=
  match ts with
  | [] => (st, acc, None)
  | (round_num, persona_key) :: ts' =>
      match _generate_response cfg backend (self st) persona_key round_num (calls st) with
      | (Raise e, log) =>
          ({| self := self st; calls := log; yielded := yielded st |}, acc, Some e)
      | (Ok message, log) =>
          let st' := {| self := append_message (self st) message;
                        calls := log;
                        yielded := yielded st ++ [message] |} in
          match body message acc with
          | (acc', Some e) => (st', acc', Some e)
          | (acc', None) => drive_turns cfg backend body ts' st' acc'
          end
      end
  end.

(** The values a sequence of round numbers takes as it changes, starting
    from [current]. *)
Fixpoint round_changes (current : Z) (round_nums : list Z) : list Z :=
  match round_nums with
  | [] => []
  | r :: later =>
      if negb (r =? current)%Z then r :: round_changes r later
      else round_changes current later
  end.

(** A terminal that prints everything. *)
Definition prints_all (console : main.Console) : Prop :=
  forall r, console r = None.

(* ================================================================= *)
(** * Properties of the engine *)

(** ** Strings and dictionaries *)

Lemma pystr_eqb_eq (a b : pystr) : pystr_eqb a b = true <-> a = b.
Proof.
  revert b; induction a as [|x a IH]; intros [|y b]; simpl; split;
    try congruence; try reflexivity.
  - intros H. apply andb_true_iff in H as [Hx Hab].
    apply N.eqb_eq in Hx. apply IH in Hab. congruence.
  - intros H. injection H as -> ->.
    apply andb_true_iff. split; [apply N.eqb_refl | now apply IH].
Qed.

Lemma pystr_eqb_refl (a : pystr) : pystr_eqb a a = true.
Proof. now apply pystr_eqb_eq. Qed.

Lemma pystr_eqb_neq (a b : pystr) : pystr_eqb a b = false <-> a <> b.
Proof.
  split.
  - intros H E. apply pystr_eqb_eq in E. congruence.
  - intros H. destruct (pystr_eqb a b) eqn:E; [|reflexivity].
    apply pystr_eqb_eq in E. contradiction.
Qed.

Lemma dict_item_get {V} (d : dict V) (k : pystr) (v : V) :
  dict_item d k = Ok v <-> dict_get d k = Some v.
Proof.
  unfold dict_item. destruct (dict_get d k); split; congruence.
Qed.

(** ** The loops as one schedule of turns *)

Section Turns.

Variable cfg : config.Config.
Variable backend : Backend.

Lemma run_turns_app (a b : list (Z * pystr)) (st : Run) :
  run_turns cfg backend (a ++ b) st =
  match run_turns cfg backend a st with
  | (st', None) => run_turns cfg backend b st'
  | (st', Some e) => (st', Some e)
  end.
Proof.
  revert st; induction a as [|[r k] a IH]; intros st; simpl; [reflexivity|].
  destruct (_generate_response cfg backend (self st) k r (calls st)) as [[m|e] log];
    [apply IH | reflexivity].
Qed.

Lemma run_order_turns (rounds round_num : Z) (order : list pystr) (st : Run) :
  run_order cfg backend rounds round_num order st =
  run_turns cfg backend (map (pair round_num) (speakers rounds round_num order)) st.
Proof.
  revert st; induction order as [|k order IH]; intros st; simpl; [reflexivity|].
  unfold speakers in *; simpl.
  destruct (skips rounds round_num k); simpl; [apply IH|].
  destruct (_generate_response cfg backend (self st) k round_num (calls st))
    as [[m|e] log]; [apply IH | reflexivity].
Qed.

Lemma run_rounds_turns (rounds : Z) (round_nums : list Z) (order : list pystr)
    (st : Run) :
  run_rounds cfg backend rounds round_nums order st =
  run_turns cfg backend (schedule rounds round_nums order) st.
Proof.
  revert st; induction round_nums as [|r rs IH]; intros st; simpl; [reflexivity|].
  unfold schedule; simpl. rewrite run_turns_app, run_order_turns.
  destruct (run_turns _ _ _ st) as [st' [e|]]; [reflexivity | apply IH].
Qed.

Lemma run_discussion_turns (rounds : option Z) (d : Discussion) (log : list Call) :
  run_discussion cfg backend rounds d log =
  run_turns cfg backend (turns cfg rounds) (start d log).
Proof. unfold run_discussion, turns. apply run_rounds_turns. Qed.

(** *** One turn *)

Lemma build_chat_history_registered (d : Discussion) (k : pystr) (persona : Persona) :
  dict_get PERSONAS k = Some persona ->
  _build_chat_history d k =
  Ok (topic_entry d :: map (message_entry k) (messages d) ++ [prompt_entry persona]).
Proof.
  intros H. unfold _build_chat_history, dict_item. rewrite H. reflexivity.
Qed.

(** A turn succeeds exactly when the persona is registered and bound and
    the backend answers; the message is then fully determined. *)
Lemma generate_response_ok (d : Discussion) (k : pystr) (r : Z)
    (log log' : list Call) (m : Message) :
  _generate_response cfg backend d k r log = (Ok m, log') <->
  exists persona client text,
    dict_get PERSONAS k = Some persona /\
    dict_get (clients d) k = Some client /\
    backend log (request cfg d k persona client) = Ok text /\
    log' = log ++ [request cfg d k persona client] /\
    m = {| persona_key := k; persona_name := name persona;
           emoji := personas.emoji persona; content := strip text;
           round_num := r |}.
Proof.
  unfold _generate_response, dict_item.
  destruct (dict_get PERSONAS k) as [persona|] eqn:HP.
  2:{ split; [discriminate | intros (p & c & t & H & _); discriminate]. }
  destruct (dict_get (clients d) k) as [client|] eqn:HC.
  2:{ split; [discriminate | intros (p & c & t & _ & H & _); discriminate]. }
  rewrite (build_chat_history_registered d k persona HP). unfold generate.
  fold (request cfg d k persona client).
  destruct (backend log (request cfg d k persona client)) as [text|e] eqn:HB.
  - split.
    + intros H. injection H as <- <-. exists persona, client, text. auto.
    + intros (p & c & t & Hp & Hc & Hb & -> & ->).
      injection Hp as <-. injection Hc as <-. rewrite HB in Hb.
      injection Hb as <-. reflexivity.
  - split; [discriminate|].
    intros (p & c & t & Hp & Hc & Hb & _).
    injection Hp as <-. injection Hc as <-. congruence.
Qed.

(** *** Whole runs *)

(** What a run leaves untouched and what it adds, whatever its outcome:
    the messages it yields are appended to the transcript, in order, and
    they are the messages of the first turns of the schedule. *)
Lemma run_turns_frame (ts : list (Z * pystr)) (st st' : Run) (o : option exn) :
  run_turns cfg backend ts st = (st', o) ->
  exists ys post,
    yielded st' = yielded st ++ ys /\
    messages (self st') = messages (self st) ++ ys /\
    user_input (self st') = user_input (self st) /\
    clients (self st') = clients (self st) /\
    ts = map turn_of ys ++ post /\
    match o with
    | None => post = []
    | Some e =>
        exists t post' lg,
          post = t :: post' /\
          _generate_response cfg backend (self st') (snd t) (fst t) lg
          = (Raise e, calls st') /\
          (length lg = length (calls st) + length ys)%nat
    end.
Proof.
  revert st; induction ts as [|[r k] ts IH]; intros st; simpl.
  - intros H. injection H as <- <-. exists [], [].
    rewrite !app_nil_r. repeat split.
  - destruct (_generate_response cfg backend (self st) k r (calls st))
      as [[m|e] log] eqn:G.
    + intros H. apply IH in H as (ys & post & Hy & Hm & Hu & Hc & Hts & Ho).
      simpl in *. apply generate_response_ok in G
        as (persona & client & text & _ & _ & _ & Hlog & Hmsg).
      exists (m :: ys), post. rewrite <- !app_assoc in *. simpl.
      repeat split; try assumption.
      * rewrite Hts. unfold turn_of at 2. subst m. reflexivity.
      * destruct o as [e|]; [|assumption].
        destruct Ho as (t & post' & lg & Hp & Hg & Hl).
        exists t, post', lg. repeat split; try assumption.
        rewrite Hl, Hlog, length_app. simpl. lia.
    + intros H. injection H as <- <-. simpl.
      exists [], ((r, k) :: ts). rewrite !app_nil_r. repeat split.
      exists (r, k), ts, (calls st). simpl. rewrite G. auto.
Qed.

(** With every persona bound and a backend that always answers, every
    turn of the schedule is taken. *)
Lemma run_turns_total (ts : list (Z * pystr)) (st : Run) :
  always_answers backend ->
  all_bound (self st) (map snd ts) ->
  exists st', run_turns cfg backend ts st = (st', None).
Proof.
  intros HB. revert st; induction ts as [|[r k] ts IH]; intros st Hbound; simpl.
  - eauto.
  - destruct (Hbound k (or_introl eq_refl)) as [HP HC].
    destruct (dict_get PERSONAS k) as [persona|] eqn:EP; [|congruence].
    destruct (dict_get (clients (self st)) k) as [client|] eqn:EC; [|congruence].
    destruct (HB (calls st) (request cfg (self st) k persona client)) as [text Ht].
    assert (G : _generate_response cfg backend (self st) k r (calls st) =
                (Ok {| persona_key := k; persona_name := name persona;
                       emoji := personas.emoji persona; content := strip text;
                       round_num := r |},
                 calls st ++ [request cfg (self st) k persona client])).
    { apply generate_response_ok. exists persona, client, text. auto. }
    rewrite G. apply IH. intros k' Hk'. simpl.
    apply Hbound. simpl. now right.
Qed.

(** Every context built during a run starts with the topic entry followed
    by one entry per message the transcript held when the run began. *)
Lemma run_turns_contexts (ts : list (Z * pystr)) (st st' : Run) (o : option exn) :
  run_turns cfg backend ts st = (st', o) ->
  exists cs,
    calls st' = calls st ++ cs /\
    Forall (fun c => exists k rest,
              call_messages c =
              topic_entry (self st)
              :: map (message_entry k) (messages (self st)) ++ rest) cs.
Proof.
  revert st; induction ts as [|[r k] ts IH]; intros st; simpl.
  - intros H. injection H as <- <-. exists []. rewrite app_nil_r. auto.
  - unfold _generate_response, dict_item.
    destruct (dict_get PERSONAS k) as [persona|] eqn:HP.
    2:{ intros H. injection H as <- <-. exists []. simpl. rewrite app_nil_r. auto. }
    destruct (dict_get (clients (self st)) k) as [client|] eqn:HC.
    2:{ intros H. injection H as <- <-. exists []. simpl. rewrite app_nil_r. auto. }
    rewrite (build_chat_history_registered (self st) k persona HP). unfold generate.
    fold (request cfg (self st) k persona client).
    assert (Hreq : exists k0 rest,
               call_messages (request cfg (self st) k persona client) =
               topic_entry (self st)
               :: map (message_entry k0) (messages (self st)) ++ rest).
    { exists k, [prompt_entry persona]. reflexivity. }
    destruct (backend (calls st) (request cfg (self st) k persona client)) as [text|e].
    + intros H. apply IH in H as (cs & Hcs & Hall). simpl in *.
      exists (request cfg (self st) k persona client :: cs).
      rewrite Hcs, <- app_assoc. split; [reflexivity|].
      constructor; [assumption|].
      eapply Forall_impl; [|exact Hall].
      intros c (k0 & rest & Hc). rewrite map_app, <- app_assoc in Hc.
      exists k0. eexists. exact Hc.
    + intros H. injection H as <- <-. simpl.
      exists [request cfg (self st) k persona client]. split; [reflexivity|].
      constructor; [assumption | constructor].
Qed.

End Turns.

(** ** The schedule *)

Lemma skips_iff (rounds round_num : Z) (k : pystr) :
  skips rounds round_num k = true <->
  k = lit "synthesizer" /\ round_num = 1%Z /\ (round_num < rounds)%Z.
Proof.
  unfold skips.
  destruct (pystr_eqb k (lit "synthesizer")) eqn:Ek; simpl.
  - apply pystr_eqb_eq in Ek.
    destruct (round_num <? rounds)%Z eqn:El; [|split; [discriminate|lia]].
    apply Z.ltb_lt in El.
    destruct (round_num =? 1)%Z eqn:E1; [apply Z.eqb_eq in E1; tauto|].
    apply Z.eqb_neq in E1. split; [discriminate|tauto].
  - apply pystr_eqb_neq in Ek. split; [discriminate|tauto].
Qed.

Lemma speakers_later (rounds round_num : Z) (order : list pystr) :
  round_num <> 1%Z -> speakers rounds round_num order = order.
Proof.
  intros H. unfold speakers. induction order as [|k order IH]; simpl; [reflexivity|].
  destruct (skips rounds round_num k) eqn:E.
  - apply skips_iff in E. tauto.
  - simpl. now rewrite IH.
Qed.

Lemma speakers_without_synth (rounds round_num : Z) :
  speakers rounds round_num RESPONSE_ORDER = RESPONSE_ORDER.
Proof. reflexivity. Qed.

Lemma speakers_with_synth (rounds round_num : Z) :
  speakers rounds round_num RESPONSE_ORDER_WITH_SYNTH =
  if skips rounds round_num (lit "synthesizer") then RESPONSE_ORDER
  else RESPONSE_ORDER_WITH_SYNTH.
Proof.
  unfold speakers, RESPONSE_ORDER_WITH_SYNTH. cbn [filter].
  change (skips rounds round_num (lit "logical")) with false.
  change (skips rounds round_num (lit "creative")) with false.
  change (skips rounds round_num (lit "skeptical")) with false.
  change (skips rounds round_num (lit "practical")) with false.
  cbn [negb]. destruct (skips rounds round_num (lit "synthesizer")); reflexivity.
Qed.

Lemma length_schedule_later (rounds : Z) (round_nums : list Z) (order : list pystr) :
  Forall (fun r => r <> 1%Z) round_nums ->
  length (schedule rounds round_nums order) = (length round_nums * length order)%nat.
Proof.
  induction 1 as [|r rs Hr _ IH]; simpl; [reflexivity|].
  unfold schedule in *. simpl.
  rewrite length_app, length_map, (speakers_later rounds r order Hr), IH.
  reflexivity.
Qed.

Lemma range_from_1_pos (n : Z) :
  (1 <= n)%Z ->
  range_from_1 n = 1%Z :: map Z.of_nat (seq 2 (Z.to_nat n - 1)).
Proof.
  intros H. unfold range_from_1.
  destruct (Z.to_nat n) as [|m] eqn:E; [lia|].
  simpl. now rewrite Nat.sub_0_r.
Qed.

Lemma later_rounds (m : nat) :
  Forall (fun r => r <> 1%Z) (map Z.of_nat (seq 2 m)).
Proof.
  apply Forall_forall. intros r Hr.
  apply in_map_iff in Hr as (i & <- & Hi). apply in_seq in Hi. lia.
Qed.

(** The number of turns of a run of [rounds >= 1] rounds. *)
Lemma length_schedule (rounds : Z) (order : list pystr) :
  (1 <= rounds)%Z ->
  Z.of_nat (length (schedule rounds (range_from_1 rounds) order)) =
  (Z.of_nat (length (speakers rounds 1 order))
   + (rounds - 1) * Z.of_nat (length order))%Z.
Proof.
  intros H. rewrite (range_from_1_pos rounds H).
  change (schedule rounds (1%Z :: ?l) order)
    with (map (pair 1%Z) (speakers rounds 1 order) ++ schedule rounds l order).
  rewrite length_app, length_map, length_schedule_later by apply later_rounds.
  rewrite length_map, length_seq. nia.
Qed.

Lemma schedule_In (rounds : Z) (round_nums : list Z) (order : list pystr)
    (r : Z) (k : pystr) :
  In (r, k) (schedule rounds round_nums order) ->
  In r round_nums /\ In k order /\ skips rounds r k = false.
Proof.
  unfold schedule. intros H. apply in_flat_map in H as (r' & Hr & H).
  apply in_map_iff in H as (k' & E & H). injection E as -> ->.
  unfold speakers in H. apply filter_In in H as [Hk Hs].
  apply negb_true_iff in Hs. auto.
Qed.

Lemma turns_bound (cfg : config.Config) (rounds : option Z) (d : Discussion) :
  all_bound d (active_order cfg) -> all_bound d (map snd (turns cfg rounds)).
Proof.
  intros H k Hk. apply H.
  apply in_map_iff in Hk as ([r k'] & <- & Hk).
  now apply schedule_In in Hk.
Qed.

Lemma length_turns (cfg : config.Config) (rounds : option Z) :
  (1 <= rounds_or_default cfg rounds)%Z ->
  Z.of_nat (length (turns cfg rounds)) =
  expected_messages cfg (rounds_or_default cfg rounds).
Proof.
  intros H. unfold turns, expected_messages, active_order.
  cbv zeta. rewrite (length_schedule _ _ H).
  destruct (config.ENABLE_SYNTHESIZER cfg).
  - rewrite speakers_with_synth.
    destruct (skips (rounds_or_default cfg rounds) 1 (lit "synthesizer"));
      simpl length; lia.
  - rewrite speakers_without_synth. simpl length. lia.
Qed.

(** A run with every persona bound and a backend that always answers
    completes and yields one message per turn of the schedule. *)
Lemma run_discussion_complete (cfg : config.Config) (backend : Backend)
    (rounds : option Z) (d : Discussion) (log : list Call) :
  always_answers backend ->
  all_bound d (active_order cfg) ->
  snd (run_discussion cfg backend rounds d log) = None /\
  map turn_of (yielded (fst (run_discussion cfg backend rounds d log)))
  = turns cfg rounds.
Proof.
  intros HB Hbound. rewrite run_discussion_turns.
  destruct (run_turns_total cfg backend (turns cfg rounds) (start d log) HB) as [st' E].
  { now apply turns_bound. }
  rewrite E. simpl. split; [reflexivity|].
  apply run_turns_frame in E as (ys & post & Hy & _ & _ & _ & Hts & ->).
  simpl in Hy. rewrite Hy, Hts, app_nil_r. reflexivity.
Qed.

(** ** Example sessions *)

Lemma example_session_new :
  new example_config example_topic = Ok example_session.
Proof. reflexivity. Qed.

Lemma steady_backend_answers : always_answers steady_backend.
Proof. intros log call. eexists. reflexivity. Qed.

Lemma context_size_backend_answers : always_answers context_size_backend.
Proof. intros log call. eexists. reflexivity. Qed.

Ltac bound_by_cases :=
  let k := fresh "k" in
  let H := fresh "H" in
  intros k H; simpl in H;
  repeat (destruct H as [<-|H]; [split; vm_compute; discriminate|]);
  contradiction.

Lemma example_session_bound :
  all_bound example_session RESPONSE_ORDER_WITH_SYNTH.
Proof. bound_by_cases. Qed.

Lemma example_session_bound_active :
  all_bound example_session (active_order example_config).
Proof. exact example_session_bound. Qed.

(* ================================================================= *)
(** * The round loop *)

(** C1, as stated, fails for a single round: with [rounds = 1] the first
    round is also the last one, the guard [round_num < rounds] is false, and
    the synthesizer speaks. Five messages are produced, not four. *)
Lemma synthesizer_speaks_in_single_round :
  let out := run_discussion example_config steady_backend (Some 1%Z)
               example_session [] in
  snd out = None /\
  length (yielded (fst out)) = 5%nat /\
  exists m, In m (yielded (fst out)) /\
            persona_key m = lit "synthesizer" /\ round_num m = 1%Z.
Proof.
  vm_compute. split; [reflexivity|]. split; [reflexivity|].
  eexists. split; [do 4 right; left; reflexivity|].
  split; reflexivity.
Qed.

(** C1 (amended). For every round count [R >= 2], no message of the run has
    the synthesizer as speaker and round number 1, whatever the backend does.
    For [R = 1] with the synthesizer enabled, a run whose turns all succeed
    produces exactly the five messages of the order logical, creative,
    skeptical, practical, synthesizer, all tagged round 1. *)
Theorem synthesizer_round_one (cfg : config.Config) (backend : Backend)
    (R : Z) (d : Discussion) (log : list Call) :
  ((2 <= R)%Z ->
   forall m, In m (yielded (fst (run_discussion cfg backend (Some R) d log))) ->
             ~ (persona_key m = lit "synthesizer" /\ round_num m = 1%Z))
  /\
  (R = 1%Z ->
   config.ENABLE_SYNTHESIZER cfg = true ->
   always_answers backend ->
   all_bound d RESPONSE_ORDER_WITH_SYNTH ->
   snd (run_discussion cfg backend (Some R) d log) = None /\
   map turn_of (yielded (fst (run_discussion cfg backend (Some R) d log)))
   = map (pair 1%Z) RESPONSE_ORDER_WITH_SYNTH).
Proof.
  split.
  - intros HR m Hm [Hk Hr].
    rewrite run_discussion_turns in Hm.
    destruct (run_turns cfg backend (turns cfg (Some R)) (start d log))
      as [st' o] eqn:E.
    apply run_turns_frame in E as (ys & post & Hy & _ & _ & _ & Hts & _).
    simpl in Hy, Hm. rewrite Hy in Hm.
    assert (Hin : In (turn_of m) (turns cfg (Some R))).
    { rewrite Hts. apply in_or_app. left. now apply in_map. }
    unfold turns, turn_of in Hin. rewrite Hk, Hr in Hin.
    apply schedule_In in Hin as (_ & _ & Hs).
    assert (Hs' : skips (rounds_or_default cfg (Some R)) 1 (lit "synthesizer") = true).
    { apply skips_iff. simpl. destruct (R =? 0)%Z eqn:E0; [lia|]. repeat split; lia. }
    congruence.
  - intros -> Hsynth HB Hbound.
    assert (Hb : all_bound d (active_order cfg)).
    { unfold active_order. now rewrite Hsynth. }
    destruct (run_discussion_complete cfg backend (Some 1%Z) d log HB Hb) as [Ho Hts].
    split; [exact Ho|]. rewrite Hts.
    unfold turns, active_order. rewrite Hsynth. reflexivity.
Qed.

Lemma synthesizer_round_one_witness :
  (forall m,
     In m (yielded (fst (run_discussion example_config steady_backend
                           (Some 2%Z) example_session []))) ->
     ~ (persona_key m = lit "synthesizer" /\ round_num m = 1%Z))
  /\
  map turn_of (yielded (fst (run_discussion example_config steady_backend
                               (Some 1%Z) example_session [])))
  = map (pair 1%Z) RESPONSE_ORDER_WITH_SYNTH.
Proof.
  split.
  - apply (proj1 (synthesizer_round_one example_config steady_backend 2
                    example_session [])).
    lia.
  - apply (proj2 (synthesizer_round_one example_config steady_backend 1
                    example_session [])).
    + reflexivity.
    + reflexivity.
    + exact steady_backend_answers.
    + exact example_session_bound.
Defined.

(** C2. For every round count [R >= 1], a run whose turns all succeed
    produces [R * k] messages minus one if the synthesizer was suppressed in
    round 1, when the synthesizer is enabled, and [R * (k - 1)] messages when
    it is disabled, [k] being the length of the order with the synthesizer;
    and the synthesizer is skipped in round [r] exactly when [r = 1] and
    [r < R]. *)
Theorem message_count (cfg : config.Config) (backend : Backend)
    (R : Z) (d : Discussion) (log : list Call) :
  (1 <= R)%Z ->
  always_answers backend ->
  all_bound d (active_order cfg) ->
  let k := Z.of_nat (length RESPONSE_ORDER_WITH_SYNTH) in
  let out := run_discussion cfg backend (Some R) d log in
  snd out = None /\
  Z.of_nat (length (yielded (fst out))) =
  (if config.ENABLE_SYNTHESIZER cfg
   then R * k - (if skips R 1 (lit "synthesizer") then 1 else 0)
   else R * (k - 1))%Z /\
  length RESPONSE_ORDER = (length RESPONSE_ORDER_WITH_SYNTH - 1)%nat /\
  (forall r key,
     skips R r key = true <->
     key = lit "synthesizer" /\ r = 1%Z /\ (r < R)%Z).
Proof.
  intros HR HB Hbound k out.
  destruct (run_discussion_complete cfg backend (Some R) d log HB Hbound) as [Ho Hts].
  split; [exact Ho|]. split; [|split; [reflexivity | intros; apply skips_iff]].
  assert (E : rounds_or_default cfg (Some R) = R).
  { simpl. destruct (R =? 0)%Z eqn:E0; [lia | reflexivity]. }
  subst out. rewrite <- (length_map turn_of), Hts, length_turns by (rewrite E; lia).
  rewrite E. reflexivity.
Qed.

Lemma message_count_witness :
  snd (run_discussion example_config steady_backend (Some 3%Z) example_session [])
  = None /\
  Z.of_nat (length (yielded (fst (run_discussion example_config steady_backend
                                    (Some 3%Z) example_session []))))
  = 14%Z.
Proof.
  destruct (message_count example_config steady_backend 3 example_session []
              ltac:(lia) steady_backend_answers example_session_bound_active)
    as (Ho & Hn & _).
  split; [exact Ho | exact Hn].
Defined.

(** C10, as stated, fails when the configured default is not positive:
    [main] with [--rounds -1] sets [MAX_ROUNDS] to -1, and a round count of
    0 or [None] then runs no round and produces no message. *)
Lemma zero_rounds_with_negative_default :
  let args := {| main.topic := Some example_topic; main.file := None;
                 main.rounds := -1; main.no_synth := false |} in
  let cfg := overrides example_config args in
  config.MAX_ROUNDS cfg = (-1)%Z /\
  run_discussion cfg steady_backend (Some 0%Z) example_session []
  = ({| self := example_session; calls := []; yielded := [] |}, None) /\
  run_discussion cfg steady_backend None example_session []
  = ({| self := example_session; calls := []; yielded := [] |}, None).
Proof. repeat split. Qed.

(** C10 (amended). A round count of 0, like [None], is replaced by
    [config.MAX_ROUNDS]: the run is the run of [MAX_ROUNDS] rounds. When
    [MAX_ROUNDS >= 1] and every turn succeeds it produces the full message
    count of that many rounds, which is not zero; when [MAX_ROUNDS <= 0] it
    runs no round and produces no message. *)
Theorem zero_rounds_runs_default (cfg : config.Config) (backend : Backend)
    (d : Discussion) (log : list Call) :
  run_discussion cfg backend (Some 0%Z) d log
  = run_discussion cfg backend (Some (config.MAX_ROUNDS cfg)) d log
  /\
  run_discussion cfg backend None d log
  = run_discussion cfg backend (Some (config.MAX_ROUNDS cfg)) d log
  /\
  ((1 <= config.MAX_ROUNDS cfg)%Z ->
   always_answers backend ->
   all_bound d (active_order cfg) ->
   let k := Z.of_nat (length RESPONSE_ORDER_WITH_SYNTH) in
   let out := run_discussion cfg backend (Some 0%Z) d log in
   snd out = None /\
   Z.of_nat (length (yielded (fst out))) =
   (if config.ENABLE_SYNTHESIZER cfg
    then config.MAX_ROUNDS cfg * k
         - (if skips (config.MAX_ROUNDS cfg) 1 (lit "synthesizer") then 1 else 0)
    else config.MAX_ROUNDS cfg * (k - 1))%Z /\
   yielded (fst out) <> [])
  /\
  ((config.MAX_ROUNDS cfg <= 0)%Z ->
   run_discussion cfg backend (Some 0%Z) d log
   = ({| self := d; calls := log; yielded := [] |}, None) /\
   run_discussion cfg backend None d log
   = ({| self := d; calls := log; yielded := [] |}, None)).
Proof.
  assert (E : rounds_or_default cfg (Some (config.MAX_ROUNDS cfg))
              = config.MAX_ROUNDS cfg).
  { simpl. destruct (config.MAX_ROUNDS cfg =? 0)%Z; reflexivity. }
  split; [|split; [|split]].
  - unfold run_discussion. rewrite E. reflexivity.
  - unfold run_discussion. rewrite E. reflexivity.
  - intros HM HB Hbound k out.
    destruct (run_discussion_complete cfg backend (Some 0%Z) d log HB Hbound)
      as [Ho Hts].
    assert (Hn : Z.of_nat (length (yielded (fst out))) =
                 expected_messages cfg (config.MAX_ROUNDS cfg)).
    { subst out. rewrite <- (length_map turn_of), Hts.
      now rewrite length_turns. }
    split; [exact Ho|]. split; [exact Hn|].
    intros Hnil. rewrite Hnil in Hn. unfold expected_messages in Hn.
    simpl length in Hn.
    destruct (config.ENABLE_SYNTHESIZER cfg);
      [destruct (skips (config.MAX_ROUNDS cfg) 1 (lit "synthesizer"))|]; lia.
  - intros HM. unfold run_discussion, range_from_1. simpl rounds_or_default.
    replace (Z.to_nat (config.MAX_ROUNDS cfg)) with 0%nat by lia.
    split; reflexivity.
Qed.

Lemma zero_rounds_runs_default_witness :
  (snd (run_discussion example_config steady_backend (Some 0%Z) example_session [])
   = None /\
   Z.of_nat (length (yielded (fst (run_discussion example_config steady_backend
                                     (Some 0%Z) example_session []))))
   = 14%Z)
  /\
  run_discussion (config.set_MAX_ROUNDS example_config (-1)) steady_backend
    (Some 0%Z) example_session []
  = ({| self := example_session; calls := []; yielded := [] |}, None).
Proof.
  split.
  - destruct (zero_rounds_runs_default example_config steady_backend
                example_session []) as (_ & _ & H & _).
    destruct (H ltac:(simpl; lia) steady_backend_answers
                example_session_bound_active) as (Ho & Hn & _).
    split; [exact Ho | exact Hn].
  - destruct (zero_rounds_runs_default
                (config.set_MAX_ROUNDS example_config (-1)) steady_backend
                example_session []) as (_ & _ & _ & H).
    destruct (H ltac:(simpl; lia)) as [H0 _]. exact H0.
Defined.

(* ================================================================= *)
(** * Failures *)

Lemma generate_response_log (cfg : config.Config) (backend : Backend)
    (d : Discussion) (k : pystr) (r : Z) (log : list Call) :
  (length (snd (_generate_response cfg backend d k r log)) <= length log + 1)%nat.
Proof.
  unfold _generate_response.
  destruct (dict_item PERSONAS k); simpl; [|lia].
  destruct (dict_item (clients d) k); simpl; [|lia].
  destruct (_build_chat_history d k); simpl; [|lia].
  unfold generate.
  destruct (backend log _); simpl; rewrite length_app; simpl; lia.
Qed.

Lemma generate_response_backend_fails (cfg : config.Config) (backend : Backend)
    (d : Discussion) (k : pystr) (r : Z) (log : list Call)
    (persona : Persona) (client : Client) (e : exn) :
  dict_get PERSONAS k = Some persona ->
  dict_get (clients d) k = Some client ->
  backend log (request cfg d k persona client) = Raise e ->
  _generate_response cfg backend d k r log
  = (Raise e, log ++ [request cfg d k persona client]).
Proof.
  intros HP HC HB. unfold _generate_response, dict_item. rewrite HP, HC.
  rewrite (build_chat_history_registered d k persona HP). unfold generate.
  fold (request cfg d k persona client). rewrite HB. reflexivity.
Qed.

(** C9. A failing turn ends the run at once, and what was appended stays.
    First, when the turns [pre] of the schedule have succeeded and the next
    turn [t] raises [e], the run ends with [e]: no later turn is taken, the
    messages yielded are those of [pre], and the transcript is the initial
    one followed by exactly those messages, with nothing of turn [t]; in
    particular this is so when the backend call of turn [t] fails with [e],
    and the failed call is then the last call made.
    Second, every run that ends with an exception [e] ended in this way: the
    schedule splits into the turns taken, the failing turn and the turns
    never started, and at most one backend call follows the calls of the
    turns taken. *)
Theorem failure_halts_run (cfg : config.Config) (backend : Backend)
    (rounds : option Z) (d : Discussion) (log : list Call) :
  (forall pre t post st1 e lg,
     turns cfg rounds = pre ++ t :: post ->
     run_turns cfg backend pre (start d log) = (st1, None) ->
     _generate_response cfg backend (self st1) (snd t) (fst t) (calls st1)
     = (Raise e, lg) ->
     run_discussion cfg backend rounds d log
     = ({| self := self st1; calls := lg; yielded := yielded st1 |}, Some e) /\
     messages (self st1) = messages d ++ yielded st1 /\
     map turn_of (yielded st1) = pre)
  /\
  (forall pre t post st1 persona client e,
     turns cfg rounds = pre ++ t :: post ->
     run_turns cfg backend pre (start d log) = (st1, None) ->
     dict_get PERSONAS (snd t) = Some persona ->
     dict_get (clients d) (snd t) = Some client ->
     backend (calls st1) (request cfg (self st1) (snd t) persona client)
     = Raise e ->
     run_discussion cfg backend rounds d log
     = ({| self := self st1;
           calls := calls st1 ++ [request cfg (self st1) (snd t) persona client];
           yielded := yielded st1 |}, Some e) /\
     messages (self st1) = messages d ++ yielded st1 /\
     map turn_of (yielded st1) = pre)
  /\
  (forall st e,
     run_discussion cfg backend rounds d log = (st, Some e) ->
     exists pre t post lg,
       turns cfg rounds = pre ++ t :: post /\
       map turn_of (yielded st) = pre /\
       messages (self st) = messages d ++ yielded st /\
       _generate_response cfg backend (self st) (snd t) (fst t) lg
       = (Raise e, calls st) /\
       length lg = (length log + length pre)%nat /\
       (length (calls st) <= length log + length pre + 1)%nat).
Proof.
  assert (Hfwd : forall pre t post st1 e lg,
     turns cfg rounds = pre ++ t :: post ->
     run_turns cfg backend pre (start d log) = (st1, None) ->
     _generate_response cfg backend (self st1) (snd t) (fst t) (calls st1)
     = (Raise e, lg) ->
     run_discussion cfg backend rounds d log
     = ({| self := self st1; calls := lg; yielded := yielded st1 |}, Some e) /\
     messages (self st1) = messages d ++ yielded st1 /\
     map turn_of (yielded st1) = pre).
  { intros pre t post st1 e lg Hts Hpre Hgen. split.
    + rewrite run_discussion_turns, Hts, run_turns_app, Hpre.
      destruct t as [r k]. simpl in *. now rewrite Hgen.
    + apply run_turns_frame in Hpre
        as (ys & post' & Hy & Hm & _ & _ & Hsplit & ->).
      simpl in Hy, Hm. subst ys. rewrite app_nil_r in Hsplit.
      split; [exact Hm | now symmetry]. }
  split; [exact Hfwd|]. split.
  - intros pre t post st1 persona client e Hts Hpre HP HC HB.
    apply (Hfwd pre t post st1 e _ Hts Hpre).
    apply generate_response_backend_fails; [exact HP| |exact HB].
    apply run_turns_frame in Hpre as (ys & post' & _ & _ & _ & Hcl & _).
    simpl in Hcl. now rewrite Hcl.
  - intros st e H. rewrite run_discussion_turns in H.
    apply run_turns_frame in H
      as (ys & post & Hy & Hm & _ & _ & Hts & t & post' & lg & -> & Hg & Hl).
    simpl in Hy, Hm, Hl. subst ys.
    exists (map turn_of (yielded st)), t, post', lg.
    rewrite length_map. repeat split; try assumption.
    pose proof (generate_response_log cfg backend (self st) (snd t) (fst t) lg) as Hle.
    rewrite Hg in Hle. simpl in Hle. lia.
Qed.

Lemma failure_halts_run_witness :
  (exists st1,
     run_discussion example_config (failing_backend 2) (Some 1%Z)
       example_session []
     = (st1, Some (ConnectionError (lit "Cannot connect to Ollama"))) /\
     map turn_of (yielded st1)
     = [(1%Z, lit "logical"); (1%Z, lit "creative")] /\
     length (calls st1) = 3%nat)
  /\
  (exists pre t post (lg : list Call),
     turns example_config (Some 1%Z) = pre ++ t :: post /\
     map turn_of
       (yielded (fst (run_discussion example_config (failing_backend 2)
                        (Some 1%Z) example_session []))) = pre /\
     length pre = 2%nat /\
     length lg = 2%nat).
Proof.
  destruct (failure_halts_run example_config (failing_backend 2) (Some 1%Z)
              example_session []) as [Hfwd [_ Hbwd]].
  split.
  - destruct (Hfwd [(1%Z, lit "logical"); (1%Z, lit "creative")]
                (1%Z, lit "skeptical")
                [(1%Z, lit "practical"); (1%Z, lit "synthesizer")]
                (fst (run_turns example_config (failing_backend 2)
                        [(1%Z, lit "logical"); (1%Z, lit "creative")]
                        (start example_session [])))
                (ConnectionError (lit "Cannot connect to Ollama"))
                (snd (_generate_response example_config (failing_backend 2)
                        (self (fst (run_turns example_config (failing_backend 2)
                                      [(1%Z, lit "logical"); (1%Z, lit "creative")]
                                      (start example_session []))))
                        (lit "skeptical") 1
                        (calls (fst (run_turns example_config (failing_backend 2)
                                       [(1%Z, lit "logical"); (1%Z, lit "creative")]
                                       (start example_session []))))))
                eq_refl) as (Hrun & _ & Hpre).
    + vm_compute. reflexivity.
    + vm_compute. reflexivity.
    + eexists. split; [exact Hrun|]. split; [exact Hpre|].
      vm_compute. reflexivity.
  - destruct (Hbwd
                (fst (run_discussion example_config (failing_backend 2)
                        (Some 1%Z) example_session []))
                (ConnectionError (lit "Cannot connect to Ollama")))
      as (pre & t & post & lg & Hts & Hpre & _ & _ & Hl & _).
    { vm_compute. reflexivity. }
    exists pre, t, post, lg. split; [exact Hts|]. split; [exact Hpre|].
    assert (Hp : length pre = 2%nat) by (rewrite <- Hpre; reflexivity).
    split; [exact Hp|]. rewrite Hl, Hp. reflexivity.
Defined.

(* ================================================================= *)
(** * Running a session again *)

(** C4, as stated, fails: a second run on the same session builds its
    contexts on the messages of the first run, so with a backend whose
    answer depends on its context it does not repeat the messages of a run
    on a new session, and the transcript holds both runs. *)
Lemma second_run_differs :
  let first := run_discussion example_config context_size_backend (Some 1%Z)
                 example_session [] in
  let again := run_discussion example_config context_size_backend (Some 1%Z)
                 (self (fst first)) (calls (fst first)) in
  new example_config example_topic = Ok example_session /\
  snd first = None /\ snd again = None /\
  yielded (fst again) <> yielded (fst first) /\
  messages (self (fst again)) = yielded (fst first) ++ yielded (fst again).
Proof.
  vm_compute. repeat split; discriminate.
Qed.

(** C4 (amended). A run appends the messages it yields to the transcript
    the session already holds. After a second run on the same session the
    transcript is the initial one followed by the messages of the first run
    and then those of the second, and every context the second run sends
    contains an entry for every message of the first run. *)
Theorem rerun_accumulates (cfg : config.Config) (backend : Backend)
    (rounds1 rounds2 : option Z) (d : Discussion) (log : list Call) :
  let first := run_discussion cfg backend rounds1 d log in
  let again := run_discussion cfg backend rounds2
                 (self (fst first)) (calls (fst first)) in
  messages (self (fst first)) = messages d ++ yielded (fst first) /\
  messages (self (fst again))
  = messages d ++ yielded (fst first) ++ yielded (fst again) /\
  exists cs,
    calls (fst again) = calls (fst first) ++ cs /\
    Forall (fun c => exists k rest,
              call_messages c =
              topic_entry d
              :: map (message_entry k) (messages d ++ yielded (fst first))
              ++ rest) cs.
Proof.
  intros first again. subst again.
  rewrite (run_discussion_turns cfg backend rounds2).
  subst first. rewrite (run_discussion_turns cfg backend rounds1).
  destruct (run_turns cfg backend (turns cfg rounds1) (start d log))
    as [st1 o1] eqn:E1.
  simpl fst.
  destruct (run_turns cfg backend (turns cfg rounds2)
              (start (self st1) (calls st1))) as [st2 o2] eqn:E2.
  simpl fst.
  pose proof (run_turns_contexts cfg backend _ _ _ _ E2) as (cs & Hcs & Hall).
  apply run_turns_frame in E1 as (ys1 & p1 & Hy1 & Hm1 & Hu1 & _).
  apply run_turns_frame in E2 as (ys2 & p2 & Hy2 & Hm2 & _).
  simpl in *. subst ys1 ys2.
  split; [exact Hm1|]. split; [now rewrite Hm2, Hm1, app_assoc|].
  exists cs. split; [exact Hcs|].
  eapply Forall_impl; [|exact Hall].
  intros c (k & rest & Hc). exists k, rest.
  rewrite Hc, Hm1. unfold topic_entry. now rewrite Hu1.
Qed.

(* ================================================================= *)
(** * Context assembly *)

(** C3. For a registered speaker [S] and any session, the context built for
    [S] is the topic entry, then one entry per transcript message in
    transcript order, then the instruction entry, a user entry asking [S] by
    its display name to respond naturally: its length is the number of
    messages plus 2; a message of [S] becomes an assistant entry and any
    other a user entry, each carrying the display name of its speaker and
    its content. *)
Theorem context_shape (d : Discussion) (S : pystr) (persona : Persona) :
  dict_get PERSONAS S = Some persona ->
  exists history,
    _build_chat_history d S = Ok history /\
    history = topic_entry d :: map (message_entry S) (messages d)
              ++ [prompt_entry persona] /\
    length history = (length (messages d) + 2)%nat /\
    topic_entry d
    = {| role := lit "user";
         llm_clients.content := lit "[User] " ++ user_input d |} /\
    (forall msg,
       llm_clients.content (message_entry S msg)
       = lit "[" ++ persona_name msg ++ lit "] " ++ content msg /\
       (persona_key msg = S -> role (message_entry S msg) = lit "assistant") /\
       (persona_key msg <> S -> role (message_entry S msg) = lit "user")) /\
    role (prompt_entry persona) = lit "user" /\
    mentions (llm_clients.content (prompt_entry persona)) (name persona) /\
    prompt_entry persona
    = {| role := lit "user";
         llm_clients.content :=
           lit "Now respond naturally as yourself (" ++ name persona
           ++ lit ") to this ongoing discussion. Keep it conversational and chat-like." |}.
Proof.
  intros H. eexists. split; [exact (build_chat_history_registered d S persona H)|].
  split; [reflexivity|]. split.
  { simpl. rewrite length_app, length_map. simpl. lia. }
  split; [reflexivity|]. split; [|split; [reflexivity|split; [|reflexivity]]].
  - intros msg. split; [reflexivity|]. unfold message_entry. simpl. split.
    + intros E. apply pystr_eqb_eq in E. now rewrite E.
    + intros E. apply pystr_eqb_neq in E. now rewrite E.
  - eexists. eexists. reflexivity.
Qed.

Lemma context_shape_witness :
  exists history,
    _build_chat_history after_one_round (lit "skeptical") = Ok history /\
    length history = 7%nat /\
    map role history
    = [lit "user"; lit "user"; lit "user"; lit "assistant"; lit "user";
       lit "user"; lit "user"] /\
    option_map llm_clients.content (nth_error history 6)
    = Some (lit "Now respond naturally as yourself (Skeptical Thinker) to this ongoing discussion. Keep it conversational and chat-like.").
Proof.
  destruct (context_shape after_one_round (lit "skeptical")
              {| name := lit "Skeptical Thinker"; personas.emoji := [129300%N];
                 system_prompt := skeptical_system_prompt |} eq_refl)
    as (history & Hb & Hh & Hl & _).
  exists history. split; [exact Hb|]. split; [exact Hl|].
  rewrite Hh. vm_compute. split; reflexivity.
Defined.

(** A speaker missing from the registry is a [KeyError]. *)
Lemma context_unregistered (d : Discussion) (S : pystr) :
  dict_get PERSONAS S = None ->
  _build_chat_history d S = Raise (KeyError S).
Proof.
  intros H. unfold _build_chat_history, dict_item. now rewrite H.
Qed.

(* ================================================================= *)
(** * Backend binding *)

Lemma create_client_unsupported (timeout : Z) (provider api_key model : pystr) :
  supported provider = false ->
  create_client timeout provider api_key model
  = Raise (ValueError (unknown_provider_message provider)).
Proof.
  unfold supported, create_client. intros H.
  repeat (apply orb_false_iff in H as [H ?]).
  repeat match goal with E : pystr_eqb _ _ = false |- _ => rewrite E; clear E end.
  reflexivity.
Qed.

Lemma create_client_supported (timeout : Z) (provider api_key model : pystr) :
  supported provider = true ->
  exists client, create_client timeout provider api_key model = Ok client.
Proof.
  unfold supported, create_client. intros H.
  destruct (pystr_eqb provider (lit "ollama")); [eauto|].
  destruct (pystr_eqb provider (lit "groq")); [eauto|].
  destruct (pystr_eqb provider (lit "google")); [eauto|].
  destruct (pystr_eqb provider (lit "huggingface")); [eauto|discriminate].
Qed.

Lemma provider_and_model_kind (cfg : config.Config) (a : config.assignment)
    (kind : pystr) :
  declared_kind a = Ok kind ->
  exists model, provider_and_model cfg a = Ok (kind, model).
Proof.
  destruct a as [d|p]; simpl; intros H.
  - rewrite H. simpl. eauto.
  - injection H as ->. eauto.
Qed.

(** The loop over the assignments stops at the first unsupported kind. *)
Lemma setup_mixed_first_unsupported (cfg : config.Config)
    (before after : list (pystr * config.assignment)) (k : pystr)
    (a : config.assignment) (kind : pystr) (clients : dict Client) :
  (forall k' a', In (k', a') before ->
     exists kind', declared_kind a' = Ok kind' /\ supported kind' = true) ->
  declared_kind a = Ok kind ->
  supported kind = false ->
  setup_mixed cfg (before ++ (k, a) :: after) clients
  = Raise (ValueError (unknown_provider_message kind)).
Proof.
  intros Hbefore Hkind Hbad. revert clients.
  induction before as [|[k0 a0] before IH]; intros clients.
  - destruct (provider_and_model_kind cfg a kind Hkind) as [model Hpm].
    simpl. rewrite Hpm. simpl.
    now rewrite (create_client_unsupported _ kind _ model Hbad).
  - destruct (Hbefore k0 a0 (or_introl eq_refl)) as (kind0 & Hk0 & Hs0).
    destruct (provider_and_model_kind cfg a0 kind0 Hk0) as [model0 Hpm0].
    destruct (create_client_supported (config.OLLAMA_TIMEOUT cfg) kind0
                (_get_api_key cfg kind0) model0 Hs0) as [client Hc].
    simpl. rewrite Hpm0. simpl. rewrite Hc. simpl. apply IH.
    intros k' a' Hin. apply (Hbefore k' a'). now right.
Qed.

(** C5, as stated, fails when an entry without a provider comes first: the
    practical persona declares the unsupported kind unknown-provider, yet
    construction raises the [KeyError] of the missing key, which names no
    kind. *)
Lemma missing_provider_key_comes_first :
  declares half_declared (lit "unknown-provider") /\
  supported (lit "unknown-provider") = false /\
  new half_declared example_topic = Raise (KeyError (lit "provider")).
Proof.
  split; [|split; reflexivity].
  exists (lit "practical"),
    (config.new_format "unknown-provider" "qwen/qwen3-32b").
  split; [simpl; auto | reflexivity].
Qed.

(** C5 (amended). In mixed mode, when an entry of [MIXED_ASSIGNMENTS]
    declares a kind outside ollama, groq, google, huggingface and every
    entry before it declares a supported kind, and in single-provider mode
    when [LLM_PROVIDER] is such a kind, constructing the session raises the
    error of [create_client], a [ValueError] (the configuration error of the
    program) whose message names that kind; no session exists, no message is
    produced and no backend is called. *)
Theorem unsupported_kind_fails (backend : Backend) (console : main.Console)
    (cfg : config.Config) (topic : pystr) :
  (pystr_eqb (config.LLM_PROVIDER cfg) (lit "mixed") = true ->
   forall before persona_key a after kind,
     config.MIXED_ASSIGNMENTS cfg = before ++ (persona_key, a) :: after ->
     (forall k' a', In (k', a') before ->
        exists kind', declared_kind a' = Ok kind' /\ supported kind' = true) ->
     declared_kind a = Ok kind ->
     supported kind = false ->
     construction_fails_naming backend console cfg topic kind)
  /\
  (pystr_eqb (config.LLM_PROVIDER cfg) (lit "mixed") = false ->
   supported (config.LLM_PROVIDER cfg) = false ->
   construction_fails_naming backend console cfg topic (config.LLM_PROVIDER cfg)).
Proof.
  assert (H : forall kind,
             _setup_clients cfg []
             = Raise (ValueError (unknown_provider_message kind)) ->
             construction_fails_naming backend console cfg topic kind).
  { intros kind Hr.
    assert (Hnew : new cfg topic
                   = Raise (ValueError (unknown_provider_message kind))).
    { unfold new, __init__. now rewrite Hr. }
    split; [exact Hnew|]. split.
    - exists (lit "Unknown provider: "),
        (lit ". Use: ollama, groq, google, huggingface"). reflexivity.
    - unfold main.run_discussion.
      destruct (console (main.TopicPanel topic)) as [e|].
      + repeat split. discriminate.
      + rewrite Hnew. repeat split. }
  split.
  - intros Hmode before k a after kind Hitems Hbefore Hkind Hbad. apply H.
    unfold _setup_clients. rewrite Hmode, Hitems.
    now apply setup_mixed_first_unsupported.
  - intros Hmode Hbad. apply H.
    unfold _setup_clients. rewrite Hmode.
    now rewrite create_client_unsupported.
Qed.

Lemma unsupported_kind_fails_witness :
  construction_fails_naming steady_backend plain_console misconfigured
    example_topic (lit "unknown-provider").
Proof.
  apply (proj1 (unsupported_kind_fails steady_backend plain_console
                  misconfigured example_topic) eq_refl
           [ (lit "logical", config.new_format "ollama" "llama3.2");
             (lit "skeptical", config.new_format "ollama" "mistral");
             (lit "synthesizer", config.new_format "ollama" "phi3");
             (lit "creative", config.new_format "groq" "llama-3.3-70b-versatile") ]
           (lit "practical")
           (config.new_format "unknown-provider" "qwen/qwen3-32b") []
           (lit "unknown-provider") eq_refl).
  - intros k' a' Hin. simpl in Hin.
    repeat (destruct Hin as [Hin|Hin];
            [injection Hin as <- <-; eexists; split; reflexivity|]).
    contradiction.
  - reflexivity.
  - reflexivity.
Defined.

(* ================================================================= *)
(** * The topic *)

Lemma lstrip_blank (s : pystr) : blank s = true -> lstrip s = [].
Proof.
  induction s as [|c s IH]; simpl; [reflexivity|].
  intros H. apply andb_true_iff in H as [Hc Hs]. rewrite Hc. now apply IH.
Qed.

Lemma strip_blank (s : pystr) : blank s = true -> strip s = [].
Proof. intros H. unfold strip. now rewrite lstrip_blank. Qed.

(** C6, as stated, fails: the core takes any topic. The constructor builds
    a session for the empty topic and for a topic of spaces, and a run on
    either calls the backends. *)
Lemma core_accepts_blank_topic :
  (exists d,
     new example_config [] = Ok d /\ user_input d = [] /\
     length (calls (fst (run_discussion example_config steady_backend None d [])))
     = 14%nat)
  /\
  (exists d,
     new example_config (lit "   ") = Ok d /\
     strip (user_input d) = [] /\
     length (calls (fst (run_discussion example_config steady_backend None d [])))
     = 14%nat).
Proof.
  split; eexists; (split; [reflexivity|]); split; vm_compute; reflexivity.
Qed.

Lemma missing_api_key_overrides (cfg : config.Config) (args : main.Args) :
  main.missing_api_key
    (let cfg := if (main.rounds args =? 0)%Z then cfg
                else config.set_MAX_ROUNDS cfg (main.rounds args) in
     if main.no_synth args then config.set_ENABLE_SYNTHESIZER cfg false else cfg)
  = main.missing_api_key cfg.
Proof.
  cbv zeta. destruct (main.rounds args =? 0)%Z, (main.no_synth args); reflexivity.
Qed.

Lemma main_without_topic (backend : Backend) (console : main.Console)
    (cfg : config.Config) (env : main.Env) (args : main.Args) :
  main.missing_api_key cfg = false ->
  main.read_topic env args = Ok [] ->
  main.main backend console cfg env args
  = main.stop (main.SysExit 1 main.no_topic_error).
Proof.
  intros Hkey Htopic. unfold main.main.
  rewrite missing_api_key_overrides, Hkey, Htopic. reflexivity.
Qed.

(** C6 (amended). The core does not validate the topic: what the
    constructor does, succeed with the same bindings or raise the same
    error, is the same for every topic. The command-line entry point,
    when its API key check passes, rejects an empty topic: when the topic
    file holds only whitespace, or when no file and no topic argument is
    given and the typed text is only whitespace, the trimmed topic is empty
    and [main] prints "No topic provided" and exits with status 1, with no
    session created and no backend called. *)
Theorem main_rejects_empty_topic (backend : Backend) (console : main.Console)
    (cfg : config.Config) (env : main.Env) (args : main.Args) :
  (forall topic topic',
     match new cfg topic, new cfg topic' with
     | Ok d, Ok d' =>
         user_input d = topic /\ user_input d' = topic' /\
         clients d = clients d' /\ messages d = messages d'
     | Raise e, Raise e' => e = e'
     | _, _ => False
     end)
  /\
  (main.missing_api_key cfg = false ->
   (forall path text,
      main.file args = Some path -> truthy path = true ->
      main.open_read env path = Ok text -> blank text = true ->
      rejected_for_no_topic (main.main backend console cfg env args))
   /\
   (main.option_truthy (main.file args) = false ->
    main.option_truthy (main.topic args) = false ->
    blank (join [nl] (main.read_lines (main.stdin env) [] 0)) = true ->
    rejected_for_no_topic (main.main backend console cfg env args))).
Proof.
  split.
  - intros topic topic'. unfold new, __init__.
    destruct (_setup_clients cfg []); simpl; auto.
  - intros Hkey. split.
    + intros path text Hfile Hpath Hopen Hblank.
      rewrite main_without_topic; [repeat split | assumption |].
      unfold main.read_topic. rewrite Hfile. simpl. rewrite Hpath, Hopen. simpl.
      now rewrite strip_blank.
    + intros Hfile Htopic Hblank.
      rewrite main_without_topic; [repeat split | assumption |].
      unfold main.read_topic, main.get_user_input. rewrite Hfile, Htopic.
      now rewrite strip_blank.
Qed.

Lemma main_rejects_empty_topic_witness :
  rejected_for_no_topic
    (main.main steady_backend plain_console example_config
       {| main.open_read := fun _ => Ok (lit "  "); main.stdin := [] |}
       {| main.topic := None; main.file := Some (lit "topic.txt");
          main.rounds := 3; main.no_synth := false |})
  /\
  rejected_for_no_topic
    (main.main steady_backend plain_console example_config
       {| main.open_read := fun _ => Raise (OSError (lit "No such file"));
          main.stdin := [lit " "; []; []] |}
       {| main.topic := None; main.file := None;
          main.rounds := 3; main.no_synth := false |}).
Proof.
  split.
  - apply (proj1 (proj2 (main_rejects_empty_topic steady_backend plain_console
                           example_config
                           {| main.open_read := fun _ => Ok (lit "  ");
                              main.stdin := [] |}
                           {| main.topic := None;
                              main.file := Some (lit "topic.txt");
                              main.rounds := 3; main.no_synth := false |})
                    eq_refl)
             (lit "topic.txt") (lit "  ")); reflexivity.
  - apply (proj2 (proj2 (main_rejects_empty_topic steady_backend plain_console
                           example_config
                           {| main.open_read :=
                                fun _ => Raise (OSError (lit "No such file"));
                              main.stdin := [lit " "; []; []] |}
                           {| main.topic := None; main.file := None;
                              main.rounds := 3; main.no_synth := false |})
                    eq_refl));
      reflexivity.
Defined.

(* ================================================================= *)
(** * Post-processors *)

(** C7, as stated, fails on the trimming: both post-processors return the
    text of the backend as it is, surrounding whitespace included. *)
Lemma post_processors_do_not_trim :
  fst (generate_summary steady_backend example_session []) = Ok (lit " ok ") /\
  fst (generate_takeaway steady_backend example_session []) = Ok (lit " ok ") /\
  strip (lit " ok ") = lit "ok" /\
  lit " ok " <> strip (lit " ok ").
Proof. vm_compute. repeat split; discriminate. Qed.

(** C7 (amended). Both post-processors send the serialized full transcript,
    in one request, to the client of the first entry, in insertion order, of
    the mapping from personas to clients, and each returns what that backend
    answers as it is: the generated text unchanged, or its failure. *)
Theorem post_processors_verbatim (backend : Backend) (d : Discussion)
    (log : list Call) (first_key : pystr) (client : Client)
    (others : dict Client) :
  clients d = (first_key, client) :: others ->
  let summary_call :=
    {| call_client := client;
       call_system_prompt := summary_prompt;
       call_messages :=
         [ {| role := lit "user";
              llm_clients.content :=
                lit "Discussion transcript:" ++ [nl; nl] ++ get_transcript d
                ++ [nl; nl] ++ lit "Please summarize this discussion." |} ];
       call_temperature := 3 # 10 |} in
  let takeaway_call :=
    {| call_client := client;
       call_system_prompt := takeaway_prompt;
       call_messages :=
         [ {| role := lit "user";
              llm_clients.content :=
                lit "Discussion transcript:" ++ [nl; nl] ++ get_transcript d
                ++ [nl; nl] ++ lit "Provide a final balanced takeaway." |} ];
       call_temperature := 3 # 10 |} in
  generate_summary backend d log
  = (backend log summary_call, log ++ [summary_call]) /\
  generate_takeaway backend d log
  = (backend log takeaway_call, log ++ [takeaway_call]).
Proof.
  intros H. unfold generate_summary, generate_takeaway, first_client, dict_values.
  rewrite H. split; reflexivity.
Qed.

Lemma post_processors_verbatim_witness :
  fst (generate_summary steady_backend example_session []) = Ok (lit " ok ") /\
  length (snd (generate_summary steady_backend example_session [])) = 1%nat.
Proof.
  destruct (post_processors_verbatim steady_backend example_session []
              (lit "logical")
              (OllamaClient (lit "llama3.2") (lit "http://localhost:11434") 180)
              (tl (clients example_session)) eq_refl) as [Hs _].
  rewrite Hs. split; reflexivity.
Defined.

(** With no client bound, both post-processors raise [IndexError]. *)
Lemma post_processors_unbound (backend : Backend) (d : Discussion)
    (log : list Call) :
  clients d = [] ->
  generate_summary backend d log
  = (Raise (IndexError (lit "list index out of range")), log) /\
  generate_takeaway backend d log
  = (Raise (IndexError (lit "list index out of range")), log).
Proof.
  intros H. unfold generate_summary, generate_takeaway, first_client, dict_values.
  rewrite H. split; reflexivity.
Qed.

(* ================================================================= *)
(** * The transcript text *)

Lemma split_lines_nonempty (text : pystr) : split_lines text <> [].
Proof.
  destruct text as [|c text]; simpl; [discriminate|].
  destruct (split_lines text); [discriminate|].
  destruct (c =? nl)%N; discriminate.
Qed.

Lemma split_lines_break (text : pystr) :
  split_lines (nl :: text) = [] :: split_lines text.
Proof.
  simpl. pose proof (split_lines_nonempty text) as H.
  destruct (split_lines text); [contradiction | reflexivity].
Qed.

Lemma split_lines_line (line text : pystr) :
  one_line line = true ->
  split_lines (line ++ nl :: text) = line :: split_lines text.
Proof.
  induction line as [|c line IH]; intros H.
  - apply split_lines_break.
  - simpl in H. apply andb_true_iff in H as [Hc Hl].
    apply negb_true_iff in Hc.
    change ((c :: line) ++ nl :: text) with (c :: (line ++ nl :: text)).
    cbn [split_lines]. rewrite (IH Hl), Hc. reflexivity.
Qed.

Lemma one_line_app (a b : pystr) :
  one_line (a ++ b) = one_line a && one_line b.
Proof. apply forallb_app. Qed.

Lemma split_at_space_marker (marker rest : pystr) :
  no_space marker = true ->
  split_at_space (marker ++ 32%N :: rest) = Some (marker, rest).
Proof.
  induction marker as [|c marker IH]; simpl; intros H; [reflexivity|].
  apply andb_true_iff in H as [Hc Hm]. apply negb_true_iff in Hc.
  rewrite Hc, (IH Hm). reflexivity.
Qed.

Lemma parse_header_header (m : Message) :
  no_space (emoji m) = true ->
  parse_header (header m) = Some (emoji m, persona_name m).
Proof.
  intros H. unfold header.
  change (lit "[" ++ emoji m ++ lit " " ++ persona_name m ++ lit "]")
    with (91%N :: (emoji m ++ 32%N :: persona_name m ++ [93%N])).
  replace (emoji m ++ 32%N :: persona_name m ++ [93%N])
    with ((emoji m ++ 32%N :: persona_name m) ++ [93%N])
    by (now rewrite <- app_assoc).
  unfold parse_header. rewrite N.eqb_refl, rev_unit, N.eqb_refl, rev_involutive.
  now apply split_at_space_marker.
Qed.

Lemma join_cons (sep x : pystr) (xs : list pystr) :
  join sep (x :: xs) = x ++ concat (map (fun y => sep ++ y) xs).
Proof.
  revert x; induction xs as [|y ys IH]; intros x.
  - simpl. now rewrite app_nil_r.
  - change (join sep (x :: y :: ys)) with (x ++ sep ++ join sep (y :: ys)).
    rewrite IH. simpl. now rewrite <- ?app_assoc.
Qed.

Lemma block_header (m : Message) :
  block m = header m ++ nl :: content m ++ [nl].
Proof.
  unfold block, header. rewrite <- !app_assoc. reflexivity.
Qed.

Lemma split_lines_app (s t : pystr) :
  split_lines (s ++ nl :: t) = split_lines s ++ split_lines t.
Proof.
  induction s as [|c s IH].
  - apply split_lines_break.
  - change ((c :: s) ++ nl :: t) with (c :: (s ++ nl :: t)).
    cbn [split_lines]. rewrite IH.
    pose proof (split_lines_nonempty s) as Hne.
    destruct (split_lines s) as [|l ls]; [contradiction|].
    simpl. destruct (c =? nl)%N; reflexivity.
Qed.

Lemma split_lines_one_line (s : pystr) :
  one_line s = true -> split_lines s = [s].
Proof.
  induction s as [|c s IH]; intros H; [reflexivity|].
  simpl in H. apply andb_true_iff in H as [Hc Hs]. apply negb_true_iff in Hc.
  cbn [split_lines]. rewrite (IH Hs), Hc. reflexivity.
Qed.

Lemma join_split_lines (s : pystr) : join [nl] (split_lines s) = s.
Proof.
  induction s as [|c s IH]; [reflexivity|].
  cbn [split_lines]. pose proof (split_lines_nonempty s) as Hne.
  destruct (split_lines s) as [|l ls]; [contradiction|].
  destruct (c =? nl)%N eqn:E.
  - apply N.eqb_eq in E. subst c.
    change (join [nl] ([] :: l :: ls)) with ([] ++ [nl] ++ join [nl] (l :: ls)).
    now rewrite IH.
  - rewrite <- IH. destruct ls; reflexivity.
Qed.

Lemma is_header_header (m : Message) :
  no_space (emoji m) = true -> is_header (header m) = true.
Proof.
  intros H. unfold is_header. now rewrite (parse_header_header m H).
Qed.

Lemma read_blocks_step (head a b : pystr) (body rest : list pystr) :
  read_blocks head body (a :: b :: rest)
  = if negb (truthy a) && is_header b then
      (head, join [nl] body) :: read_blocks b [] rest
    else read_blocks head (body ++ [a]) (b :: rest).
Proof. reflexivity. Qed.

(** A block ends where the next one starts. *)
Lemma read_blocks_until (lines : list pystr) (head h : pystr)
    (body more : list pystr) :
  lines <> [] ->
  quiet lines = true ->
  is_header h = true ->
  read_blocks head body (lines ++ [] :: h :: more)
  = (head, join [nl] (body ++ lines)) :: read_blocks h [] more.
Proof.
  revert body. induction lines as [|a lines IH]; intros body Hne Hq Hh;
    [contradiction|].
  destruct lines as [|a2 lines].
  - change ([a] ++ [] :: h :: more) with (a :: [] :: h :: more).
    rewrite read_blocks_step.
    change (is_header []) with false. rewrite andb_false_r.
    rewrite read_blocks_step, Hh. reflexivity.
  - change ((a :: a2 :: lines) ++ [] :: h :: more)
      with (a :: a2 :: (lines ++ [] :: h :: more)).
    rewrite read_blocks_step. cbn [quiet] in Hq.
    apply andb_true_iff in Hq as [Hb Hq]. apply negb_true_iff in Hb.
    rewrite Hb.
    change (a2 :: (lines ++ [] :: h :: more))
      with ((a2 :: lines) ++ [] :: h :: more).
    rewrite IH by (try discriminate; assumption).
    now rewrite <- app_assoc.
Qed.

Lemma read_blocks_last (lines : list pystr) (head : pystr) (body : list pystr) :
  lines <> [] ->
  quiet lines = true ->
  read_blocks head body lines = [(head, join [nl] (body ++ lines))].
Proof.
  revert body. induction lines as [|a lines IH]; intros body Hne Hq;
    [contradiction|].
  destruct lines as [|a2 lines]; [reflexivity|].
  rewrite read_blocks_step. cbn [quiet] in Hq.
  apply andb_true_iff in Hq as [Hb Hq]. apply negb_true_iff in Hb.
  rewrite Hb, IH by (try discriminate; assumption).
  now rewrite <- app_assoc.
Qed.

(** The lines of the blocks of a transcript. *)
Lemma split_lines_blocks (ms : list Message) :
  forallb readable_message ms = true ->
  split_lines (concat (map (fun y => [nl] ++ y) (map block ms)))
  = flat_map (fun m => [] :: header m :: split_lines (content m)) ms ++ [[]].
Proof.
  induction ms as [|m ms IH]; intros H; [reflexivity|].
  cbn [forallb] in H. apply andb_true_iff in H as [Hm Hms].
  unfold readable_message in Hm.
  apply andb_true_iff in Hm as [Hm _]. apply andb_true_iff in Hm as [Hm Hn].
  apply andb_true_iff in Hm as [He _].
  assert (Hh : one_line (header m) = true).
  { unfold header. rewrite !one_line_app, He, Hn. reflexivity. }
  cbn [map concat flat_map]. rewrite block_header.
  replace (([nl] ++ header m ++ nl :: content m ++ [nl]) ++
           concat (map (fun y => [nl] ++ y) (map block ms)))
    with ([] ++ nl :: (header m ++ nl :: (content m ++ nl ::
            concat (map (fun y => [nl] ++ y) (map block ms)))))
    by (simpl; rewrite <- !app_assoc; simpl; rewrite <- !app_assoc; reflexivity).
  rewrite !split_lines_app, (split_lines_one_line _ Hh), (IH Hms).
  simpl. now rewrite <- app_assoc.
Qed.

Lemma read_blocks_messages (ms : list Message) (head : pystr)
    (lines : list pystr) :
  forallb readable_message ms = true ->
  lines <> [] ->
  quiet lines = true ->
  read_blocks head []
    (lines ++ flat_map (fun m => [] :: header m :: split_lines (content m)) ms)
  = (head, join [nl] lines) :: map (fun m => (header m, content m)) ms.
Proof.
  revert head lines. induction ms as [|m ms IH]; intros head lines H Hne Hq.
  - simpl. rewrite app_nil_r. now apply read_blocks_last.
  - cbn [forallb] in H. apply andb_true_iff in H as [Hm Hms].
    assert (Hm' := Hm). unfold readable_message in Hm'.
    apply andb_true_iff in Hm' as [Hm' Hc]. apply andb_true_iff in Hm' as [Hm' _].
    apply andb_true_iff in Hm' as [_ Hs].
    cbn [flat_map].
    change (([] :: header m :: split_lines (content m)) ++ ?r)
      with ([] :: header m :: (split_lines (content m) ++ r)).
    rewrite read_blocks_until
      by (try assumption; now apply is_header_header).
    rewrite (IH (header m) (split_lines (content m)) Hms
               (split_lines_nonempty _) Hc).
    simpl. now rewrite join_split_lines.
Qed.

Lemma parse_headers_messages (ms : list Message) :
  forallb readable_message ms = true ->
  parse_headers (map (fun m => (header m, content m)) ms)
  = Some (map shown_parts ms).
Proof.
  induction ms as [|m ms IH]; intros H; [reflexivity|].
  cbn [forallb] in H. apply andb_true_iff in H as [Hm Hms].
  unfold readable_message in Hm.
  apply andb_true_iff in Hm as [Hm _]. apply andb_true_iff in Hm as [Hm _].
  apply andb_true_iff in Hm as [_ Hs].
  cbn [map parse_headers]. now rewrite (parse_header_header m Hs), (IH Hms).
Qed.

Lemma split_lines_head (first topic rest : pystr) :
  one_line first = true ->
  one_line topic = true ->
  split_lines ((first ++ [nl] ++ topic ++ [nl]) ++ rest)
  = first :: topic :: split_lines rest.
Proof.
  intros Hf Ht.
  replace ((first ++ [nl] ++ topic ++ [nl]) ++ rest)
    with (first ++ nl :: (topic ++ nl :: rest)).
  - now rewrite (split_lines_line first _ Hf), (split_lines_line topic _ Ht).
  - simpl. rewrite <- !app_assoc. simpl. rewrite <- !app_assoc. reflexivity.
Qed.

(** The text of a transcript: the topic block, then a line break and a
    block per message. *)
Lemma transcript_text (d : Discussion) :
  get_transcript d
  = (lit "[User]" ++ [nl] ++ user_input d ++ [nl])
    ++ concat (map (fun y => [nl] ++ y) (map block (messages d))).
Proof. unfold get_transcript. cbv zeta. apply join_cons. Qed.

(** C8, as stated, fails: the text does not determine the messages. A
    content with a blank line and a header-like line reads as two messages:
    two sessions, each left by a run that a backend failure cut short, have
    different messages and the same text, so no reader recovers names and
    contents from every transcript. *)
Lemma no_reader_recovers_every_transcript :
  let one := self (fst (run_discussion example_config two_in_one_backend
                          (Some 1%Z) example_session [])) in
  let two := self (fst (run_discussion example_config two_turns_backend
                          (Some 1%Z) example_session [])) in
  length (messages one) = 1%nat /\
  length (messages two) = 2%nat /\
  get_transcript one = get_transcript two /\
  ~ exists reader : pystr -> list (pystr * pystr),
      forall d, reader (get_transcript d)
                = map (fun m => (persona_name m, content m)) (messages d).
Proof.
  intros one two.
  assert (E : get_transcript one = get_transcript two) by (vm_compute; reflexivity).
  split; [reflexivity|]. split; [reflexivity|]. split; [exact E|].
  intros [reader H].
  pose proof (H one) as H1. pose proof (H two) as H2.
  rewrite E, H2 in H1.
  apply (f_equal (@length _)) in H1. rewrite !length_map in H1.
  vm_compute in H1. discriminate.
Qed.

(** C8 (amended). For a session in which neither the topic nor any
    content holds an empty line directly followed by a line of the form
    [[marker name]], and whose markers and names are free of line breaks,
    the markers being free of spaces too, reading the text of
    [get_transcript] back recovers the marker, the name and the content of
    every message, in transcript order; contents of several lines and
    paragraphs included. *)
Theorem transcript_round_trip (d : Discussion) :
  quiet_text (user_input d) = true ->
  forallb readable_message (messages d) = true ->
  parse_transcript (get_transcript d) = Some (map shown_parts (messages d)).
Proof.
  intros Ht Hms. unfold parse_transcript.
  rewrite transcript_text.
  replace ((lit "[User]" ++ [nl] ++ user_input d ++ [nl]) ++
           concat (map (fun y => [nl] ++ y) (map block (messages d))))
    with (lit "[User]" ++ nl :: (user_input d ++ nl ::
            concat (map (fun y => [nl] ++ y) (map block (messages d)))))
    by (rewrite <- !app_assoc; reflexivity).
  rewrite !split_lines_app, (split_lines_blocks _ Hms).
  change (split_lines (lit "[User]")) with [lit "[User]"].
  cbn [app]. rewrite pystr_eqb_refl, app_assoc, rev_unit.
  cbn [truthy]. rewrite rev_involutive.
  pose proof (read_blocks_messages (messages d) (lit "[User]")
                (split_lines (user_input d)) Hms (split_lines_nonempty _) Ht)
    as E.
  unfold pystr, char in E |- *. rewrite E.
  now apply parse_headers_messages.
Qed.

Lemma transcript_round_trip_witness :
  parse_transcript
    (get_transcript
       (self (fst (run_discussion example_config paragraphs_backend (Some 1%Z)
                     example_session []))))
  = Some (map shown_parts
            (messages
               (self (fst (run_discussion example_config paragraphs_backend
                             (Some 1%Z) example_session []))))).
Proof.
  apply (transcript_round_trip
           (self (fst (run_discussion example_config paragraphs_backend (Some 1%Z)
                         example_session []))));
    vm_compute; reflexivity.
Defined.

(* ================================================================= *)
(** * More on the round loop *)

From Stdlib Require Import Sorted.

(** ** Trimming *)

Lemma lstrip_head (s : pystr) (c : char) :
  hd_error (lstrip s) = Some c -> is_space c = false.
Proof.
  induction s as [|a s IH]; simpl; [discriminate|].
  destruct (is_space a) eqn:E; [exact IH|].
  simpl. intros H. injection H as <-. exact E.
Qed.

Lemma lstrip_app_solid (s : pystr) (c : char) :
  is_space c = false -> lstrip (s ++ [c]) = lstrip s ++ [c].
Proof.
  intros H. induction s as [|a s IH]; simpl.
  - now rewrite H.
  - destruct (is_space a); [exact IH | reflexivity].
Qed.

Lemma strip_trimmed (s : pystr) : trimmed (strip s).
Proof.
  unfold strip, rstrip. split.
  - destruct (lstrip s) as [|c0 t] eqn:E; [simpl; discriminate|].
    assert (H0 : is_space c0 = false) by (apply (lstrip_head s); now rewrite E).
    simpl rev at 2. rewrite (lstrip_app_solid _ c0 H0), rev_unit. simpl.
    intros c H. now injection H as <-.
  - rewrite rev_involutive. intros c. apply lstrip_head.
Qed.

Lemma lstrip_app_blank (s w : pystr) :
  blank w = true -> lstrip s <> [] -> lstrip (s ++ w) = lstrip s ++ w.
Proof.
  intros Hw. induction s as [|a s IH]; simpl; [congruence|].
  destruct (is_space a); [exact IH | reflexivity].
Qed.

Lemma lstrip_blank_app (w s : pystr) :
  blank w = true -> lstrip (w ++ s) = lstrip s.
Proof.
  induction w as [|a w IH]; simpl; [reflexivity|].
  intros H. apply andb_true_iff in H as [Ha Hw]. rewrite Ha. now apply IH.
Qed.

Lemma blank_app (a b : pystr) : blank (a ++ b) = blank a && blank b.
Proof. apply forallb_app. Qed.

Lemma blank_rev (w : pystr) : blank (rev w) = blank w.
Proof.
  induction w as [|a w IH]; [reflexivity|].
  simpl. rewrite blank_app, IH. simpl. rewrite andb_true_r. apply andb_comm.
Qed.

Lemma lstrip_nil_blank (s : pystr) : lstrip s = [] -> blank s = true.
Proof.
  induction s as [|a s IH]; simpl; [reflexivity|].
  destruct (is_space a); [exact IH | discriminate].
Qed.

(** Whitespace after a text does not survive [strip]. *)
Lemma strip_app_blank (s w : pystr) :
  blank w = true -> strip (s ++ w) = strip s.
Proof.
  intros Hw. unfold strip, rstrip.
  destruct (lstrip s) as [|c t] eqn:E.
  - assert (Hb : blank (s ++ w) = true).
    { rewrite blank_app, Hw, (lstrip_nil_blank s E). reflexivity. }
    now rewrite (lstrip_blank (s ++ w) Hb).
  - rewrite (lstrip_app_blank s w Hw) by (rewrite E; discriminate).
    rewrite E, rev_app_distr, lstrip_blank_app by (now rewrite blank_rev).
    reflexivity.
Qed.

(** ** One turn, when it fails *)

Lemma generate_response_raise (cfg : config.Config) (backend : Backend)
    (d : Discussion) (k : pystr) (r : Z) (log log' : list Call) (e : exn) :
  _generate_response cfg backend d k r log = (Raise e, log') ->
  (log' = log /\ e = KeyError k /\
   (dict_get PERSONAS k = None \/ dict_get (clients d) k = None))
  \/
  (exists persona client,
     dict_get PERSONAS k = Some persona /\
     dict_get (clients d) k = Some client /\
     backend log (request cfg d k persona client) = Raise e /\
     log' = log ++ [request cfg d k persona client]).
Proof.
  unfold _generate_response, dict_item.
  destruct (dict_get PERSONAS k) as [persona|] eqn:HP.
  2:{ intros H. injection H as <- <-. left. auto. }
  destruct (dict_get (clients d) k) as [client|] eqn:HC.
  2:{ intros H. injection H as <- <-. left. auto. }
  rewrite (build_chat_history_registered d k persona HP). unfold generate.
  fold (request cfg d k persona client).
  destruct (backend log (request cfg d k persona client)) as [text|e'] eqn:HB;
    [discriminate|].
  intros H. injection H as <- <-. right. exists persona, client. auto.
Qed.

(** ** The calls of a run *)

(** The [i]-th call of a run is the call of the [i]-th turn: it goes to the
    client of the speaker with the speaker's own system prompt and
    temperature, and its context has one entry per message then in the
    transcript, plus two. *)
Lemma run_turns_calls (cfg : config.Config) (backend : Backend)
    (ts : list (Z * pystr)) (st st' : Run) (o : option exn) :
  run_turns cfg backend ts st = (st', o) ->
  exists cs,
    calls st' = calls st ++ cs /\
    (length (yielded st') - length (yielded st) <= length cs
     <= length (yielded st') - length (yielded st) + 1)%nat /\
    (o = None -> length cs = length ts) /\
    forall i c,
      nth_error cs i = Some c ->
      exists r k persona client,
        nth_error ts i = Some (r, k) /\
        dict_get PERSONAS k = Some persona /\
        dict_get (clients (self st)) k = Some client /\
        call_client c = client /\
        call_system_prompt c = system_prompt persona /\
        call_temperature c
        = dict_get_default (config.PERSONA_TEMPERATURES cfg) k (5 # 10) /\
        length (call_messages c) = (length (messages (self st)) + i + 2)%nat.
Proof.
  revert st; induction ts as [|[r k] ts IH]; intros st; simpl.
  - intros H. injection H as <- <-. exists []. rewrite app_nil_r.
    split; [reflexivity|]. split; [simpl; lia|]. split; [reflexivity|].
    intros [|i] c; discriminate.
  - destruct (_generate_response cfg backend (self st) k r (calls st))
      as [[m|e] log] eqn:G.
    + apply generate_response_ok in G
        as (persona & client & text & HP & HC & HB & -> & Hm).
      intros H. pose proof (run_turns_frame cfg backend _ _ _ _ H)
        as (ys & _ & Hy & _).
      apply IH in H as (cs & Hcs & Hlen & Hall & Hnth). simpl in *.
      exists (request cfg (self st) k persona client :: cs).
      rewrite Hcs, <- app_assoc. split; [reflexivity|].
      rewrite Hy in *. rewrite !length_app in *. simpl in *.
      split; [lia|]. split; [intros Ho; now rewrite (Hall Ho)|].
      intros [|i] c Hc; simpl in Hc.
      * injection Hc as <-. exists r, k, persona, client.
        repeat split; try assumption. simpl.
        rewrite length_app, length_map. simpl. lia.
      * destruct (Hnth i c Hc) as (r' & k' & p' & c' & H1 & H2 & H3 & H4 & H5 & H6 & H7).
        exists r', k', p', c'. repeat split; try assumption. lia.
    + intros H. injection H as <- <-. simpl.
      apply generate_response_raise in G
        as [(-> & _ & _) | (persona & client & HP & HC & HB & ->)].
      * exists []. rewrite app_nil_r.
        split; [reflexivity|]. split; [simpl; lia|]. split; [discriminate|].
        intros [|i] c; discriminate.
      * exists [request cfg (self st) k persona client].
        split; [reflexivity|]. split; [simpl; lia|]. split; [discriminate|].
        intros [|i] c Hc; simpl in Hc; [|destruct i; discriminate].
        injection Hc as <-. exists r, k, persona, client.
        repeat split; try assumption. simpl.
        rewrite length_app, length_map. simpl. lia.
Qed.

(** ** The messages of a run *)

Lemma run_turns_messages (cfg : config.Config) (backend : Backend)
    (ts : list (Z * pystr)) (st st' : Run) (o : option exn) :
  run_turns cfg backend ts st = (st', o) ->
  exists ys,
    yielded st' = yielded st ++ ys /\
    Forall (fun m =>
              In (turn_of m) ts /\
              exists persona text,
                dict_get PERSONAS (persona_key m) = Some persona /\
                persona_name m = name persona /\
                emoji m = personas.emoji persona /\
                content m = strip text) ys.
Proof.
  revert st; induction ts as [|[r k] ts IH]; intros st; simpl.
  - intros H. injection H as <- <-. exists []. now rewrite app_nil_r.
  - destruct (_generate_response cfg backend (self st) k r (calls st))
      as [[m|e] log] eqn:G.
    + apply generate_response_ok in G
        as (persona & client & text & HP & _ & _ & _ & Hm).
      intros H. apply IH in H as (ys & Hy & Hall). simpl in Hy.
      exists (m :: ys). rewrite Hy, <- app_assoc. split; [reflexivity|].
      constructor.
      * subst m. split; [left; reflexivity|]. exists persona, text. auto.
      * eapply Forall_impl; [|exact Hall]. intros m' [Hin Hrest].
        split; [now right | exact Hrest].
    + intros H. injection H as <- <-. exists []. simpl. now rewrite app_nil_r.
Qed.

(** ** The schedule, again *)

Lemma sorted_app (a b : list Z) :
  StronglySorted Z.le a -> StronglySorted Z.le b ->
  (forall x y, In x a -> In y b -> (x <= y)%Z) ->
  StronglySorted Z.le (a ++ b).
Proof.
  induction 1 as [|x a Ha IH Hx]; intros Hb Hab; simpl; [exact Hb|].
  constructor.
  - apply IH; [exact Hb|]. intros u v Hu Hv. apply Hab; [now right | exact Hv].
  - apply Forall_app. split; [exact Hx|].
    apply Forall_forall. intros y Hy. apply Hab; [now left | exact Hy].
Qed.

Lemma sorted_prefix (a b : list Z) :
  StronglySorted Z.le (a ++ b) -> StronglySorted Z.le a.
Proof.
  induction a as [|x a IH]; simpl; intros H; [constructor|].
  inversion H as [|? ? Hs Hx]; subst. constructor; [now apply IH|].
  apply Forall_app in Hx. tauto.
Qed.

Lemma sorted_same (r : Z) (l : list Z) :
  (forall x, In x l -> x = r) -> StronglySorted Z.le l.
Proof.
  induction l as [|x l IH]; intros H; constructor.
  - apply IH. intros y Hy. apply H. now right.
  - apply Forall_forall. intros y Hy.
    rewrite (H x (or_introl eq_refl)), (H y (or_intror Hy)). lia.
Qed.

Lemma schedule_rounds_sorted (rounds : Z) (round_nums : list Z)
    (order : list pystr) :
  StronglySorted Z.le round_nums ->
  StronglySorted Z.le (map fst (schedule rounds round_nums order)).
Proof.
  induction 1 as [|r rs Hrs IH Hr]; [constructor|].
  change (schedule rounds (r :: rs) order)
    with (map (pair r) (speakers rounds r order) ++ schedule rounds rs order).
  rewrite map_app. apply sorted_app; [|exact IH|].
  - apply (sorted_same r). intros x Hx.
    apply in_map_iff in Hx as ([r' k] & <- & Hx).
    apply in_map_iff in Hx as (k' & E & _). now injection E as <- _.
  - intros x y Hx Hy.
    apply in_map_iff in Hx as ([r' k] & <- & Hx).
    apply in_map_iff in Hx as (k' & E & _). injection E as <- _.
    apply in_map_iff in Hy as ([r'' k''] & <- & Hy).
    apply schedule_In in Hy as (Hin & _).
    rewrite Forall_forall in Hr. now apply Hr.
Qed.

Lemma range_from_1_sorted (n : Z) : StronglySorted Z.le (range_from_1 n).
Proof.
  unfold range_from_1. generalize 1%nat.
  induction (Z.to_nat n) as [|m IH]; intros a; simpl; constructor.
  - apply IH.
  - apply Forall_forall. intros y Hy.
    apply in_map_iff in Hy as (i & <- & Hi). apply in_seq in Hi. lia.
Qed.

Lemma range_from_1_In (n r : Z) :
  In r (range_from_1 n) <-> (1 <= r <= n)%Z.
Proof.
  unfold range_from_1. rewrite in_map_iff. split.
  - intros (i & <- & Hi). apply in_seq in Hi. lia.
  - intros H. exists (Z.to_nat r). split; [lia|]. apply in_seq. lia.
Qed.

Lemma turns_In (cfg : config.Config) (rounds : option Z) (r : Z) (k : pystr) :
  In (r, k) (turns cfg rounds) <->
  (1 <= r <= rounds_or_default cfg rounds)%Z /\
  In k (active_order cfg) /\
  skips (rounds_or_default cfg rounds) r k = false.
Proof.
  unfold turns, schedule. cbv zeta. rewrite in_flat_map. split.
  - intros (r' & Hr & H). apply in_map_iff in H as (k' & E & H).
    injection E as -> ->. apply filter_In in H as [Hk Hs].
    apply negb_true_iff in Hs. apply range_from_1_In in Hr. auto.
  - intros (Hr & Hk & Hs). exists r. split; [now apply range_from_1_In|].
    apply in_map. apply filter_In. split; [exact Hk|]. now rewrite Hs.
Qed.

Lemma active_order_registered (cfg : config.Config) (k : pystr) :
  In k (active_order cfg) -> exists persona, dict_get PERSONAS k = Some persona.
Proof.
  unfold active_order. intros H.
  assert (H' : In k RESPONSE_ORDER_WITH_SYNTH).
  { destruct (config.ENABLE_SYNTHESIZER cfg); [exact H|].
    simpl in *. tauto. }
  simpl in H'.
  repeat (destruct H' as [<-|H']; [eexists; reflexivity|]). contradiction.
Qed.

(** X1. In any run, complete or cut short, the round numbers of the
    messages yielded never decrease, and each lies between 1 and the
    effective round count. *)
Theorem rounds_in_order (cfg : config.Config) (backend : Backend)
    (rounds : option Z) (d : Discussion) (log : list Call) :
  let ys := yielded (fst (run_discussion cfg backend rounds d log)) in
  StronglySorted Z.le (map round_num ys) /\
  Forall (fun m => (1 <= round_num m <= rounds_or_default cfg rounds)%Z) ys.
Proof.
  intros ys. subst ys. rewrite run_discussion_turns.
  destruct (run_turns cfg backend (turns cfg rounds) (start d log))
    as [st o] eqn:E.
  apply run_turns_frame in E as (ys & post & Hy & _ & _ & _ & Hts & _).
  simpl in *. subst ys. split.
  - assert (Hs : StronglySorted Z.le (map fst (turns cfg rounds))).
    { apply schedule_rounds_sorted, range_from_1_sorted. }
    rewrite Hts, map_app, map_map in Hs. now apply sorted_prefix in Hs.
  - apply Forall_forall. intros m Hm.
    assert (Hin : In (turn_of m) (turns cfg rounds)).
    { rewrite Hts. apply in_or_app. left. now apply in_map. }
    now apply turns_In in Hin.
Qed.

(** X2. A run that ends without an exception has taken every turn of the
    schedule, once and in order: round after round, and within a round the
    personas in the order of the active speaking order. It has made
    exactly one backend call per message. *)
Theorem completed_run_follows_schedule (cfg : config.Config) (backend : Backend)
    (rounds : option Z) (d : Discussion) (log : list Call) :
  snd (run_discussion cfg backend rounds d log) = None ->
  let st := fst (run_discussion cfg backend rounds d log) in
  map turn_of (yielded st) = turns cfg rounds /\
  length (calls st) = (length log + length (yielded st))%nat.
Proof.
  rewrite run_discussion_turns.
  destruct (run_turns cfg backend (turns cfg rounds) (start d log))
    as [st o] eqn:E.
  simpl. intros ->.
  pose proof (run_turns_calls cfg backend _ _ _ _ E) as (cs & Hcs & _ & Hlen & _).
  apply run_turns_frame in E as (ys & post & Hy & _ & _ & _ & Hts & ->).
  simpl in *. subst ys. rewrite app_nil_r in Hts. split; [now symmetry|].
  rewrite Hcs, length_app, (Hlen eq_refl), Hts, length_map. reflexivity.
Qed.

Lemma completed_run_follows_schedule_witness :
  map turn_of (yielded (fst (run_discussion example_config steady_backend
                               (Some 2%Z) example_session [])))
  = turns example_config (Some 2%Z).
Proof.
  apply (completed_run_follows_schedule example_config steady_backend
           (Some 2%Z) example_session []).
  vm_compute. reflexivity.
Defined.


(** X4. The calls a run adds to the log follow the schedule: the [i]-th
    new call is made for the [i]-th turn, to the client bound to its
    speaker, with that speaker's system prompt and configured temperature
    (0.5 when none is configured), and with a context of [i + 2] entries
    more than the transcript held at the start. A run makes as many calls
    as it yields messages, or one more when it ends on a failed call. *)
Theorem calls_follow_turns (cfg : config.Config) (backend : Backend)
    (rounds : option Z) (d : Discussion) (log : list Call) :
  let st := fst (run_discussion cfg backend rounds d log) in
  exists cs,
    calls st = log ++ cs /\
    (length (yielded st) <= length cs <= length (yielded st) + 1)%nat /\
    forall i c,
      nth_error cs i = Some c ->
      exists r k persona client,
        nth_error (turns cfg rounds) i = Some (r, k) /\
        dict_get PERSONAS k = Some persona /\
        dict_get (clients d) k = Some client /\
        call_client c = client /\
        call_system_prompt c = system_prompt persona /\
        call_temperature c
        = dict_get_default (config.PERSONA_TEMPERATURES cfg) k (5 # 10) /\
        length (call_messages c) = (length (messages d) + i + 2)%nat.
Proof.
  rewrite run_discussion_turns.
  destruct (run_turns cfg backend (turns cfg rounds) (start d log))
    as [st o] eqn:E.
  apply run_turns_calls in E as (cs & Hcs & Hlen & _ & Hnth).
  simpl in *. exists cs. split; [exact Hcs|]. split; [lia | exact Hnth].
Qed.

(** X5. A negative round count runs no round: no message, no backend
    call, no exception, and the session is left as it was. *)
Theorem negative_rounds_do_nothing (cfg : config.Config) (backend : Backend)
    (R : Z) (d : Discussion) (log : list Call) :
  (R < 0)%Z ->
  run_discussion cfg backend (Some R) d log
  = ({| self := d; calls := log; yielded := [] |}, None).
Proof.
  intros H. unfold run_discussion, rounds_or_default.
  destruct (R =? 0)%Z eqn:E; [lia|].
  unfold range_from_1. replace (Z.to_nat R) with 0%nat by lia. reflexivity.
Qed.

Lemma negative_rounds_do_nothing_witness :
  run_discussion example_config steady_backend (Some (-2)%Z) example_session []
  = ({| self := example_session; calls := []; yielded := [] |}, None).
Proof.
  apply (negative_rounds_do_nothing example_config steady_backend (-2)
           example_session []).
  lia.
Defined.

(** X6. With a backend that always answers and at least one round to run,
    a run completes exactly when every persona of the active speaking order
    has a client in the session; when it does not complete, the exception is
    the [KeyError] of a persona of the order that has no client. *)
Theorem answering_run_completes_iff_bound (cfg : config.Config)
    (backend : Backend) (rounds : option Z) (d : Discussion) (log : list Call) :
  always_answers backend ->
  (1 <= rounds_or_default cfg rounds)%Z ->
  (snd (run_discussion cfg backend rounds d log) = None <->
   forall k, In k (active_order cfg) -> dict_get (clients d) k <> None)
  /\
  (forall e,
     snd (run_discussion cfg backend rounds d log) = Some e ->
     exists k, In k (active_order cfg) /\ dict_get (clients d) k = None /\
               e = KeyError k).
Proof.
  intros HB HR. split; [split|].
  - rewrite run_discussion_turns.
    destruct (run_turns cfg backend (turns cfg rounds) (start d log))
      as [st o] eqn:E.
    simpl. intros -> k Hk.
    apply run_turns_calls in E as (cs & _ & _ & Hlen & Hnth). simpl in *.
    assert (Hin : In (rounds_or_default cfg rounds, k) (turns cfg rounds)).
    { apply turns_In. split; [lia|]. split; [exact Hk|].
      destruct (skips _ _ k) eqn:Es; [|reflexivity].
      apply skips_iff in Es. lia. }
    apply In_nth_error in Hin as [i Hi].
    destruct (nth_error cs i) as [c|] eqn:Hc.
    + destruct (Hnth i c Hc) as (r' & k' & p & cl & H1 & _ & H3 & _).
      rewrite Hi in H1. injection H1 as <- <-. congruence.
    + apply nth_error_None in Hc. rewrite (Hlen eq_refl) in Hc.
      assert (i < length (turns cfg rounds))%nat
        by (apply nth_error_Some; congruence).
      lia.
  - intros Hbound.
    apply (run_discussion_complete cfg backend rounds d log HB).
    intros k Hk. split; [|now apply Hbound].
    destruct (active_order_registered cfg k Hk) as [p Hp]. congruence.
  - rewrite run_discussion_turns.
    destruct (run_turns cfg backend (turns cfg rounds) (start d log))
      as [st o] eqn:E.
    simpl. intros e ->.
    apply run_turns_frame in E
      as (ys & post & _ & _ & _ & Hc & Hts & t & post' & lg & -> & Hg & _).
    destruct t as [r k]. simpl in *.
    assert (Hk : In k (active_order cfg)).
    { assert (Hin : In (r, k) (turns cfg rounds)).
      { rewrite Hts. apply in_or_app. right. now left. }
      now apply turns_In in Hin. }
    apply generate_response_raise in Hg
      as [(_ & -> & [HP|HC]) | (persona & client & _ & _ & HBr & _)].
    + destruct (active_order_registered cfg k Hk) as [p Hp]. congruence.
    + exists k. rewrite Hc in HC. auto.
    + destruct (HB lg (request cfg (self st) k persona client)) as [text Ht].
      congruence.
Qed.

Lemma answering_run_completes_iff_bound_witness :
  snd (run_discussion example_config steady_backend (Some 1%Z)
         example_session []) = None.
Proof.
  destruct (answering_run_completes_iff_bound example_config steady_backend
              (Some 1%Z) example_session []
              steady_backend_answers ltac:(simpl; lia)) as [[_ H] _].
  apply H. intros k Hk. now apply example_session_bound_active.
Defined.

(** X7. In a run that ends without an exception, with at least one round,
    every persona of the active speaking order has a message in the last
    round: the synthesizer, when enabled, always speaks in the final
    round. *)
Theorem final_round_is_full (cfg : config.Config) (backend : Backend)
    (rounds : option Z) (d : Discussion) (log : list Call) :
  snd (run_discussion cfg backend rounds d log) = None ->
  (1 <= rounds_or_default cfg rounds)%Z ->
  forall k,
    In k (active_order cfg) ->
    exists m,
      In m (yielded (fst (run_discussion cfg backend rounds d log))) /\
      persona_key m = k /\
      round_num m = rounds_or_default cfg rounds.
Proof.
  rewrite run_discussion_turns. intros Ho HR k Hk.
  destruct (run_turns cfg backend (turns cfg rounds) (start d log))
    as [st o] eqn:E.
  simpl in Ho. subst o.
  apply run_turns_frame in E as (ys & post & Hy & _ & _ & _ & Hts & ->).
  simpl in Hy. subst ys. rewrite app_nil_r in Hts. symmetry in Hts.
  assert (Hin : In (rounds_or_default cfg rounds, k) (turns cfg rounds)).
  { apply turns_In. split; [lia|]. split; [exact Hk|].
    destruct (skips _ _ k) eqn:Es; [|reflexivity].
    apply skips_iff in Es. lia. }
  rewrite <- Hts in Hin. apply in_map_iff in Hin as (m & E & Hm).
  exists m. unfold turn_of in E. injection E as Hr Hkey. auto.
Qed.

Lemma final_round_is_full_witness :
  exists m,
    In m (yielded (fst (run_discussion example_config steady_backend
                          (Some 2%Z) example_session []))) /\
    persona_key m = lit "synthesizer" /\ round_num m = 2%Z.
Proof.
  apply (final_round_is_full example_config steady_backend (Some 2%Z)
           example_session []).
  - vm_compute. reflexivity.
  - simpl. lia.
  - simpl. auto 10.
Defined.

(* ================================================================= *)
(** * More on backend binding *)

Lemma dict_get_set_same {V} (d : dict V) (k : pystr) (v : V) :
  dict_get (dict_set d k v) k = Some v.
Proof.
  induction d as [|[k' v'] d IH]; simpl.
  - now rewrite pystr_eqb_refl.
  - destruct (pystr_eqb k' k) eqn:E; simpl; rewrite E; [reflexivity | exact IH].
Qed.

Lemma dict_get_set_other {V} (d : dict V) (k k0 : pystr) (v : V) :
  k <> k0 -> dict_get (dict_set d k v) k0 = dict_get d k0.
Proof.
  intros Hne. induction d as [|[k' v'] d IH]; simpl.
  - apply pystr_eqb_neq in Hne. now rewrite Hne.
  - destruct (pystr_eqb k' k) eqn:E; simpl.
    + apply pystr_eqb_eq in E. subst k'.
      apply pystr_eqb_neq in Hne. now rewrite Hne.
    + destruct (pystr_eqb k' k0); [reflexivity | exact IH].
Qed.

Lemma dict_set_head {V} (d : dict V) (k0 k : pystr) (v0 v : V) :
  k0 <> k -> hd_error (dict_set ((k0, v0) :: d) k v) = Some (k0, v0).
Proof.
  intros Hne. simpl. apply pystr_eqb_neq in Hne. now rewrite Hne.
Qed.



(** *** One provider for all *)

Lemma bind_all_get (client : Client) (order : list pystr) (clients : dict Client)
    (k : pystr) :
  dict_get
    (fold_left (fun clients persona_key => dict_set clients persona_key client)
       order clients) k
  = if in_dec (list_eq_dec N.eq_dec) k order then Some client
    else dict_get clients k.
Proof.
  revert clients; induction order as [|p order IH]; intros clients; simpl;
    [reflexivity|].
  rewrite IH.
  destruct (in_dec (list_eq_dec N.eq_dec) k order) as [Hin|Hnin].
  - destruct (list_eq_dec N.eq_dec p k); reflexivity.
  - destruct (list_eq_dec N.eq_dec p k) as [->|Hne].
    + apply dict_get_set_same.
    + now apply dict_get_set_other.
Qed.

Lemma dict_set_values {V} (d : dict V) (k : pystr) (v : V) :
  Forall (fun kv => snd kv = v) d ->
  Forall (fun kv => snd kv = v) (dict_set d k v) /\ dict_set d k v <> [].
Proof.
  induction 1 as [|[k' v'] d Hv Hd IH]; simpl.
  - split; [repeat constructor | discriminate].
  - simpl in Hv. subst v'. destruct (pystr_eqb k' k).
    + split; [now constructor | discriminate].
    + split; [constructor; [reflexivity | apply IH] | discriminate].
Qed.

Lemma bind_all_values (client : Client) (order : list pystr) (clients : dict Client) :
  Forall (fun kv => snd kv = client) clients ->
  (order <> [] \/ clients <> []) ->
  Forall (fun kv => snd kv = client)
    (fold_left (fun clients persona_key => dict_set clients persona_key client)
       order clients)
  /\ fold_left (fun clients persona_key => dict_set clients persona_key client)
       order clients <> [].
Proof.
  revert clients; induction order as [|p order IH]; intros clients Hall Hne; simpl.
  - split; [exact Hall | tauto].
  - destruct (dict_set_values clients p client Hall) as [H1 H2].
    apply IH; [exact H1 | now right].
Qed.

(** X9. In single-provider mode with a supported provider, constructing a
    session succeeds for every topic, starts with an empty transcript, and
    binds one and the same client to every persona of the active speaking
    order and to no other key; that client is also the one the
    post-processors pick. *)
Theorem uniform_mode_shares_one_client (cfg : config.Config) (topic : pystr) :
  pystr_eqb (config.LLM_PROVIDER cfg) (lit "mixed") = false ->
  supported (config.LLM_PROVIDER cfg) = true ->
  exists d client,
    new cfg topic = Ok d /\
    user_input d = topic /\
    messages d = [] /\
    (forall k, In k (active_order cfg) -> dict_get (clients d) k = Some client) /\
    (forall k, ~ In k (active_order cfg) -> dict_get (clients d) k = None) /\
    first_client d = Ok client.
Proof.
  intros Hmode Hsup. unfold new, __init__, _setup_clients. rewrite Hmode.
  destruct (create_client_supported (config.OLLAMA_TIMEOUT cfg)
              (config.LLM_PROVIDER cfg)
              (_get_api_key cfg (config.LLM_PROVIDER cfg))
              (dict_get_default (config.MODELS cfg) (config.LLM_PROVIDER cfg) [])
              Hsup) as [client Hc].
  rewrite Hc. simpl. eexists. exists client.
  split; [reflexivity|]. split; [reflexivity|]. split; [reflexivity|].
  simpl. split; [|split].
  - intros k Hk. rewrite bind_all_get.
    destruct (in_dec (list_eq_dec N.eq_dec) k (active_order cfg));
      [reflexivity | contradiction].
  - intros k Hk. rewrite bind_all_get.
    destruct (in_dec (list_eq_dec N.eq_dec) k (active_order cfg));
      [contradiction | reflexivity].
  - destruct (bind_all_values client (active_order cfg) []) as [Hall Hne].
    + constructor.
    + left. unfold active_order.
      destruct (config.ENABLE_SYNTHESIZER cfg); discriminate.
    + unfold first_client, dict_values. simpl.
      destruct (fold_left
                  (fun clients persona_key => dict_set clients persona_key client)
                  (active_order cfg) []) as [|[k v] rest];
        [contradiction|].
      simpl. apply Forall_inv in Hall. simpl in Hall. now rewrite Hall.
Qed.

Lemma uniform_mode_shares_one_client_witness :
  exists d client,
    new (config.set_ENABLE_SYNTHESIZER
           {| config.GROQ_API_KEY := lit "key";
              config.GOOGLE_API_KEY := [];
              config.HUGGINGFACE_API_KEY := [];
              config.LLM_PROVIDER := lit "groq";
              config.MIXED_ASSIGNMENTS := [];
              config.MODELS := config.MODELS example_config;
              config.OLLAMA_BASE_URL := [];
              config.OLLAMA_TIMEOUT := 180;
              config.MAX_ROUNDS := 3;
              config.ENABLE_SYNTHESIZER := true;
              config.PERSONA_TEMPERATURES := [] |} false) example_topic = Ok d /\
    first_client d = Ok client.
Proof.
  destruct (uniform_mode_shares_one_client
              (config.set_ENABLE_SYNTHESIZER
                 {| config.GROQ_API_KEY := lit "key";
                    config.GOOGLE_API_KEY := [];
                    config.HUGGINGFACE_API_KEY := [];
                    config.LLM_PROVIDER := lit "groq";
                    config.MIXED_ASSIGNMENTS := [];
                    config.MODELS := config.MODELS example_config;
                    config.OLLAMA_BASE_URL := [];
                    config.OLLAMA_TIMEOUT := 180;
                    config.MAX_ROUNDS := 3;
                    config.ENABLE_SYNTHESIZER := true;
                    config.PERSONA_TEMPERATURES := [] |} false) example_topic
              eq_refl eq_refl) as (d & client & Hn & _ & _ & _ & _ & Hf).
  exists d, client. split; [exact Hn | exact Hf].
Defined.

(** *** A provider per persona *)

(** The loop over the assignments, when every kind is supported: it ends
    normally; keys without an assignment keep their binding, keys with one
    are bound, and the first key already present, if it has no assignment,
    stays first with its client. *)
Lemma setup_mixed_supported (cfg : config.Config)
    (items : list (pystr * config.assignment)) (clients : dict Client) :
  (forall k a, In (k, a) items ->
     exists kind, declared_kind a = Ok kind /\ supported kind = true) ->
  exists bound,
    setup_mixed cfg items clients = Ok bound /\
    (forall k, ~ In k (map fst items) -> dict_get bound k = dict_get clients k) /\
    (forall k, In k (map fst items) -> dict_get bound k <> None) /\
    (NoDup (map fst items) ->
     forall k a, In (k, a) items ->
       exists kind model client,
         provider_and_model cfg a = Ok (kind, model) /\
         create_client (config.OLLAMA_TIMEOUT cfg) kind (_get_api_key cfg kind) model
         = Ok client /\
         dict_get bound k = Some client) /\
    (forall k0 v0 rest,
       clients = (k0, v0) :: rest -> ~ In k0 (map fst items) ->
       hd_error bound = Some (k0, v0)).
Proof.
  revert clients; induction items as [|[k a] items IH]; intros clients Hok.
  - exists clients. simpl. split; [reflexivity|]. split; [reflexivity|].
    split; [tauto|]. split; [intros _ k a []|].
    intros k0 v0 rest -> _. reflexivity.
  - destruct (Hok k a (or_introl eq_refl)) as (kind & Hkind & Hsup).
    destruct (provider_and_model_kind cfg a kind Hkind) as [model Hpm].
    destruct (create_client_supported (config.OLLAMA_TIMEOUT cfg) kind
                (_get_api_key cfg kind) model Hsup) as [client Hc].
    destruct (IH (dict_set clients k client)) as (bound & Hb & Hkeep & Hin & Hnd & Hhd).
    { intros k' a' H. apply (Hok k' a'). now right. }
    exists bound. simpl. rewrite Hpm. simpl. rewrite Hc. simpl.
    split; [exact Hb|]. split; [|split; [|split]].
    + intros k' Hk'. rewrite Hkeep by tauto.
      apply dict_get_set_other. intros ->. apply Hk'. now left.
    + intros k' [<-|Hk'].
      * destruct (in_dec (list_eq_dec N.eq_dec) k (map fst items)) as [Hi|Hn].
        -- now apply Hin.
        -- rewrite (Hkeep k Hn), dict_get_set_same. discriminate.
      * now apply Hin.
    + intros Hnodup k' a' [E|Hk'].
      * injection E as <- <-. inversion Hnodup as [|? ? Hnot _]; subst.
        exists kind, model, client. split; [exact Hpm|]. split; [exact Hc|].
        rewrite (Hkeep k Hnot). apply dict_get_set_same.
      * inversion Hnodup as [|? ? _ Hnd']; subst. now apply (Hnd Hnd' k' a').
    + intros k0 v0 rest -> Hnot. simpl in Hnot.
      assert (Hne : k0 <> k) by (intros ->; tauto).
      eapply Hhd; [|tauto].
      simpl. apply pystr_eqb_neq in Hne. rewrite Hne. reflexivity.
Qed.

(** X10. In mixed mode, when every entry of [MIXED_ASSIGNMENTS] declares a
    supported kind, constructing a session succeeds for every topic and
    binds exactly the personas that have an entry; with distinct keys, each
    persona gets the client created for the kind and model of its own entry,
    and the post-processors pick the client of the first entry. *)
Theorem mixed_mode_binds_assigned (cfg : config.Config) (topic : pystr) :
  pystr_eqb (config.LLM_PROVIDER cfg) (lit "mixed") = true ->
  kinds_supported cfg ->
  exists d,
    new cfg topic = Ok d /\
    (forall k, dict_get (clients d) k <> None <-> In k (assigned cfg)) /\
    (NoDup (assigned cfg) ->
     (forall k a, In (k, a) (config.MIXED_ASSIGNMENTS cfg) ->
        exists kind model client,
          provider_and_model cfg a = Ok (kind, model) /\
          create_client (config.OLLAMA_TIMEOUT cfg) kind (_get_api_key cfg kind) model
          = Ok client /\
          dict_get (clients d) k = Some client) /\
     (forall k a later,
        config.MIXED_ASSIGNMENTS cfg = (k, a) :: later ->
        exists client,
          dict_get (clients d) k = Some client /\ first_client d = Ok client)).
Proof.
  intros Hmode Hok. unfold new, __init__, _setup_clients. rewrite Hmode.
  destruct (setup_mixed_supported cfg (config.MIXED_ASSIGNMENTS cfg) [] Hok)
    as (bound & Hb & Hkeep & Hin & Hnd & _).
  rewrite Hb. simpl. eexists. split; [reflexivity|]. simpl.
  split; [|intros Hnodup; split].
  - intros k. split; [|apply Hin].
    intros Hk. destruct (in_dec (list_eq_dec N.eq_dec) k (assigned cfg)) as [H|H];
      [exact H|].
    rewrite (Hkeep k H) in Hk. now contradiction Hk.
  - now apply Hnd.
  - intros k a later E. unfold assigned, kinds_supported in *. rewrite E in *.
    destruct (Hok k a (or_introl eq_refl)) as (kind & Hkind & Hsup).
    destruct (provider_and_model_kind cfg a kind Hkind) as [model Hpm].
    destruct (create_client_supported (config.OLLAMA_TIMEOUT cfg) kind
                (_get_api_key cfg kind) model Hsup) as [client Hc].
    simpl in Hb. rewrite Hpm in Hb. simpl in Hb. rewrite Hc in Hb. simpl in Hb.
    inversion Hnodup as [|? ? Hnot Hnd']; subst.
    destruct (setup_mixed_supported cfg later [(k, client)])
      as (bound' & Hb' & Hkeep' & _ & _ & Hhd').
    { intros k' a' H. apply (Hok k' a'). now right. }
    rewrite Hb' in Hb. injection Hb as ->.
    exists client. split.
    + rewrite (Hkeep' k Hnot). simpl. now rewrite pystr_eqb_refl.
    + unfold first_client, dict_values.
      pose proof (Hhd' k client [] eq_refl Hnot) as Hh.
      destruct bound as [|[k1 v1] rest]; [discriminate|].
      simpl in Hh. injection Hh as -> ->. reflexivity.
Qed.

Lemma mixed_mode_binds_assigned_witness :
  exists d,
    new example_config example_topic = Ok d /\
    first_client d
    = Ok (OllamaClient (lit "llama3.2") (lit "http://localhost:11434") 180).
Proof.
  destruct (mixed_mode_binds_assigned example_config example_topic eq_refl)
    as (d & Hn & _ & H).
  - intros k a Hin. simpl in Hin.
    repeat (destruct Hin as [Hin|Hin];
            [injection Hin as <- <-; eexists; split; reflexivity|]).
    contradiction.
  - exists d. split; [exact Hn|].
    assert (Hnd : NoDup (assigned example_config)).
    { unfold assigned. simpl. repeat constructor; simpl; intuition discriminate. }
    destruct (H Hnd) as [_ Hfirst].
    destruct (Hfirst _ _ _ eq_refl) as (client & Hk & Hf).
    rewrite Hf. f_equal.
    rewrite example_session_new in Hn. injection Hn as <-.
    vm_compute in Hk. now injection Hk as <-.
Defined.

(* ================================================================= *)
(** * More on the transcript text *)

(** X11. The transcript text only grows: appending a message adds a line
    break and the block of the message after the text already there, and
    after any run the text is the text before the run followed by the
    blocks of the messages yielded, in order. *)
Theorem transcript_grows (cfg : config.Config) (backend : Backend)
    (rounds : option Z) (d : Discussion) (log : list Call) (m : Message) :
  get_transcript (append_message d m) = get_transcript d ++ [nl] ++ block m
  /\
  let st := fst (run_discussion cfg backend rounds d log) in
  get_transcript (self st)
  = get_transcript d ++ concat (map (fun y => [nl] ++ block y) (yielded st)).
Proof.
  split.
  - rewrite !transcript_text. unfold append_message. simpl messages.
    simpl user_input. rewrite !map_app, concat_app. simpl.
    rewrite app_nil_r, <- !app_assoc. reflexivity.
  - rewrite run_discussion_turns.
    destruct (run_turns cfg backend (turns cfg rounds) (start d log))
      as [st o] eqn:E.
    apply run_turns_frame in E as (ys & post & Hy & Hm & Hu & _).
    simpl in *. subst ys. rewrite !transcript_text, Hm, Hu.
    rewrite !map_app, concat_app, !map_map, <- !app_assoc. reflexivity.
Qed.

(* ================================================================= *)
(** * The prompts of the clients *)

Lemma fold_left_append {A} (f : A -> pystr) (l : list A) (init : pystr) :
  fold_left (fun acc x => acc ++ f x) l init = init ++ concat (map f l).
Proof.
  revert init; induction l as [|x l IH]; intros init; simpl.
  - now rewrite app_nil_r.
  - now rewrite IH, <- app_assoc.
Qed.

(** The line [GoogleClient.generate] writes for a transcript message in the
    context of [S]. *)
Lemma google_line (S : pystr) (msg : Message) :
  (if pystr_eqb (role (message_entry S msg)) (lit "assistant")
   then lit "You" else lit "Other")
  = if pystr_eqb (persona_key msg) S then lit "You" else lit "Other".
Proof.
  unfold message_entry. simpl.
  destruct (pystr_eqb (persona_key msg) S); reflexivity.
Qed.

(** X12. The prompt [GoogleClient.generate] builds from the context of a
    registered speaker [S] keeps every entry, in order, one per line: the
    topic and the closing instruction are labelled [Other], and a
    transcript message is labelled [You] exactly when [S] is its author. *)
Theorem google_prompt_labels (d : Discussion) (S system_prompt : pystr)
    (persona : Persona) (history : list Entry) :
  dict_get PERSONAS S = Some persona ->
  _build_chat_history d S = Ok history ->
  client_format.full_prompt system_prompt history
  = system_prompt ++ [nl; nl] ++ lit "Conversation so far:" ++ [nl]
    ++ (lit "Other: " ++ lit "[User] " ++ user_input d ++ [nl])
    ++ concat
         (map (fun msg =>
                 (if pystr_eqb (persona_key msg) S then lit "You" else lit "Other")
                 ++ lit ": " ++ lit "[" ++ persona_name msg ++ lit "] "
                 ++ content msg ++ [nl])
            (messages d))
    ++ (lit "Other: "
        ++ lit "Now respond naturally as yourself (" ++ name persona
        ++ lit ") to this ongoing discussion. Keep it conversational and chat-like."
        ++ [nl])
    ++ [nl] ++ lit "Your response:".
Proof.
  intros HP Hh. rewrite (build_chat_history_registered d S persona HP) in Hh.
  injection Hh as <-. unfold client_format.full_prompt. cbv zeta.
  rewrite (fold_left_append
             (fun msg =>
                (if pystr_eqb (role msg) (lit "assistant")
                 then lit "You" else lit "Other")
                ++ lit ": " ++ llm_clients.content msg ++ [nl])).
  cbn [map concat]. rewrite map_app, concat_app, map_map. cbn [map concat].
  rewrite app_nil_r.
  rewrite map_ext
    with (g := fun msg =>
                 (if pystr_eqb (persona_key msg) S then lit "You" else lit "Other")
                 ++ lit ": " ++ lit "[" ++ persona_name msg ++ lit "] "
                 ++ content msg ++ [nl]).
  2:{ intros msg. rewrite google_line. unfold message_entry.
      cbn [llm_clients.content]. now rewrite <- !app_assoc. }
  unfold topic_entry, prompt_entry. cbn [role llm_clients.content].
  change (pystr_eqb (lit "user") (lit "assistant")) with false. cbv iota.
  rewrite <- !app_assoc. reflexivity.
Qed.

Lemma google_prompt_labels_witness :
  exists history,
    _build_chat_history example_session (lit "logical") = Ok history /\
    hd_error (client_format.full_prompt (lit "Be brief.") history) = Some 66%N.
Proof.
  eexists. split; [reflexivity|].
  rewrite (google_prompt_labels example_session (lit "logical") (lit "Be brief.")
             {| name := lit "Logical Thinker"; personas.emoji := [129504%N];
                system_prompt := logical_system_prompt |} _ eq_refl eq_refl).
  reflexivity.
Defined.

Lemma fold_left_ext_append {A} (step : pystr -> A -> pystr) (f : A -> pystr)
    (l : list A) (init : pystr) :
  (forall acc x, step acc x = acc ++ f x) ->
  fold_left step l init = init ++ concat (map f l).
Proof.
  intros H. revert init; induction l as [|x l IH]; intros init; simpl.
  - now rewrite app_nil_r.
  - now rewrite IH, H, <- app_assoc.
Qed.

(** X13. The prompt [HuggingFaceClient.generate] builds from the context of
    a registered speaker [S] opens one instruction, keeps every entry in
    order, and ends by closing the instruction right after the closing
    instruction entry: the topic and the messages of others are plain lines,
    and each message of [S] closes the running instruction, is given as the
    answer, and opens a new instruction. *)
Theorem huggingface_prompt_turns (d : Discussion) (S system_prompt : pystr)
    (persona : Persona) (history : list Entry) :
  dict_get PERSONAS S = Some persona ->
  _build_chat_history d S = Ok history ->
  client_format.prompt system_prompt history
  = lit "<s>[INST] " ++ system_prompt ++ [nl; nl]
    ++ (lit "[User] " ++ user_input d ++ [nl])
    ++ concat
         (map (fun msg =>
                 if pystr_eqb (persona_key msg) S then
                   lit "[/INST] " ++ lit "[" ++ persona_name msg ++ lit "] "
                   ++ content msg ++ lit " </s><s>[INST] "
                 else
                   lit "[" ++ persona_name msg ++ lit "] " ++ content msg ++ [nl])
            (messages d))
    ++ (lit "Now respond naturally as yourself (" ++ name persona
        ++ lit ") to this ongoing discussion. Keep it conversational and chat-like."
        ++ [nl])
    ++ lit "[/INST]".
Proof.
  intros HP Hh. rewrite (build_chat_history_registered d S persona HP) in Hh.
  injection Hh as <-. unfold client_format.prompt. cbv zeta.
  rewrite (fold_left_ext_append _
             (fun msg =>
                if pystr_eqb (role msg) (lit "user")
                then llm_clients.content msg ++ [nl]
                else lit "[/INST] " ++ llm_clients.content msg
                     ++ lit " </s><s>[INST] "))
    by (intros acc x; destruct (pystr_eqb (role x) (lit "user")); reflexivity).
  cbn [map concat]. rewrite map_app, concat_app, map_map. cbn [map concat].
  rewrite app_nil_r.
  rewrite map_ext
    with (g := fun msg =>
                 if pystr_eqb (persona_key msg) S then
                   lit "[/INST] " ++ lit "[" ++ persona_name msg ++ lit "] "
                   ++ content msg ++ lit " </s><s>[INST] "
                 else
                   lit "[" ++ persona_name msg ++ lit "] " ++ content msg ++ [nl]).
  2:{ intros msg. unfold message_entry. cbn [role llm_clients.content].
      destruct (pystr_eqb (persona_key msg) S).
      - change (pystr_eqb (lit "assistant") (lit "user")) with false. cbv iota.
        now rewrite <- !app_assoc.
      - change (pystr_eqb (lit "user") (lit "user")) with true. cbv iota.
        now rewrite <- !app_assoc. }
  unfold topic_entry, prompt_entry. cbn [role llm_clients.content].
  change (pystr_eqb (lit "user") (lit "user")) with true. cbv iota.
  rewrite <- !app_assoc. reflexivity.
Qed.

Lemma huggingface_prompt_turns_witness :
  exists history,
    _build_chat_history example_session (lit "logical") = Ok history /\
    hd_error (rev (client_format.prompt (lit "Be brief.") history)) = Some 93%N.
Proof.
  eexists. split; [reflexivity|].
  rewrite (huggingface_prompt_turns example_session (lit "logical")
             (lit "Be brief.")
             {| name := lit "Logical Thinker"; personas.emoji := [129504%N];
                system_prompt := logical_system_prompt |} _ eq_refl eq_refl).
  reflexivity.
Defined.

(* ================================================================= *)
(** * The display *)

Lemma registered_names (k : pystr) (persona : Persona) :
  dict_get PERSONAS k = Some persona ->
  In (name persona)
    [lit "Logical Thinker"; lit "Creative Thinker"; lit "Skeptical Thinker";
     lit "Practical Thinker"; lit "Neutral Synthesizer"].
Proof.
  unfold PERSONAS. cbn [dict_get].
  destruct (pystr_eqb (lit "logical") k);
    [intros H; injection H as <-; cbn [name]; auto 10 with datatypes|].
  destruct (pystr_eqb (lit "creative") k);
    [intros H; injection H as <-; cbn [name]; auto 10 with datatypes|].
  destruct (pystr_eqb (lit "skeptical") k);
    [intros H; injection H as <-; cbn [name]; auto 10 with datatypes|].
  destruct (pystr_eqb (lit "practical") k);
    [intros H; injection H as <-; cbn [name]; auto 10 with datatypes|].
  destruct (pystr_eqb (lit "synthesizer") k);
    [intros H; injection H as <-; cbn [name]; auto 10 with datatypes|].
  discriminate.
Qed.

(** X14. Every message a run yields is printed in the colour of its
    persona, never in the default white: each display name of the registry
    has an entry in the style map of [print_message]. *)
Theorem messages_have_a_colour (cfg : config.Config) (backend : Backend)
    (rounds : option Z) (d : Discussion) (log : list Call) :
  Forall (fun m => display.color (persona_name m) <> lit "white")
    (yielded (fst (run_discussion cfg backend rounds d log))).
Proof.
  rewrite run_discussion_turns.
  destruct (run_turns cfg backend (turns cfg rounds) (start d log))
    as [st o] eqn:E.
  apply run_turns_messages in E as (ys & Hy & Hall). simpl in *. subst ys.
  eapply Forall_impl; [|exact Hall].
  intros m (_ & persona & text & HP & Hn & _). rewrite Hn.
  apply registered_names in HP. simpl in HP.
  repeat (destruct HP as [<-|HP]; [vm_compute; discriminate|]).
  contradiction.
Qed.

Lemma same_round_no_change (r : Z) (rs later : list Z) :
  Forall (fun x => x = r) rs ->
  round_changes r (rs ++ later) = round_changes r later.
Proof.
  induction 1 as [|x rs Hx _ IH]; simpl; [reflexivity|].
  subst x. rewrite Z.eqb_refl. simpl. exact IH.
Qed.

Lemma round_changes_schedule (rounds : Z) (order : list pystr)
    (round_nums : list Z) (current : Z) :
  StronglySorted Z.lt (current :: round_nums) ->
  (forall r, speakers rounds r order <> []) ->
  round_changes current (map fst (schedule rounds round_nums order))
  = round_nums.
Proof.
  revert current.
  induction round_nums as [|r rs IH]; intros cur Hs Hne; [reflexivity|].
  change (schedule rounds (r :: rs) order)
    with (map (pair r) (speakers rounds r order) ++ schedule rounds rs order).
  rewrite map_app, map_map. cbn [fst].
  inversion Hs as [|? ? Hs' Hlt]; subst.
  assert (Hr : (cur < r)%Z) by (apply Forall_inv in Hlt; exact Hlt).
  specialize (Hne r) as Hner.
  destruct (speakers rounds r order) as [|k ks]; [contradiction|].
  cbn [map app round_changes].
  destruct (r =? cur)%Z eqn:E; [lia|]. cbn [negb].
  rewrite same_round_no_change
    by (apply Forall_forall; intros x Hx;
        apply in_map_iff in Hx as (? & <- & _); reflexivity).
  f_equal. apply IH; assumption.
Qed.

Lemma range_from_1_strict (n : Z) :
  StronglySorted Z.lt (0%Z :: range_from_1 n).
Proof.
  unfold range_from_1.
  assert (H : forall m a, StronglySorted Z.lt (map Z.of_nat (seq a m))).
  { induction m as [|m IH]; intros a; simpl; constructor; [apply IH|].
    apply Forall_forall. intros y Hy.
    apply in_map_iff in Hy as (i & <- & Hi). apply in_seq in Hi. lia. }
  constructor; [apply H|].
  apply Forall_forall. intros y Hy.
  apply in_map_iff in Hy as (i & <- & Hi). apply in_seq in Hi. lia.
Qed.

Lemma active_speakers_nonempty (cfg : config.Config) (rounds r : Z) :
  speakers rounds r (active_order cfg) <> [].
Proof.
  unfold active_order. destruct (config.ENABLE_SYNTHESIZER cfg).
  - rewrite speakers_with_synth.
    destruct (skips rounds r (lit "synthesizer")); discriminate.
  - rewrite speakers_without_synth. discriminate.
Qed.

Lemma turns_round_changes (cfg : config.Config) (rounds : option Z) :
  round_changes 0 (map fst (turns cfg rounds))
  = range_from_1 (rounds_or_default cfg rounds).
Proof.
  apply round_changes_schedule.
  - apply range_from_1_strict.
  - apply active_speakers_nonempty.
Qed.

(* ================================================================= *)
(** * The generator and its caller *)

Section Driven.

Variable cfg : config.Config.
Variable backend : Backend.
Variable A : Type.
Variable body : Message -> A -> A * option exn.

Lemma drive_turns_app (a b : list (Z * pystr)) (st : Run) (acc : A) :
  drive_turns cfg backend body (a ++ b) st acc =
  match drive_turns cfg backend body a st acc with
  | (st', acc', None) => drive_turns cfg backend body b st' acc'
  | (st', acc', Some e) => (st', acc', Some e)
  end.
Proof.
  revert st acc; induction a as [|[r k] a IH]; intros st acc; simpl;
    [reflexivity|].
  destruct (_generate_response cfg backend (self st) k r (calls st))
    as [[m|e] log]; [|reflexivity].
  destruct (body m acc) as [acc' [e|]]; [reflexivity | apply IH].
Qed.

Lemma drive_order_turns (rounds round_num : Z) (order : list pystr)
    (st : Run) (acc : A) :
  drive_order cfg backend A body rounds round_num order st acc =
  drive_turns cfg backend body
    (map (pair round_num) (speakers rounds round_num order)) st acc.
Proof.
  revert st acc; induction order as [|k order IH]; intros st acc; simpl;
    [reflexivity|].
  unfold speakers in *; simpl.
  destruct (skips rounds round_num k); simpl; [apply IH|].
  destruct (_generate_response cfg backend (self st) k round_num (calls st))
    as [[m|e] log]; [|reflexivity].
  destruct (body m acc) as [acc' [e|]]; [reflexivity | apply IH].
Qed.

Lemma drive_rounds_turns (rounds : Z) (round_nums : list Z)
    (order : list pystr) (st : Run) (acc : A) :
  drive_rounds cfg backend A body rounds round_nums order st acc =
  drive_turns cfg backend body (schedule rounds round_nums order) st acc.
Proof.
  revert st acc; induction round_nums as [|r rs IH]; intros st acc; simpl;
    [reflexivity|].
  unfold schedule; simpl. rewrite drive_turns_app, drive_order_turns.
  destruct (drive_turns cfg backend body _ st acc) as [[st' acc'] [e|]];
    [reflexivity | apply IH].
Qed.

Lemma drive_discussion_turns (rounds : option Z) (d : Discussion)
    (log : list Call) (acc : A) :
  drive_discussion cfg backend A body rounds d log acc =
  drive_turns cfg backend body (turns cfg rounds) (start d log) acc.
Proof. unfold drive_discussion, turns. apply drive_rounds_turns. Qed.

(** What the driven generator leaves behind, whatever its outcome: the
    messages it yielded are in the transcript and were given to the body
    one after the other; when it ends normally every turn was taken and
    the body raised on none. *)
Lemma drive_turns_frame (ts : list (Z * pystr)) (st st' : Run) (acc acc' : A)
    (o : option exn) :
  drive_turns cfg backend body ts st acc = (st', acc', o) ->
  exists ys ob,
    yielded st' = yielded st ++ ys /\
    messages (self st') = messages (self st) ++ ys /\
    clients (self st') = clients (self st) /\
    Forall (fun m => In (turn_of m) ts) ys /\
    feed body ys acc = (acc', ob) /\
    (o = None -> ob = None /\ map turn_of ys = ts).
Proof.
  revert st acc; induction ts as [|[r k] ts IH]; intros st acc; simpl.
  - intros H. injection H as <- <- <-. exists [], None.
    rewrite !app_nil_r. repeat split. constructor.
  - destruct (_generate_response cfg backend (self st) k r (calls st))
      as [[m|e] log] eqn:G.
    + apply generate_response_ok in G
        as (persona & client & text & _ & _ & _ & _ & Hm).
      destruct (body m acc) as [acc1 [e|]] eqn:B.
      * intros H. injection H as <- <- <-. simpl. exists [m], (Some e).
        repeat split; try discriminate.
        -- constructor; [|constructor]. subst m. now left.
        -- simpl. now rewrite B.
      * intros H. apply IH in H as (ys & ob & Hy & Hmsg & Hc & Hall & Hf & Ho).
        simpl in *. exists (m :: ys), ob. rewrite <- !app_assoc in *. simpl.
        split; [exact Hy|]. split; [exact Hmsg|]. split; [exact Hc|].
        split; [|split].
        -- constructor; [subst m; now left|].
           eapply Forall_impl; [|exact Hall]. intros m' Hin. now right.
        -- now rewrite B.
        -- intros E. destruct (Ho E) as [-> Hts]. split; [reflexivity|].
           rewrite Hts. subst m. reflexivity.
    + intros H. injection H as <- <- <-. simpl. exists [], None.
      rewrite !app_nil_r. repeat split; try discriminate. constructor.
Qed.

(** When the body raises on none of the messages of the run, the driven
    generator does what the generator does. *)
Lemma drive_turns_quiet_body (ts : list (Z * pystr)) (st st1 : Run)
    (o1 : option exn) (acc acc1 : A) (ys : list Message) :
  run_turns cfg backend ts st = (st1, o1) ->
  yielded st1 = yielded st ++ ys ->
  feed body ys acc = (acc1, None) ->
  drive_turns cfg backend body ts st acc = (st1, acc1, o1).
Proof.
  revert st acc ys; induction ts as [|[r k] ts IH]; intros st acc ys; simpl.
  - intros H Hy Hf. injection H as <- <-.
    assert (ys = []) as ->.
    { apply (app_inv_head (yielded st)). now rewrite app_nil_r. }
    simpl in Hf. now injection Hf as <-.
  - destruct (_generate_response cfg backend (self st) k r (calls st))
      as [[m|e] log] eqn:G.
    + intros H Hy Hf.
      pose proof (run_turns_frame cfg backend _ _ _ _ H)
        as (ys' & _ & Hy' & _).
      simpl in Hy'. rewrite Hy', <- app_assoc in Hy.
      apply app_inv_head in Hy. subst ys. simpl in Hf.
      destruct (body m acc) as [acc' [e|]]; [discriminate|].
      apply (IH _ _ ys'); assumption.
    + intros H Hy Hf. injection H as <- <-. simpl in Hy.
      assert (ys = []) as ->.
      { apply (app_inv_head (yielded st)). now rewrite app_nil_r. }
      simpl in Hf. now injection Hf as <-.
Qed.

End Driven.

(** *** The display loop *)

Section Display.

Variable console : main.Console.

Lemma feed_show_printed (ys : list Message) (scr scr' : main.Screen)
    (ob : option exn) :
  feed (main.show console) ys scr = (scr', ob) ->
  (forall m, In m (main.messages_printed scr') ->
             In m (main.messages_printed scr) \/ In m ys)
  /\
  (ob = None ->
   main.messages_printed scr' = main.messages_printed scr ++ ys /\
   main.rounds_printed scr'
   = main.rounds_printed scr
     ++ round_changes (main.current_round scr) (map round_num ys)).
Proof.
  revert scr; induction ys as [|m ys IH]; intros scr; cbn [feed].
  - intros H. injection H as <- <-. split; [auto|].
    intros _. simpl. now rewrite !app_nil_r.
  - unfold main.show at 1. unfold main.print_message.
    set (scr0 := if negb (round_num m =? main.current_round scr)%Z
                 then {| main.current_round := round_num m;
                         main.rounds_printed := main.rounds_printed scr ++ [round_num m];
                         main.messages_printed := main.messages_printed scr |}
                 else scr).
    assert (Hmsgs : main.messages_printed scr0 = main.messages_printed scr).
    { subst scr0. destruct (negb _); reflexivity. }
    destruct (console (main.MessageTitle _ _ _)) as [e|].
    { intros H. injection H as <- <-. rewrite Hmsgs.
      split; [auto | discriminate]. }
    destruct (console (main.MessageText _)) as [e|].
    { intros H. injection H as <- <-. rewrite Hmsgs.
      split; [auto | discriminate]. }
    intros H. apply IH in H as [Hsub Hall]. cbn [main.messages_printed
      main.rounds_printed main.current_round] in *. split.
    + intros m' Hm'. destruct (Hsub m' Hm') as [Hin|Hin]; [|right; now right].
      rewrite Hmsgs in Hin. apply in_app_or in Hin as [Hin|[<-|[]]].
      * now left.
      * right. now left.
    + intros E. destruct (Hall E) as [H1 H2]. rewrite H1, H2, Hmsgs.
      rewrite <- !app_assoc. split; [reflexivity|].
      subst scr0. cbn [map round_changes].
      destruct (negb (round_num m =? main.current_round scr)%Z);
        cbn [main.rounds_printed main.current_round];
        rewrite <- ?app_assoc; reflexivity.
Qed.

Lemma feed_show_plain (ys : list Message) (scr : main.Screen) :
  prints_all console ->
  exists scr', feed (main.show console) ys scr = (scr', None).
Proof.
  intros Hp. revert scr; induction ys as [|m ys IH]; intros scr; cbn [feed].
  - eauto.
  - unfold main.show at 1. unfold main.print_message. rewrite !Hp. apply IH.
Qed.

End Display.

(* ================================================================= *)
(** * The command line *)

Lemma main_unfold (backend : Backend) (console : main.Console)
    (cfg : config.Config) (env : main.Env) (args : main.Args) :
  main.main backend console cfg env args
  = if main.missing_api_key (overrides cfg args) then
      main.stop (main.SysExit 1
                   (main.no_api_key_error (config.LLM_PROVIDER (overrides cfg args))))
    else
      match main.read_topic env args with
      | Raise e => main.stop (main.Uncaught e)
      | Ok user_input =>
          if negb (truthy user_input) then
            main.stop (main.SysExit 1 main.no_topic_error)
          else
            main.guarded console
              (main.run_discussion backend console (overrides cfg args) user_input)
      end.
Proof. reflexivity. Qed.

Lemma overrides_keys (cfg : config.Config) (args : main.Args) :
  main.missing_api_key (overrides cfg args) = main.missing_api_key cfg /\
  config.LLM_PROVIDER (overrides cfg args) = config.LLM_PROVIDER cfg.
Proof.
  unfold overrides. cbv zeta.
  destruct (main.rounds args =? 0)%Z, (main.no_synth args); split; reflexivity.
Qed.

Lemma overrides_rounds (cfg : config.Config) (args : main.Args) :
  main.rounds args <> 0%Z ->
  config.MAX_ROUNDS (overrides cfg args) = main.rounds args.
Proof.
  intros H. unfold overrides. cbv zeta. apply Z.eqb_neq in H. rewrite H.
  destruct (main.no_synth args); reflexivity.
Qed.

Lemma overrides_no_synth (cfg : config.Config) (args : main.Args) :
  main.no_synth args = true ->
  active_order (overrides cfg args) = RESPONSE_ORDER.
Proof.
  intros H. unfold overrides. cbv zeta. rewrite H. reflexivity.
Qed.

(** [run_discussion] of [main.py] never exits by itself; what it shows
    was printed by the display loop over the messages of the run of the
    session it built, and it shows a summary only after that loop has ended
    normally. *)
Lemma main_run_shape (backend : Backend) (console : main.Console)
    (cfg : config.Config) (topic : pystr) :
  let out := main.run_discussion backend console cfg topic in
  (forall code msg, main.ending out <> main.SysExit code msg)
  /\
  ((main.shown out = main.nothing_shown /\ main.ending out <> main.Returned)
   \/
   exists d st scr o,
     new cfg topic = Ok d /\
     drive_discussion cfg backend main.Screen (main.show console) None d []
       main.blank_screen = (st, scr, o) /\
     main.shown_messages (main.shown out) = main.messages_printed scr /\
     main.shown_rounds (main.shown out) = main.rounds_printed scr /\
     (main.ending out = main.Returned -> o = None)).
Proof.
  cbv zeta. unfold main.run_discussion.
  destruct (console (main.TopicPanel topic)) as [e|];
    [split; [discriminate | left; split; [reflexivity | discriminate]]|].
  destruct (new cfg topic) as [d|e] eqn:Hnew;
    [|split; [discriminate | left; split; [reflexivity | discriminate]]].
  destruct (drive_discussion cfg backend main.Screen (main.show console) None d []
              main.blank_screen) as [[st scr] o] eqn:E.
  assert (Hshape : forall out',
             main.shown_messages (main.shown out') = main.messages_printed scr ->
             main.shown_rounds (main.shown out') = main.rounds_printed scr ->
             (main.ending out' = main.Returned -> o = None) ->
             (main.shown out' = main.nothing_shown
              /\ main.ending out' <> main.Returned) \/
             exists d0 st0 scr0 o0,
               Ok d = Ok d0 /\
               drive_discussion cfg backend main.Screen (main.show console) None
                 d0 [] main.blank_screen = (st0, scr0, o0) /\
               main.shown_messages (main.shown out') = main.messages_printed scr0 /\
               main.shown_rounds (main.shown out') = main.rounds_printed scr0 /\
               (main.ending out' = main.Returned -> o0 = None)).
  { intros out' H1 H2 H3. right. exists d, st, scr, o. auto 10. }
  clear E.
  destruct o as [e|].
  { split; [discriminate|]. apply Hshape; [reflexivity | reflexivity | discriminate]. }
  destruct (generate_summary backend (self st) (calls st)) as [[s|e] lg].
  2:{ split; [discriminate|]. apply Hshape; reflexivity. }
  destruct (console (main.MarkdownText s)) as [e|].
  { split; [discriminate|]. apply Hshape; reflexivity. }
  destruct (generate_takeaway backend (self st) lg) as [[t|e] lg'].
  2:{ split; [discriminate|]. apply Hshape; reflexivity. }
  destruct (console (main.MarkdownText t)) as [e|].
  { split; [discriminate|]. apply Hshape; reflexivity. }
  split; [discriminate|]. apply Hshape; reflexivity.
Qed.

Lemma guarded_shape (console : main.Console) (out : main.Outcome) :
  main.shown (main.guarded console out) = main.shown out /\
  main.session (main.guarded console out) = main.session out /\
  main.backend_calls (main.guarded console out) = main.backend_calls out /\
  (forall code msg,
     main.ending out <> main.SysExit code msg ->
     main.ending (main.guarded console out) <> main.SysExit code msg) /\
  (main.ending (main.guarded console out) = main.Returned <->
   main.ending out = main.Returned).
Proof.
  unfold main.guarded. destruct (main.ending out) as [| |e] eqn:E.
  - rewrite E. repeat split; auto.
  - rewrite E. repeat split; auto.
  - destruct (console (main.ErrorText e)) as [e'|]; simpl; rewrite ?E;
      repeat split; auto; discriminate.
Qed.

(** X16. [main] stops on the API key check exactly when the provider is
    groq, google or huggingface and the key of that provider is empty; it
    then exits with status 1 whatever the arguments and the input, with no
    session and no backend call. In any other configuration, and so in mixed
    mode and with ollama, [main] never ends on the API key error. *)
Theorem api_key_gate (backend : Backend) (console : main.Console)
    (cfg : config.Config) (env : main.Env) (args : main.Args) :
  (main.missing_api_key cfg = true <->
   (config.LLM_PROVIDER cfg = lit "groq" /\ config.GROQ_API_KEY cfg = [])
   \/ (config.LLM_PROVIDER cfg = lit "google" /\ config.GOOGLE_API_KEY cfg = [])
   \/ (config.LLM_PROVIDER cfg = lit "huggingface"
       /\ config.HUGGINGFACE_API_KEY cfg = []))
  /\
  (main.missing_api_key cfg = true ->
   main.main backend console cfg env args
   = main.stop (main.SysExit 1 (main.no_api_key_error (config.LLM_PROVIDER cfg))))
  /\
  (main.missing_api_key cfg = false ->
   main.ending (main.main backend console cfg env args)
   <> main.SysExit 1 (main.no_api_key_error (config.LLM_PROVIDER cfg))).
Proof.
  split; [|split].
  - unfold main.missing_api_key. cbv zeta.
    destruct (pystr_eqb (config.LLM_PROVIDER cfg) (lit "ollama")) eqn:Eo.
    { apply pystr_eqb_eq in Eo. rewrite Eo. split; [discriminate|].
      intros [[H _]|[[H _]|[H _]]]; discriminate. }
    destruct (pystr_eqb (config.LLM_PROVIDER cfg) (lit "groq")) eqn:Eg.
    { apply pystr_eqb_eq in Eg. rewrite Eg. simpl.
      destruct (config.GROQ_API_KEY cfg); simpl; split; try discriminate; auto.
      intros [[_ H]|[[H _]|[H _]]]; discriminate. }
    destruct (pystr_eqb (config.LLM_PROVIDER cfg) (lit "google")) eqn:Ego.
    { apply pystr_eqb_eq in Ego. rewrite Ego. simpl.
      destruct (config.GOOGLE_API_KEY cfg); simpl; split; try discriminate; auto.
      intros [[H _]|[[_ H]|[H _]]]; discriminate. }
    destruct (pystr_eqb (config.LLM_PROVIDER cfg) (lit "huggingface")) eqn:Eh.
    { apply pystr_eqb_eq in Eh. rewrite Eh. simpl.
      destruct (config.HUGGINGFACE_API_KEY cfg); simpl; split;
        try discriminate; auto.
      intros [[H _]|[[H _]|[_ H]]]; discriminate. }
    simpl. split; [discriminate|].
    apply pystr_eqb_neq in Eg, Ego, Eh. tauto.
  - intros H. rewrite main_unfold.
    destruct (overrides_keys cfg args) as [-> ->]. now rewrite H.
  - intros H. rewrite main_unfold.
    destruct (overrides_keys cfg args) as [-> _]. rewrite H.
    destruct (main.read_topic env args) as [t|e]; [|discriminate].
    destruct (negb (truthy t)).
    + simpl. intros E. injection E as E. discriminate E.
    + apply guarded_shape. apply main_run_shape.
Qed.

Lemma api_key_gate_witness :
  main.ending
    (main.main steady_backend plain_console example_config
       {| main.open_read := fun _ => Ok []; main.stdin := [] |}
       {| main.topic := Some example_topic; main.file := None;
          main.rounds := 1; main.no_synth := false |})
  <> main.SysExit 1 (main.no_api_key_error (lit "mixed")).
Proof.
  apply (proj2 (proj2 (api_key_gate steady_backend plain_console example_config
                         {| main.open_read := fun _ => Ok []; main.stdin := [] |}
                         {| main.topic := Some example_topic; main.file := None;
                            main.rounds := 1; main.no_synth := false |}))).
  reflexivity.
Defined.

(** *** Typed input *)

Lemma read_lines_until_double_blank (pre rest lines : list pystr) (empty_count : nat) :
  no_double_blank pre = true ->
  (empty_count = 0%nat
   \/ (empty_count = 1%nat /\ match pre with a :: _ => truthy a = true | [] => True end)) ->
  (exists tail,
     (tail = [] \/ tail = [[]]) /\
     main.read_lines (pre ++ [] :: [] :: rest) lines empty_count
     = lines ++ pre ++ tail)
  /\ main.read_lines pre lines empty_count = lines ++ pre.
Proof.
  revert lines empty_count.
  induction pre as [|a pre IH]; intros lines ec Hnd Hec.
  - split; [|simpl; now rewrite app_nil_r].
    destruct Hec as [->|[-> _]]; simpl.
    + exists [[]]. split; [now right | reflexivity].
    + exists []. split; [now left | now rewrite app_nil_r].
  - assert (Hnd' : no_double_blank pre = true).
    { simpl in Hnd. destruct pre; [reflexivity|].
      now apply andb_true_iff in Hnd as [_ H]. }
    change ((a :: pre) ++ [] :: [] :: rest) with (a :: (pre ++ [] :: [] :: rest)).
    cbn [main.read_lines]. destruct (truthy a) eqn:Ea.
    + destruct (IH (lines ++ [a]) 0%nat Hnd' (or_introl eq_refl))
        as [(tail & Ht & E) E'].
      rewrite E, E', <- !app_assoc. split; [|reflexivity].
      exists tail. split; [exact Ht | reflexivity].
    + destruct Hec as [->|[_ Hh]]; [|congruence].
      assert (Hnext : match pre with b :: _ => truthy b = true | [] => True end).
      { destruct pre as [|b pre']; [exact I|]. simpl in Hnd.
        rewrite Ea in Hnd. simpl in Hnd.
        now apply andb_true_iff in Hnd as [H _]. }
      cbn [Nat.leb].
      destruct (IH (lines ++ [a]) 1%nat Hnd' (or_intror (conj eq_refl Hnext)))
        as [(tail & Ht & E) E'].
      rewrite E, E', <- !app_assoc. split; [|reflexivity].
      exists tail. split; [exact Ht | reflexivity].
Qed.

Lemma join_blank_tail (pre : list pystr) :
  exists w, blank w = true /\ join [nl] (pre ++ [[]]) = join [nl] pre ++ w.
Proof.
  destruct pre as [|x xs].
  - exists []. split; reflexivity.
  - exists [nl]. split; [reflexivity|].
    change ((x :: xs) ++ [[]]) with (x :: (xs ++ [[]])).
    rewrite !join_cons, map_app, concat_app. simpl.
    now rewrite <- app_assoc.
Qed.

(** X17. [get_user_input] returns the lines typed before the first two
    empty lines in a row, joined by line breaks and trimmed; whatever is
    typed after them is ignored. Without two empty lines in a row it returns
    all the lines typed until end of file, joined and trimmed. The text
    returned has no whitespace at either end. *)
Theorem typed_input_ends_at_double_blank (env : main.Env)
    (pre rest : list pystr) :
  no_double_blank pre = true ->
  (main.stdin env = pre ++ [] :: [] :: rest \/ main.stdin env = pre) ->
  main.get_user_input env = strip (join [nl] pre) /\
  trimmed (main.get_user_input env).
Proof.
  intros Hnd Hin.
  assert (E : main.get_user_input env = strip (join [nl] pre)).
  { unfold main.get_user_input.
    destruct (read_lines_until_double_blank pre rest [] 0%nat Hnd
                (or_introl eq_refl)) as [(tail & Ht & E1) E2].
    destruct Hin as [-> | ->].
    - rewrite E1. simpl. destruct Ht as [-> | ->].
      + now rewrite app_nil_r.
      + destruct (join_blank_tail pre) as (w & Hw & ->).
        now apply strip_app_blank.
    - now rewrite E2. }
  split; [exact E|]. rewrite E. apply strip_trimmed.
Qed.

Lemma typed_input_ends_at_double_blank_witness :
  main.get_user_input
    {| main.open_read := fun _ => Ok [];
       main.stdin := [lit "a"; []; lit "b"; []; []; lit "ignored"] |}
  = lit "a" ++ [nl; nl] ++ lit "b".
Proof.
  destruct (typed_input_ends_at_double_blank
              {| main.open_read := fun _ => Ok [];
                 main.stdin := [lit "a"; []; lit "b"; []; []; lit "ignored"] |}
              [lit "a"; []; lit "b"] [lit "ignored"] eq_refl
              (or_introl eq_refl)) as [E _].
  rewrite E. reflexivity.
Defined.

(** *** The options *)

Lemma set_MAX_ROUNDS_same (cfg : config.Config) :
  config.set_MAX_ROUNDS cfg (config.MAX_ROUNDS cfg) = cfg.
Proof. destruct cfg. reflexivity. Qed.

(** X18. [--rounds 0] is ignored: [main] behaves as with [--rounds] set to
    the configured [MAX_ROUNDS]. *)
Theorem rounds_option_zero_is_default (backend : Backend)
    (console : main.Console) (cfg : config.Config)
    (env : main.Env) (args : main.Args) :
  main.main backend console cfg env (with_rounds args 0)
  = main.main backend console cfg env (with_rounds args (config.MAX_ROUNDS cfg)).
Proof.
  unfold main.main, main.read_topic, with_rounds. simpl.
  destruct (config.MAX_ROUNDS cfg =? 0)%Z; [reflexivity|].
  now rewrite set_MAX_ROUNDS_same.
Qed.

Lemma drive_no_rounds (cfg : config.Config) (backend : Backend) (A : Type)
    (body : Message -> A -> A * option exn) (rounds : option Z)
    (d : Discussion) (log : list Call) (acc : A) :
  (rounds_or_default cfg rounds <= 0)%Z ->
  drive_discussion cfg backend A body rounds d log acc
  = (start d log, acc, None).
Proof.
  intros H. unfold drive_discussion, range_from_1. cbv zeta.
  replace (Z.to_nat (rounds_or_default cfg rounds)) with 0%nat by lia.
  reflexivity.
Qed.

Lemma new_fresh (cfg : config.Config) (topic : pystr) (d : Discussion) :
  new cfg topic = Ok d -> user_input d = topic /\ messages d = [].
Proof.
  unfold new, __init__. destruct (_setup_clients cfg []); simpl; [|discriminate].
  intros H. injection H as <-. split; reflexivity.
Qed.

Lemma post_processors_calls (backend : Backend) (d : Discussion)
    (log : list Call) (client : Client) :
  first_client d = Ok client ->
  generate_summary backend d log
  = (backend log (post_call client summary_prompt
                    (lit "Please summarize this discussion.") d),
     log ++ [post_call client summary_prompt
               (lit "Please summarize this discussion.") d])
  /\
  generate_takeaway backend d log
  = (backend log (post_call client takeaway_prompt
                    (lit "Provide a final balanced takeaway.") d),
     log ++ [post_call client takeaway_prompt
               (lit "Provide a final balanced takeaway.") d]).
Proof.
  intros H. unfold generate_summary, generate_takeaway. rewrite H.
  split; reflexivity.
Qed.

(** The post-processing of [run_discussion] in [main.py], when the
    backend answers and the terminal prints the two texts. *)
Lemma after_the_rounds (backend : Backend) (console : main.Console)
    (cfg : config.Config) (topic : pystr) (d : Discussion) (st : Run)
    (scr : main.Screen) (client : Client) :
  always_answers backend ->
  (forall text, console (main.MarkdownText text) = None) ->
  console (main.TopicPanel topic) = None ->
  new cfg topic = Ok d ->
  drive_discussion cfg backend main.Screen (main.show console) None d []
    main.blank_screen = (st, scr, None) ->
  first_client (self st) = Ok client ->
  exists summary takeaway,
    main.run_discussion backend console cfg topic
    = {| main.ending := main.Returned;
         main.session := Some (self st);
         main.shown := main.on_screen scr (Some summary) (Some takeaway);
         main.backend_calls :=
           (calls st
            ++ [post_call client summary_prompt
                  (lit "Please summarize this discussion.") (self st)])
           ++ [post_call client takeaway_prompt
                 (lit "Provide a final balanced takeaway.") (self st)] |}.
Proof.
  intros HB Hmd Hpanel Hnew Hdrive Hfirst.
  unfold main.run_discussion. rewrite Hpanel, Hnew, Hdrive.
  destruct (post_processors_calls backend (self st) (calls st) client Hfirst)
    as [Hs _].
  rewrite Hs.
  destruct (HB (calls st) (post_call client summary_prompt
                             (lit "Please summarize this discussion.") (self st)))
    as [s Hsum].
  rewrite Hsum, Hmd.
  destruct (post_processors_calls backend (self st)
              (calls st ++ [post_call client summary_prompt
                              (lit "Please summarize this discussion.") (self st)])
              client Hfirst) as [_ Htk].
  rewrite Htk.
  destruct (HB (calls st ++ [post_call client summary_prompt
                               (lit "Please summarize this discussion.") (self st)])
              (post_call client takeaway_prompt
                 (lit "Provide a final balanced takeaway.") (self st)))
    as [t Htak].
  rewrite Htak, Hmd. exists s, t. reflexivity.
Qed.

(** X19. With a negative [--rounds], [main] shows no message of the
    discussion, yet it still asks for the summary and the takeaway, each
    over a transcript that holds the topic alone, and returns normally after
    exactly these two backend calls; this when the API key check passes, the
    topic is not empty, the terminal prints the topic panel and the two
    texts, the session is constructed with at least one client, and the
    backend answers. *)
Theorem negative_rounds_still_summarize (backend : Backend)
    (console : main.Console) (cfg : config.Config) (env : main.Env)
    (args : main.Args) (topic : pystr) (d : Discussion) (client : Client) :
  (main.rounds args < 0)%Z ->
  main.missing_api_key cfg = false ->
  main.read_topic env args = Ok topic ->
  truthy topic = true ->
  console (main.TopicPanel topic) = None ->
  (forall text, console (main.MarkdownText text) = None) ->
  new (overrides cfg args) topic = Ok d ->
  first_client d = Ok client ->
  always_answers backend ->
  let out := main.main backend console cfg env args in
  main.ending out = main.Returned /\
  main.session out = Some d /\
  main.shown_messages (main.shown out) = [] /\
  main.shown_rounds (main.shown out) = [] /\
  main.shown_summary (main.shown out) <> None /\
  main.shown_takeaway (main.shown out) <> None /\
  main.backend_calls out
  = [ post_call client summary_prompt (lit "Please summarize this discussion.") d;
      post_call client takeaway_prompt (lit "Provide a final balanced takeaway.") d ]
  /\
  get_transcript d = lit "[User]" ++ [nl] ++ topic ++ [nl].
Proof.
  intros HR Hkey Htopic Ht Hpanel Hmd Hnew Hfirst HB out. subst out.
  rewrite main_unfold. destruct (overrides_keys cfg args) as [-> _].
  rewrite Hkey, Htopic, Ht. simpl negb. cbv iota.
  assert (Hdrive : drive_discussion (overrides cfg args) backend main.Screen
                     (main.show console) None d [] main.blank_screen
                   = (start d [], main.blank_screen, None)).
  { apply drive_no_rounds. simpl. rewrite overrides_rounds by lia. lia. }
  destruct (after_the_rounds backend console (overrides cfg args) topic d
              (start d []) main.blank_screen client HB Hmd Hpanel Hnew Hdrive
              Hfirst) as (s & t & ->).
  simpl. repeat split; try discriminate.
  destruct (new_fresh _ _ _ Hnew) as [Hu Hm].
  rewrite transcript_text, Hu, Hm. simpl. now rewrite app_nil_r, <- ?app_assoc.
Qed.

Lemma negative_rounds_still_summarize_witness :
  length
    (main.backend_calls
       (main.main steady_backend plain_console example_config
          {| main.open_read := fun _ => Ok []; main.stdin := [] |}
          {| main.topic := Some example_topic; main.file := None;
             main.rounds := -1; main.no_synth := false |}))
  = 2%nat.
Proof.
  destruct (negative_rounds_still_summarize steady_backend plain_console
              example_config
              {| main.open_read := fun _ => Ok []; main.stdin := [] |}
              {| main.topic := Some example_topic; main.file := None;
                 main.rounds := -1; main.no_synth := false |}
              example_topic example_session
              (OllamaClient (lit "llama3.2") (lit "http://localhost:11434") 180)
              ltac:(simpl; lia) eq_refl eq_refl eq_refl eq_refl
              (fun _ => eq_refl) eq_refl eq_refl
              steady_backend_answers) as (_ & _ & _ & _ & _ & _ & Hc & _).
  rewrite Hc. reflexivity.
Defined.

(** X20. With [--no-synth], no message [main] shows was spoken by the
    synthesizer, whatever the configuration, the input, the backend and the
    terminal. *)
Theorem no_synth_silences_synthesizer (backend : Backend)
    (console : main.Console) (cfg : config.Config) (env : main.Env)
    (args : main.Args) :
  main.no_synth args = true ->
  Forall (fun m => persona_key m <> lit "synthesizer")
    (main.shown_messages (main.shown (main.main backend console cfg env args))).
Proof.
  intros Hns. rewrite main_unfold.
  destruct (main.missing_api_key (overrides cfg args)); [constructor|].
  destruct (main.read_topic env args) as [topic|e]; [|constructor].
  destruct (negb (truthy topic)); [constructor|].
  destruct (guarded_shape console
              (main.run_discussion backend console (overrides cfg args) topic))
    as [-> _].
  destruct (main_run_shape backend console (overrides cfg args) topic)
    as [_ [[-> _] | (d & st & scr & o & _ & Hdrive & -> & _)]]; [constructor|].
  rewrite drive_discussion_turns in Hdrive.
  apply drive_turns_frame in Hdrive as (ys & ob & _ & _ & _ & Hall & Hfeed & _).
  apply feed_show_printed in Hfeed as [Hsub _].
  apply Forall_forall. intros m Hm.
  destruct (Hsub m Hm) as [[]|Hin].
  rewrite Forall_forall in Hall. specialize (Hall m Hin).
  unfold turn_of in Hall. apply turns_In in Hall as (_ & Hk & _).
  rewrite (overrides_no_synth cfg args Hns) in Hk.
  simpl in Hk. intros E. rewrite E in Hk.
  repeat (destruct Hk as [Hk|Hk]; [discriminate Hk|]). contradiction.
Qed.

Lemma no_synth_silences_synthesizer_witness :
  Forall (fun m => persona_key m <> lit "synthesizer")
    (main.shown_messages
       (main.shown
          (main.main steady_backend plain_console example_config
             {| main.open_read := fun _ => Ok []; main.stdin := [] |}
             {| main.topic := Some example_topic; main.file := None;
                main.rounds := 2; main.no_synth := true |}))).
Proof.
  apply (no_synth_silences_synthesizer steady_backend plain_console
           example_config
           {| main.open_read := fun _ => Ok []; main.stdin := [] |}
           {| main.topic := Some example_topic; main.file := None;
              main.rounds := 2; main.no_synth := true |}).
  reflexivity.
Defined.

(** X21. When the API key check passes, a topic file that cannot be read
    ends [main] with the exception of the read, uncaught, before any session
    or backend call, even when a topic is also given on the command line. *)
Theorem unreadable_file_is_uncaught (backend : Backend)
    (console : main.Console) (cfg : config.Config)
    (env : main.Env) (args : main.Args) (path : pystr) (e : exn) :
  main.missing_api_key cfg = false ->
  main.file args = Some path ->
  truthy path = true ->
  main.open_read env path = Raise e ->
  main.main backend console cfg env args = main.stop (main.Uncaught e).
Proof.
  intros Hkey Hfile Hpath Hopen. rewrite main_unfold.
  destruct (overrides_keys cfg args) as [-> _]. rewrite Hkey.
  unfold main.read_topic. rewrite Hfile. simpl. rewrite Hpath, Hopen.
  reflexivity.
Qed.

Lemma unreadable_file_is_uncaught_witness :
  main.main steady_backend plain_console example_config
    {| main.open_read := fun _ => Raise (OSError (lit "No such file"));
       main.stdin := [] |}
    {| main.topic := Some example_topic; main.file := Some (lit "missing.txt");
       main.rounds := 3; main.no_synth := false |}
  = main.stop (main.Uncaught (OSError (lit "No such file"))).
Proof.
  apply (unreadable_file_is_uncaught steady_backend plain_console example_config
           {| main.open_read := fun _ => Raise (OSError (lit "No such file"));
              main.stdin := [] |}
           {| main.topic := Some example_topic;
              main.file := Some (lit "missing.txt");
              main.rounds := 3; main.no_synth := false |}
           (lit "missing.txt") (OSError (lit "No such file")));
    reflexivity.
Defined.

Lemma all_bound_first_client (cfg : config.Config) (d : Discussion) :
  all_bound d (active_order cfg) -> exists client, first_client d = Ok client.
Proof.
  intros H.
  assert (Hin : In (lit "logical") (active_order cfg)).
  { unfold active_order. destruct (config.ENABLE_SYNTHESIZER cfg); now left. }
  destruct (H (lit "logical") Hin) as [_ Hc].
  unfold first_client, dict_values.
  destruct (clients d) as [|[k v] rest] eqn:E.
  - simpl in Hc. now contradiction Hc.
  - exists v. reflexivity.
Qed.

(** X22. With a topic, a session whose personas are all bound, a backend
    that always answers and a terminal that prints everything, [main], past
    its API key check, returns normally: it shows one rule per round and the
    messages of every turn of the schedule, which are the transcript of the
    session, then the summary and the takeaway; the backend calls are those
    of the turns, one per message, followed by the summary call and then the
    takeaway call, both to the first client and both over the complete
    transcript. *)
Theorem main_completes (backend : Backend) (console : main.Console)
    (cfg : config.Config) (env : main.Env) (args : main.Args)
    (topic : pystr) (d : Discussion) :
  always_answers backend ->
  prints_all console ->
  main.missing_api_key cfg = false ->
  main.read_topic env args = Ok topic ->
  truthy topic = true ->
  new (overrides cfg args) topic = Ok d ->
  all_bound d (active_order (overrides cfg args)) ->
  let out := main.main backend console cfg env args in
  main.ending out = main.Returned /\
  main.shown_summary (main.shown out) <> None /\
  main.shown_takeaway (main.shown out) <> None /\
  map turn_of (main.shown_messages (main.shown out))
  = turns (overrides cfg args) None /\
  main.shown_rounds (main.shown out)
  = range_from_1 (config.MAX_ROUNDS (overrides cfg args)) /\
  exists d' client turn_calls,
    main.session out = Some d' /\
    messages d' = main.shown_messages (main.shown out) /\
    first_client d = Ok client /\
    length turn_calls = length (main.shown_messages (main.shown out)) /\
    main.backend_calls out
    = turn_calls
      ++ [ post_call client summary_prompt
             (lit "Please summarize this discussion.") d';
           post_call client takeaway_prompt
             (lit "Provide a final balanced takeaway.") d' ].
Proof.
  intros HB Hp Hkey Htopic Ht Hnew Hbound out. subst out.
  rewrite main_unfold. destruct (overrides_keys cfg args) as [-> _].
  rewrite Hkey, Htopic, Ht. simpl negb. cbv iota.
  set (cfg' := overrides cfg args) in *.
  destruct (run_discussion_complete cfg' backend None d [] HB Hbound) as [Ho Hts].
  rewrite run_discussion_turns in Ho, Hts.
  destruct (run_turns cfg' backend (turns cfg' None) (start d []))
    as [st o] eqn:E.
  simpl in Ho, Hts. subst o.
  pose proof (run_turns_calls cfg' backend _ _ _ _ E) as (cs & Hcs & _ & Hlen & _).
  pose proof (run_turns_frame cfg' backend _ _ _ _ E)
    as (ys & post & Hy & Hm & _ & Hcl & _).
  simpl in Hy, Hm, Hcs, Hcl. subst ys.
  destruct (new_fresh _ _ _ Hnew) as [_ Hm0]. rewrite Hm0 in Hm. simpl in Hm.
  destruct (feed_show_plain console (yielded st) main.blank_screen Hp)
    as [scr Hfeed].
  assert (Hdrive : drive_discussion cfg' backend main.Screen (main.show console)
                     None d [] main.blank_screen = (st, scr, None)).
  { rewrite drive_discussion_turns.
    apply (drive_turns_quiet_body cfg' backend main.Screen (main.show console)
             _ _ _ _ _ _ (yielded st) E); [reflexivity | exact Hfeed]. }
  apply feed_show_printed in Hfeed as [_ Hprinted].
  destruct (Hprinted eq_refl) as [Hmsgs Hrounds]. simpl in Hmsgs, Hrounds.
  destruct (all_bound_first_client cfg' d Hbound) as [client Hfirst].
  assert (Hfirst' : first_client (self st) = Ok client).
  { unfold first_client in *. now rewrite Hcl. }
  destruct (after_the_rounds backend console cfg' topic d st scr client HB
              (fun text => Hp _) (Hp _) Hnew Hdrive Hfirst') as (s & t & ->).
  simpl. rewrite Hmsgs, Hrounds.
  split; [reflexivity|]. split; [discriminate|]. split; [discriminate|].
  split; [exact Hts|]. split.
  { etransitivity; [|exact (turns_round_changes cfg' None)].
    rewrite <- Hts, map_map. reflexivity. }
  exists (self st), client, cs.
  split; [reflexivity|]. split; [exact Hm|]. split; [exact Hfirst|].
  split.
  - rewrite (Hlen eq_refl), <- Hts, length_map. reflexivity.
  - rewrite Hcs, <- !app_assoc. reflexivity.
Qed.

Lemma main_completes_witness :
  main.ending
    (main.main steady_backend plain_console example_config
       {| main.open_read := fun _ => Ok []; main.stdin := [] |}
       {| main.topic := Some example_topic; main.file := None;
          main.rounds := 1; main.no_synth := false |})
  = main.Returned.
Proof.
  destruct (main_completes steady_backend plain_console example_config
              {| main.open_read := fun _ => Ok []; main.stdin := [] |}
              {| main.topic := Some example_topic; main.file := None;
                 main.rounds := 1; main.no_synth := false |}
              example_topic example_session
              steady_backend_answers (fun _ => eq_refl)
              eq_refl eq_refl eq_refl eq_refl
              example_session_bound) as [He _].
  exact He.
Defined.

(** X15. Whenever [main] returns normally, it has printed exactly one
    round rule per round, for the rounds 1 to [MAX_ROUNDS] as [--rounds]
    left it, in order, and it has printed the message of every turn of the
    schedule. *)
Theorem one_rule_per_round (backend : Backend) (console : main.Console)
    (cfg : config.Config) (env : main.Env) (args : main.Args) :
  main.ending (main.main backend console cfg env args) = main.Returned ->
  main.shown_rounds (main.shown (main.main backend console cfg env args))
  = range_from_1 (config.MAX_ROUNDS (overrides cfg args)) /\
  map turn_of
    (main.shown_messages (main.shown (main.main backend console cfg env args)))
  = turns (overrides cfg args) None.
Proof.
  rewrite main_unfold.
  destruct (main.missing_api_key (overrides cfg args)); [discriminate|].
  destruct (main.read_topic env args) as [topic|e]; [|discriminate].
  destruct (negb (truthy topic)); [discriminate|].
  destruct (guarded_shape console
              (main.run_discussion backend console (overrides cfg args) topic))
    as (-> & _ & _ & _ & Hret).
  intros H. apply Hret in H.
  destruct (main_run_shape backend console (overrides cfg args) topic)
    as [_ [[_ Hn] | (d & st & scr & o & _ & Hdrive & -> & -> & Ho)]];
    [contradiction|].
  specialize (Ho H). subst o.
  rewrite drive_discussion_turns in Hdrive.
  apply drive_turns_frame in Hdrive as (ys & ob & _ & _ & _ & _ & Hfeed & Hnone).
  destruct (Hnone eq_refl) as [-> Hts].
  apply feed_show_printed in Hfeed as [_ Hprinted].
  destruct (Hprinted eq_refl) as [Hmsgs Hrounds]. simpl in Hmsgs, Hrounds.
  rewrite Hmsgs, Hrounds. split; [|exact Hts].
  etransitivity; [|exact (turns_round_changes (overrides cfg args) None)].
  rewrite <- Hts, map_map. reflexivity.
Qed.

Lemma one_rule_per_round_witness :
  main.shown_rounds
    (main.shown
       (main.main steady_backend plain_console example_config
          {| main.open_read := fun _ => Ok []; main.stdin := [] |}
          {| main.topic := Some example_topic; main.file := None;
             main.rounds := 2; main.no_synth := false |}))
  = [1%Z; 2%Z].
Proof.
  destruct (one_rule_per_round steady_backend plain_console example_config
              {| main.open_read := fun _ => Ok []; main.stdin := [] |}
              {| main.topic := Some example_topic; main.file := None;
                 main.rounds := 2; main.no_synth := false |}) as [H _].
  - vm_compute. reflexivity.
  - rewrite H. reflexivity.
Defined.

(** X23. The topic is printed before the session is constructed: when the
    terminal raises on the topic panel, [main], past its API key check and
    with a topic, constructs no session, shows nothing of the discussion
    and calls no backend; its handler prints the error, and [main] ends with
    the exception of the panel, or with the exception of that print when it
    raises too. *)
Theorem topic_panel_failure_precedes_session (backend : Backend)
    (console : main.Console) (cfg : config.Config) (env : main.Env)
    (args : main.Args) (topic : pystr) (e : exn) :
  main.missing_api_key cfg = false ->
  main.read_topic env args = Ok topic ->
  truthy topic = true ->
  console (main.TopicPanel topic) = Some e ->
  let out := main.main backend console cfg env args in
  main.session out = None /\
  main.shown out = main.nothing_shown /\
  main.backend_calls out = [] /\
  main.ending out
  = match console (main.ErrorText e) with
    | Some e' => main.Uncaught e'
    | None => main.Uncaught e
    end.
Proof.
  intros Hkey Htopic Ht Hpanel out. subst out.
  rewrite main_unfold. destruct (overrides_keys cfg args) as [-> _].
  rewrite Hkey, Htopic, Ht. simpl negb. cbv iota.
  unfold main.run_discussion. rewrite Hpanel.
  unfold main.guarded. simpl.
  destruct (console (main.ErrorText e)); repeat split.
Qed.

Lemma topic_panel_failure_precedes_session_witness :
  main.main steady_backend broken_console example_config
    {| main.open_read := fun _ => Ok []; main.stdin := [] |}
    {| main.topic := Some (lit "Is [/b] a closing tag?"); main.file := None;
       main.rounds := 3; main.no_synth := false |}
  = main.stop
      (main.Uncaught (MarkupError (lit "closing tag doesn't match any open tag"))).
Proof.
  destruct (topic_panel_failure_precedes_session steady_backend broken_console
              example_config
              {| main.open_read := fun _ => Ok []; main.stdin := [] |}
              {| main.topic := Some (lit "Is [/b] a closing tag?");
                 main.file := None; main.rounds := 3; main.no_synth := false |}
              (lit "Is [/b] a closing tag?")
              (MarkupError (lit "closing tag doesn't match any open tag"))
              eq_refl eq_refl eq_refl eq_refl) as (Hs & Hsh & Hc & He).
  unfold main.stop.
  destruct (main.main steady_backend broken_console example_config
              {| main.open_read := fun _ => Ok []; main.stdin := [] |}
              {| main.topic := Some (lit "Is [/b] a closing tag?");
                 main.file := None; main.rounds := 3; main.no_synth := false |})
    as [en se sh bc].
  simpl in Hs, Hsh, Hc, He. now subst.
Defined.
